(** * Conversation-history compaction: a shallow embedding

    Source: [src/extension/prompts/node/agent/summarizedConversationHistory.tsx].

    The embedding follows the TypeScript classes one by one:
    - [ConversationHistorySummarizationPrompt.render]
                                      -> [ConversationHistorySummarizationPrompt_render]
    - [ConversationHistory.render]                          -> [ConversationHistory_render]
    - [SummarizedConversationHistory.render]    -> [SummarizedConversationHistory_render]
    - [SummarizedConversationHistory.summarizeHistory]      -> [summarizeHistory]
    - [SummarizedConversationHistory.addSummaryToHistory]   -> [addSummaryToHistory]
    - [SummarizedConversationHistory.sendSummarizationTelemetry]
                                                            -> [sendSummarizationTelemetry]
    - [SummarizedConversationHistoryPropsBuilder.getProps]  -> [getProps]
    - [SummarizedConversationHistoryPropsBuilder.getWorkingNotebook]
                                                            -> [getWorkingNotebook]

    JavaScript values that may be [undefined] are [option]s, a [throw] is the
    [Throw] completion, injected services are records of functions, and the
    objects reachable from [this.props] (which [addSummaryToHistory] mutates in
    place) form the state threaded through the executor.

    The chat sessions of [chatSession.ts] and [sessionManager.ts] are embedded
    in the modules [ChatSession] and [SessionManager], further down. *)

From stdpp Require Import base option list strings gmap pretty.
From Stdlib Require Import ZArith QArith Qround Lia.

Open Scope Z_scope.
Open Scope string_scope.
Open Scope list_scope.

(** ** JavaScript helpers *)

(** What a [throw] carries.  [Error msg] is [new Error(msg)]; [TypeError] is
    what reading a property of [undefined] or [null] raises;
    [BudgetExceededError] is the prompt renderer's class, which
    [summarizeHistory] tests with [instanceof]. *)
Inductive Exn :=
| Error (message : string)
| TypeError
| BudgetExceededError.

(** A completion record: normal return or abrupt completion. *)
Inductive Completion (A : Type) :=
| Normal (a : A)
| Throw (e : Exn).
Arguments Normal {A} a.
Arguments Throw {A} e.

#[global] Instance Completion_ret : MRet Completion := λ _ a, Normal a.
#[global] Instance Completion_bind : MBind Completion := λ _ _ f c,
  match c with
  | Normal a => f a
  | Throw e => Throw e
  end.

(** [try { c } catch (e) { h e }]. *)
Definition tryCatch {A} (c : Completion A) (h : Exn → Completion A) : Completion A :=
  match c with
  | Normal a => Normal a
  | Throw e => h e
  end.

(** Truthiness of an optional string: [undefined] and [''] are falsy. *)
Definition truthy (s : option string) : bool :=
  match s with
  | Some s => negb (bool_decide (s = ""))
  | None => false
  end.

(** [arr.at(-1)]. *)
Definition at_m1 {A} (arr : list A) : option A := last arr.

(** [arr.slice(0, -1)]: the end index is [max (length - 1) 0]. *)
Definition slice_0_m1 {A} (arr : list A) : list A := take (length arr - 1)%nat arr.

(** [arr.find(p)] keeps the index next to the element found: the element is an
    object reference, and the index is what identifies it in the embedding. *)
Definition js_find {A} (p : A → bool) (arr : list A) : option (nat * A) :=
  list_find (λ x, p x = true) arr.

(** [arr.findIndex(p)]: [-1] when nothing satisfies [p]. *)
Definition js_findIndex {A} (p : A → bool) (arr : list A) : Z :=
  match js_find p arr with
  | Some (i, _) => Z.of_nat i
  | None => -1
  end.

(** [arr.some(p)]. *)
Definition js_some {A} (p : A → bool) (arr : list A) : bool := existsb p arr.

(** ** Data model

    The interfaces are declared outside this file; each record holds the
    fields this file reads, under the field names of the TypeScript
    interfaces.  Where a name is too generic for one namespace ([id], [name],
    [arguments], [summary], [toolCalls], [uri]), it carries the record as a
    prefix. *)

(** [IToolCall]. *)
Record IToolCall := {
  call_name : string;
  call_arguments : string;
  call_id : string;
}.

(** [IToolCallRound]; [summary] is the optional field the patcher writes. *)
Record IToolCallRound := {
  round_id : string;
  round_response : string;
  round_toolCalls : list IToolCall;
  round_summary : option string;
}.

Definition withSummary (summary : string) (round : IToolCallRound) : IToolCallRound :=
  {| round_id := round_id round;
     round_response := round_response round;
     round_toolCalls := round_toolCalls round;
     round_summary := Some summary |}.

(** [IResultMetadata], restricted to what this file reads; a tool result is
    kept as the text it renders to. *)
Record IResultMetadata := {
  maxToolCallsExceeded : option bool;
  meta_toolCallResults : option (gmap string string);
}.

(** A [Turn] of the history.  [turn_responseMetadata] stands for
    [responseChatResult?.metadata]. *)
Record Turn := {
  turn_id : string;
  rounds : list IToolCallRound;
  resultMetadata : option IResultMetadata;
  turn_responseMetadata : option IResultMetadata;
}.

Definition withRounds (rs : list IToolCallRound) (turn : Turn) : Turn :=
  {| turn_id := turn_id turn;
     rounds := rs;
     resultMetadata := resultMetadata turn;
     turn_responseMetadata := turn_responseMetadata turn |}.

(** [IBuildPromptContext]. *)
Record IBuildPromptContext := {
  history : list Turn;
  toolCallRounds : option (list IToolCallRound);
  toolCallResults : option (gmap string string);
  isContinuation : option bool;
  conversation : option string;  (* [conversation?.sessionId] *)
}.

Record Uri := { uri_toString : string }.

Record NotebookDocument := {
  doc_uri : Uri;
  notebookType : string;
}.

(** [SummarizedAgentHistoryProps]; of the endpoint only [model] is read
    here. *)
Record SummarizedAgentHistoryProps := {
  priority : Z;
  endpoint_model : string;
  promptContext : IBuildPromptContext;
  triggerSummarize : option bool;
  enableCacheBreakpoints : option bool;
  workingNotebook : option NotebookDocument;
  maxToolResultLength : Z;
}.

(** [ISummarizedConversationHistoryInfo]. *)
Record ISummarizedConversationHistoryInfo := {
  props : SummarizedAgentHistoryProps;
  summarizedToolCallRoundId : string;
}.

(** ** SummarizedConversationHistoryPropsBuilder *)

(** What [JSON.parse] returns. *)
#[local] Unset Elimination Schemes.
Inductive JsonValue :=
| JNull
| JBool (b : bool)
| JNumber (n : Z)
| JString (s : string)
| JArray (items : list JsonValue)
| JObject (members : list (string * JsonValue)).
#[local] Set Elimination Schemes.

(** The own property [key] of a parsed object. *)
Fixpoint getMember (key : string) (members : list (string * JsonValue)) : option JsonValue :=
  match members with
  | [] => None
  | (k, v) :: rest => if bool_decide (k = key) then Some v else getMember key rest
  end.

(** [args.filePath]: reading a property of [null] throws, any other
    non-object has no such property. *)
Definition get_filePath (args : JsonValue) : Completion (option JsonValue) :=
  match args with
  | JNull => Throw TypeError
  | JObject members => Normal (getMember "filePath" members)
  | _ => Normal None
  end.

(** The builder's collaborators: the global [JSON.parse], the injected
    [IPromptPathRepresentationService] and [IWorkspaceService]. *)
Record BuilderServices := {
  JSON_parse : string → Completion JsonValue;
  resolveFilePath : string → Completion (option Uri);
  notebookDocuments : list NotebookDocument;
}.

Section PropsBuilder.
(** [ToolName.RunNotebookCell]; the enum lives outside this file. *)
Variable RunNotebookCell : string.
Variable services : BuilderServices.

Definition isRunNotebookCell (call : IToolCall) : bool :=
  bool_decide (call_name call = RunNotebookCell).

(** The body of the [try] block of [getWorkingNotebook]. *)
Definition lookupNotebook (arguments : string) : Completion (option (option NotebookDocument)) :=
  args ← JSON_parse services arguments;
  filePath ← get_filePath args;
  match filePath with
  | Some (JString filePath) =>
      uri ← resolveFilePath services filePath;
      match uri with
      | None => Normal (Some None)
      | Some uri =>
          Normal (Some (snd <$> js_find
            (λ doc, bool_decide (uri_toString (doc_uri doc) = uri_toString uri))
            (notebookDocuments services)))
      end
  | _ => Normal None
  end.

(** [getWorkingNotebook]; [notebookToolCall] is its first two statements,
    which pick the tool call.  [lookupNotebook] answers [Some r] where the
    source executes [return r] inside the [try], and [None] where control
    falls out of the [if]; the empty [catch] turns a throw into falling
    through to the final [return undefined]. *)
Definition notebookToolCall (props : SummarizedAgentHistoryProps) : option IToolCall :=
  let toolCallRound :=
    toolCallRounds (promptContext props) ≫= λ rs,
      snd <$> js_find (λ round, js_some isRunNotebookCell (round_toolCalls round)) (reverse rs) in
  toolCallRound ≫= λ round, snd <$> js_find isRunNotebookCell (round_toolCalls round).

Definition getWorkingNotebook (props : SummarizedAgentHistoryProps)
  : Completion (option NotebookDocument) :=
  match notebookToolCall props with
  | Some toolCall =>
      if negb (bool_decide (call_arguments toolCall = "")) then
        returned ← tryCatch (lookupNotebook (call_arguments toolCall)) (λ _, Normal None);
        Normal (default None returned)
      else Normal None
  | None => Normal None
  end.

(** [getProps]. *)
Definition getProps (props : SummarizedAgentHistoryProps)
  : Completion ISummarizedConversationHistoryInfo :=
  let ctx := promptContext props in
  let fallback :=
    if bool_decide (0 < length (history ctx))%nat then
      turn ← from_option Normal (Throw TypeError) (at_m1 (history ctx));
      r ← from_option Normal (Throw TypeError) (at_m1 (rounds turn));
      Normal (Some [], Some true, round_id r)
    else Throw (Error "Nothing to summarize") in
  selection ←
    match toolCallRounds ctx with
    | Some rs =>
        if bool_decide (1 < length rs)%nat then
          let rs' := slice_0_m1 rs in
          r ← from_option Normal (Throw TypeError) (at_m1 rs');
          Normal (Some rs', isContinuation ctx, round_id r)
        else fallback
    | None => fallback
    end;
  let '(toolCallRounds', isContinuation', summarizedToolCallRoundId') := selection in
  let promptContext' :=
    {| history := history ctx;
       toolCallRounds := toolCallRounds';
       toolCallResults := toolCallResults ctx;
       isContinuation := isContinuation';
       conversation := conversation ctx |} in
  workingNotebook' ← getWorkingNotebook props;
  Normal
    {| props :=
         {| priority := priority props;
            endpoint_model := endpoint_model props;
            promptContext := promptContext';
            triggerSummarize := triggerSummarize props;
            enableCacheBreakpoints := enableCacheBreakpoints props;
            workingNotebook := workingNotebook';
            maxToolResultLength := maxToolResultLength props |};
       summarizedToolCallRoundId := summarizedToolCallRoundId' |}.
End PropsBuilder.

(** The value [getProps] builds from a selection (the pending rounds, the
    continuation flag, the covered-round id) and a notebook; used to state
    its results. *)
Definition selected (p : SummarizedAgentHistoryProps) (pending : list IToolCallRound)
    (continuation : option bool) (id : string) (notebook : option NotebookDocument)
  : ISummarizedConversationHistoryInfo :=
  {| props :=
       {| priority := priority p;
          endpoint_model := endpoint_model p;
          promptContext :=
            {| history := history (promptContext p);
               toolCallRounds := Some pending;
               toolCallResults := toolCallResults (promptContext p);
               isContinuation := continuation;
               conversation := conversation (promptContext p) |};
          triggerSummarize := triggerSummarize p;
          enableCacheBreakpoints := enableCacheBreakpoints p;
          workingNotebook := notebook;
          maxToolResultLength := maxToolResultLength p |};
     summarizedToolCallRoundId := id |}.

(** ** ConversationHistory *)

(** The children [ConversationHistory.render] emits.  Layout hints
    ([priority], [flexGrow]) are left out; everything that decides which rounds
    and which texts reach the prompt is kept. *)
Inductive PromptPiece :=
| ChatToolCalls (toolCallRounds : list IToolCallRound)
    (toolCallResults : option (gmap string string))
    (isHistorical : bool) (truncateAt : Z)
| ConversationSummary (text : string)          (* <Tag name='conversation-summary'> *)
| AgentUserMessageFromProps                    (* the in-progress user message *)
| AgentUserMessageFromTurn (turn : Turn).      (* a past turn's user message *)

(** The backward loops over rounds, on the reversed array: push every round
    until one with a truthy [summary] is met, then [break].  Returns the rounds
    in push order and the round the loop stopped at. *)
Fixpoint collectUntilSummary (reversed : list IToolCallRound)
  : list IToolCallRound * option IToolCallRound :=
  match reversed with
  | [] => ([], None)
  | round :: older =>
      if truthy (round_summary round) then ([], Some round)
      else let '(pushed, found) := collectUntilSummary older in (round :: pushed, found)
  end.

Definition jsTrue (b : option bool) : bool := default false b.

Section Render.
Variable this_props : SummarizedAgentHistoryProps.

(** One iteration of the loop over [history.entries()] reversed: the
    components of turn [i], in chronological order, and whether the loop
    breaks after them. *)
Definition renderTurn (i : nat) (turn : Turn) : list PromptPiece * bool :=
  let ctx := promptContext this_props in
  let metadata := resultMetadata turn in
  let toolCallResultInNextTurn := jsTrue (metadata ≫= maxToolCallsExceeded) in
  let isLast := bool_decide (i = (length (history ctx) - 1)%nat) in
  let toolCallResults0 := metadata ≫= meta_toolCallResults in
  let toolCallResults1 :=
    if toolCallResultInNextTurn then
      let nextMetadata := (history ctx !! (i + 1)%nat) ≫= turn_responseMetadata in
      let mergeFrom :=
        if isLast then toolCallResults ctx else nextMetadata ≫= meta_toolCallResults in
      Some (default ∅ mergeFrom ∪ default ∅ toolCallResults0)
    else toolCallResults0 in
  let '(pushed, summaryForTurn) := collectUntilSummary (reverse (rounds turn)) in
  let first :=
    match summaryForTurn with
    | Some round => ConversationSummary (default "" (round_summary round))
    | None => AgentUserMessageFromTurn turn
    end in
  ([first;
    ChatToolCalls (reverse pushed) toolCallResults1
      (negb (toolCallResultInNextTurn && isLast)) (maxToolResultLength this_props)],
   bool_decide (is_Some summaryForTurn)).

(** The loop over the reversed entries; the result is what the loop pushes
    onto [history], in push order. *)
Fixpoint renderTurns (entries : list (nat * Turn)) : list PromptPiece :=
  match entries with
  | [] => []
  | (i, turn) :: older =>
      let '(turnComponents, stop) := renderTurn i turn in
      reverse turnComponents ++ (if stop then [] else renderTurns older)
  end.

(** [ConversationHistory.render]: the children of the returned
    [PrioritizedList], in order. *)
Definition ConversationHistory_render : list PromptPiece :=
  let ctx := promptContext this_props in
  let current :=
    match toolCallRounds ctx with
    | Some rs =>
        if bool_decide (0 < length rs)%nat then
          let '(pushed, found) := collectUntilSummary (reverse rs) in
          ([ChatToolCalls (reverse pushed) (toolCallResults ctx) false
              (maxToolResultLength this_props)],
           found ≫= round_summary)
        else ([], None)
    | None => ([], None)
    end in
  let '(history0, summaryForCurrentTurn) := current in
  if truthy summaryForCurrentTurn then
    reverse (history0 ++ [ConversationSummary (default "" summaryForCurrentTurn)])
  else
    let history1 :=
      history0 ++ (if negb (jsTrue (isContinuation ctx)) then [AgentUserMessageFromProps] else []) in
    reverse (history1 ++ renderTurns (reverse (imap pair (history ctx)))).
End Render.

(** The rounds a rendered history shows verbatim, in order. *)
Definition verbatimRounds (pieces : list PromptPiece) : list IToolCallRound :=
  pieces ≫= λ piece,
    match piece with
    | ChatToolCalls rs _ _ _ => rs
    | _ => []
    end.

(** The summary texts a rendered history shows, in order. *)
Definition summaryTexts (pieces : list PromptPiece) : list string :=
  pieces ≫= λ piece,
    match piece with
    | ConversationSummary text => [text]
    | _ => []
    end.

(** Every round of the conversation, oldest first: the rounds of the past
    turns, then the rounds of the turn in progress. *)
Definition allRounds (ctx : IBuildPromptContext) : list IToolCallRound :=
  (history ctx ≫= rounds) ++ default [] (toolCallRounds ctx).

(** ** SummarizedConversationHistory *)

(** The callback [round => round.id === toolCallRoundId]. *)
Definition hasId (toolCallRoundId : string) (round : IToolCallRound) : bool :=
  bool_decide (round_id round = toolCallRoundId).

(** [addSummaryToHistory], the loop over the reversed copy of [history]: the
    first turn (newest first) holding a round with the id gets the summary on
    the first such round, and the loop breaks.  The copy shares the turn
    objects, so the result is the new content of those objects. *)
Fixpoint addSummaryToTurns (summary toolCallRoundId : string) (reversed : list Turn) : list Turn :=
  match reversed with
  | [] => []
  | turn :: older =>
      match js_find (hasId toolCallRoundId) (rounds turn) with
      | Some (i, round) => withRounds (<[i := withSummary summary round]> (rounds turn)) turn :: older
      | None => turn :: addSummaryToTurns summary toolCallRoundId older
      end
  end.

(** [addSummaryToHistory], as a function on the prompt context it mutates. *)
Definition addSummaryToHistory (summary toolCallRoundId : string) (ctx : IBuildPromptContext)
  : IBuildPromptContext :=
  match toolCallRounds ctx ≫= λ rs,
          (λ found, (rs, found)) <$> js_find (hasId toolCallRoundId) rs with
  | Some (rs, (i, round)) =>
      {| history := history ctx;
         toolCallRounds := Some (<[i := withSummary summary round]> rs);
         toolCallResults := toolCallResults ctx;
         isContinuation := isContinuation ctx;
         conversation := conversation ctx |}
  | None =>
      {| history := reverse (addSummaryToTurns summary toolCallRoundId (reverse (history ctx)));
         toolCallRounds := toolCallRounds ctx;
         toolCallResults := toolCallResults ctx;
         isContinuation := isContinuation ctx;
         conversation := conversation ctx |}
  end.

(** The inner loop of the telemetry scan, on one turn's reversed rounds:
    [count] and [numRoundsSinceLastSummarization] before and after.  The
    [break] leaves this loop only. *)
Fixpoint scanRoundsBackward (reversed : list IToolCallRound) (count n : Z) : Z * Z :=
  match reversed with
  | [] => (count, n)
  | round :: older =>
      if truthy (round_summary round) then (count, count)
      else scanRoundsBackward older (count + 1) n
  end.

(** The outer loop of the telemetry scan, on the reversed turns. *)
Fixpoint scanTurnsBackward (reversed : list Turn) (count n : Z) : Z :=
  match reversed with
  | [] => n
  | turn :: older =>
      let '(count', n') := scanRoundsBackward (reverse (rounds turn)) count n in
      scanTurnsBackward older count' n'
  end.

Definition numRoundsInCurrentTurn (ctx : IBuildPromptContext) : Z :=
  Z.of_nat (length (default [] (toolCallRounds ctx))).

Definition numRounds (ctx : IBuildPromptContext) : Z :=
  foldl Z.add 0 ((λ turn, Z.of_nat (length (rounds turn))) <$> history ctx)
  + numRoundsInCurrentTurn ctx.

Definition numRoundsSinceLastSummarization (ctx : IBuildPromptContext) : Z :=
  let reversedCurrentRounds := reverse (default [] (toolCallRounds ctx)) in
  let n := js_findIndex (λ round, truthy (round_summary round)) reversedCurrentRounds in
  if bool_decide (n = -1) then
    scanTurnsBackward (reverse (history ctx)) (numRoundsInCurrentTurn ctx) n
  else n.

(** [rounds.at(-1)?.toolCalls?.at(-1)?.name]. *)
Definition lastToolName (rs : list IToolCallRound) : option string :=
  round ← at_m1 rs;
  call ← at_m1 (round_toolCalls round);
  Some (call_name call).

Definition lastUsedTool (ctx : IBuildPromptContext) : string :=
  match toolCallRounds ctx ≫= lastToolName with
  | Some name => name
  | None =>
      default "none" (turn ← at_m1 (history ctx); lastToolName (rounds turn))
  end.

Definition isDuringToolCalling (ctx : IBuildPromptContext) : Z :=
  if bool_decide (0 < length (default [] (toolCallRounds ctx)))%nat then 1 else 0.

(** The payload of the [summarizedConversationHistory] telemetry event. *)
Record TelemetryEvent := {
  ev_outcome : string;
  ev_detailedOutcome : option string;
  ev_requestId : string;
  ev_model : string;
  ev_lastUsedTool : string;
  ev_conversationId : option string;
  ev_numRounds : Z;
  ev_numRoundsSinceLastSummarization : Z;
  ev_isDuringToolCalling : Z;
}.

Record ChatMessage := {
  msg_role : string;
  msg_content : string;
}.

(** Modelled from the spec: [ChatResponse] and [ChatFetchResponseType] are
    declared in [platform/chat/common/commonTypes], outside the sources;
    the spec gives the response types as Success, Failed and further
    non-success types that pass their type tag through. *)
Inductive ChatResponse :=
| ResponseSuccess (value requestId : string)
| ResponseFailed (requestId reason : string)
| ResponseOther (type requestId reason : string).

(** What the executor does to the outside world, in order. *)
Inductive Effect :=
| RenderPromptElement (props : SummarizedAgentHistoryProps)
| MakeChatRequest (messages : list ChatMessage)
| ProgressReport
| SendTelemetry (event : TelemetryEvent).

(** The executor's state: the props object it was constructed with (whose
    rounds [addSummaryToHistory] mutates) and the effects performed so far,
    oldest first. *)
Record World := {
  w_props : SummarizedAgentHistoryProps;
  w_effects : list Effect;
}.

(** State and exception monad of the executor's methods. *)
Definition M (A : Type) : Type := World → Completion A * World.

#[global] Instance M_ret : MRet M := λ _ a w, (Normal a, w).
#[global] Instance M_bind : MBind M := λ _ _ f m w,
  match m w with
  | (Normal a, w') => f a w'
  | (Throw e, w') => (Throw e, w')
  end.

Definition throw {A} (e : Exn) : M A := λ w, (Throw e, w).

Definition lift {A} (c : Completion A) : M A := λ w, (c, w).

Definition try_catch {A} (m : M A) (handler : Exn → M A) : M A := λ w,
  match m w with
  | (Normal a, w') => (Normal a, w')
  | (Throw e, w') => handler e w'
  end.

Definition getThisProps : M SummarizedAgentHistoryProps := λ w, (Normal (w_props w), w).

Definition perform (effect : Effect) : M unit := λ w,
  (Normal (), {| w_props := w_props w; w_effects := w_effects w ++ [effect] |}).

Definition withPromptContext (ctx : IBuildPromptContext) (p : SummarizedAgentHistoryProps)
  : SummarizedAgentHistoryProps :=
  {| priority := priority p;
     endpoint_model := endpoint_model p;
     promptContext := ctx;
     triggerSummarize := triggerSummarize p;
     enableCacheBreakpoints := enableCacheBreakpoints p;
     workingNotebook := workingNotebook p;
     maxToolResultLength := maxToolResultLength p |}.

Definition mutatePromptContext (f : IBuildPromptContext → IBuildPromptContext) : M unit := λ w,
  (Normal (),
   {| w_props := withPromptContext (f (promptContext (w_props w))) (w_props w);
      w_effects := w_effects w |}).

(** [sendSummarizationTelemetry]. *)
Definition sendSummarizationTelemetry (outcome requestId model : string)
    (detailedOutcome : option string) : M unit :=
  this_props ← getThisProps;
  let ctx := promptContext this_props in
  perform (SendTelemetry
    {| ev_outcome := outcome;
       ev_detailedOutcome := detailedOutcome;
       ev_requestId := requestId;
       ev_model := model;
       ev_lastUsedTool := lastUsedTool ctx;
       ev_conversationId := conversation ctx;
       ev_numRounds := numRounds ctx;
       ev_numRoundsSinceLastSummarization := numRoundsSinceLastSummarization ctx;
       ev_isDuringToolCalling := isDuringToolCalling ctx |}).

(** The executor's collaborators.  [renderPromptElement] renders the
    summarization prompt.  [stripInternalToolCallIds] stands for the
    evaluation of the arguments of the request
    ([ToolCallingLoop.stripInternalToolCallIds] on the messages, and
    [normalizeToolSchema] on the tools), which can throw before the endpoint
    is called.  [makeChatRequest] is the endpoint: the call either throws at
    once or returns a promise, given by the completion it settles with. *)
Record ExecutorServices := {
  renderPromptElement : SummarizedAgentHistoryProps → Completion (list ChatMessage);
  stripInternalToolCallIds : list ChatMessage → Completion (list ChatMessage);
  makeChatRequest : list ChatMessage → Completion (Completion ChatResponse);
}.

(** [PromptSizing].  [countTokens] returns a promise, given by the completion
    it settles with. *)
Record PromptSizing := {
  countTokens : string → Completion Z;
  tokenBudget : Z;
}.

(** What [summarizeHistory] resolves to. *)
Record SummarizationResult := {
  res_summary : string;
  res_toolCallRoundId : string;
}.

Section Executor.
Variable RunNotebookCell : string.
Variable builderServices : BuilderServices.
Variable services : ExecutorServices.

(** [summarizeHistory].  The request is issued with temperature 0, no
    streaming and [tool_choice: 'none']; the tool schemas sent along and the
    cancellation token are left out.  [progress] tells whether a progress
    sink was passed; the sink is told of the request once the endpoint has
    returned the promise, before the promise is awaited, and its [report] is
    taken to return.  The token count of the summary is awaited outside the
    two [try] blocks. *)
Definition summarizeHistory (sizing : PromptSizing) (progress : bool)
  : M (option SummarizationResult) :=
  this_props ← getThisProps;
  propsInfo ← lift (getProps RunNotebookCell builderServices this_props);
  summarizationPrompt ←
    try_catch
      (perform (RenderPromptElement (props propsInfo));;
       lift (renderPromptElement services (props propsInfo)))
      (λ e,
        let budgetExceeded := match e with BudgetExceededError => true | _ => false end in
        let outcome := if budgetExceeded then "budget_exceeded" else "renderError" in
        sendSummarizationTelemetry outcome "" (endpoint_model this_props) None;;
        throw e);
  summary ←
    try_catch
      (messages ← lift (stripInternalToolCallIds services summarizationPrompt);
       perform (MakeChatRequest messages);;
       summaryPromise ← lift (makeChatRequest services messages);
       (if progress then perform ProgressReport else mret ());;
       lift summaryPromise)
      (λ e,
        sendSummarizationTelemetry "requestThrow" "" (endpoint_model this_props) None;;
        throw e);
  match summary with
  | ResponseFailed requestId reason =>
      sendSummarizationTelemetry "failed" requestId (endpoint_model this_props) (Some reason);;
      throw (Error "Summarization failed")
  | ResponseOther type requestId reason =>
      sendSummarizationTelemetry type requestId (endpoint_model this_props) (Some reason);;
      throw (Error "Summarization failed")
  | ResponseSuccess value requestId =>
      tokens ← lift (countTokens sizing value);
      if bool_decide (tokens > tokenBudget sizing) then
        sendSummarizationTelemetry "too_large" requestId (endpoint_model this_props) None;;
        throw (Error "Summary too large")
      else
        sendSummarizationTelemetry "success" requestId (endpoint_model this_props) None;;
        mutatePromptContext (addSummaryToHistory value (summarizedToolCallRoundId propsInfo));;
        mret (Some {| res_summary := value;
                      res_toolCallRoundId := summarizedToolCallRoundId propsInfo |})
  end.

(** [SummarizedConversationHistoryMetadata]. *)
Record SummarizedConversationHistoryMetadata := {
  meta_toolCallRoundId : string;
  meta_text : string;
}.

(** [SummarizedConversationHistory.render]: the metadata child, if any, and
    the children of the nested [ConversationHistory].  The shallow copy of
    the prompt context taken on entry shares its arrays and rounds with
    [this.props], so the nested element sees the summary just installed. *)
Definition SummarizedConversationHistory_render (sizing : PromptSizing) (progress : bool)
  : M (option SummarizedConversationHistoryMetadata * list PromptPiece) :=
  this_props ← getThisProps;
  historyMetadata ←
    (if jsTrue (triggerSummarize this_props) then
       summarizationResult ← summarizeHistory sizing progress;
       mret ((λ r, {| meta_toolCallRoundId := res_toolCallRoundId r;
                      meta_text := res_summary r |}) <$> summarizationResult)
     else mret None);
  shared ← getThisProps;
  mret (historyMetadata, ConversationHistory_render shared).
End Executor.

(** ** Measures used to state the properties *)

Definition isChatRequest (effect : Effect) : bool :=
  match effect with
  | MakeChatRequest _ => true
  | _ => false
  end.

(** How often the completion endpoint was invoked. *)
Definition chatRequestCount (effects : list Effect) : nat :=
  length (filter (λ e, isChatRequest e = true) effects).

(** The telemetry events sent, oldest first. *)
Definition telemetrySent (effects : list Effect) : list TelemetryEvent :=
  effects ≫= λ effect,
    match effect with
    | SendTelemetry event => [event]
    | _ => []
    end.

(** The event [sendSummarizationTelemetry] sends in context [ctx]. *)
Definition telemetryEvent (ctx : IBuildPromptContext) (outcome requestId model : string)
    (detailedOutcome : option string) : TelemetryEvent :=
  {| ev_outcome := outcome;
     ev_detailedOutcome := detailedOutcome;
     ev_requestId := requestId;
     ev_model := model;
     ev_lastUsedTool := lastUsedTool ctx;
     ev_conversationId := conversation ctx;
     ev_numRounds := numRounds ctx;
     ev_numRoundsSinceLastSummarization := numRoundsSinceLastSummarization ctx;
     ev_isDuringToolCalling := isDuringToolCalling ctx |}.



(** The summary text shown for the round a backward scan stopped at. *)
Definition foundText (found : option IToolCallRound) : list string :=
  match found with
  | Some round => [default "" (round_summary round)]
  | None => []
  end.

(** A round with another id than [toolCallRoundId]. *)
Definition otherId (toolCallRoundId : string) (round : IToolCallRound) : Prop :=
  round_id round ≠ toolCallRoundId.

(** A round carries a summary when its [summary] is truthy. *)
Definition summarized (round : IToolCallRound) : bool := truthy (round_summary round).

(** The measurement as the telemetry comment words it ('the number of tool
    call rounds since the last summarization'): scanning backward from the
    newest round, the number of rounds skipped before the first one that
    carries a summary; none when no round does. *)
Fixpoint roundsSkippedBackward (reversed : list IToolCallRound) : option nat :=
  match reversed with
  | [] => None
  | round :: older =>
      if summarized round then Some 0%nat else S <$> roundsSkippedBackward older
  end.

Definition roundsSinceLastSummary (ctx : IBuildPromptContext) : option nat :=
  roundsSkippedBackward (reverse (allRounds ctx)).

(** ** Sample data *)

Definition plainRound (id : string) : IToolCallRound :=
  {| round_id := id; round_response := ""; round_toolCalls := []; round_summary := None |}.

Definition summarizedRound (id summary : string) : IToolCallRound :=
  withSummary summary (plainRound id).

Definition plainTurn (id : string) (rs : list IToolCallRound) : Turn :=
  {| turn_id := id; rounds := rs; resultMetadata := None; turn_responseMetadata := None |}.

Definition sampleContext (turns : list Turn) (pending : option (list IToolCallRound))
  : IBuildPromptContext :=
  {| history := turns;
     toolCallRounds := pending;
     toolCallResults := None;
     isContinuation := None;
     conversation := Some "session-1" |}.

Definition sampleProps (ctx : IBuildPromptContext) : SummarizedAgentHistoryProps :=
  {| priority := 900;
     endpoint_model := "gpt-4.1";
     promptContext := ctx;
     triggerSummarize := Some true;
     enableCacheBreakpoints := None;
     workingNotebook := None;
     maxToolResultLength := 2000 |}.

(** A workspace with no notebook open, and a [JSON.parse] that rejects
    everything. *)
Definition noNotebooks : BuilderServices :=
  {| JSON_parse := λ _, Throw (Error "Unexpected token");
     resolveFilePath := λ _, Normal None;
     notebookDocuments := [] |}.

Definition run_notebook_cell : string := "run_notebook_cell".


(** Three pending rounds, no history. *)
Definition threePending : SummarizedAgentHistoryProps :=
  sampleProps (sampleContext [] (Some [plainRound "p1"; plainRound "p2"; plainRound "p3"])).

(** One past turn with one round, nothing pending. *)
Definition oneTurn : SummarizedAgentHistoryProps :=
  sampleProps (sampleContext [plainTurn "t1" [plainRound "r1"]] (Some [])).

(** One past turn without rounds, nothing pending. *)
Definition emptyTurn : SummarizedAgentHistoryProps :=
  sampleProps (sampleContext [plainTurn "t1" []] None).

(** No history, nothing pending. *)
Definition emptyConversation : SummarizedAgentHistoryProps :=
  sampleProps (sampleContext [] None).

Definition doubleQuote : string := String (Ascii.ascii_of_nat 34) EmptyString.

(** The JSON text of an object whose [filePath] is [/w/nb.ipynb]. *)
Definition notebookArguments : string :=
  "{" +:+ doubleQuote +:+ "filePath" +:+ doubleQuote +:+ ":"
      +:+ doubleQuote +:+ "/w/nb.ipynb" +:+ doubleQuote +:+ "}".

Definition notebookCall : IToolCall :=
  {| call_name := run_notebook_cell; call_arguments := notebookArguments; call_id := "call-1" |}.

Definition notebookRound (id : string) : IToolCallRound :=
  {| round_id := id; round_response := ""; round_toolCalls := [notebookCall];
     round_summary := None |}.

Definition openNotebook : NotebookDocument :=
  {| doc_uri := {| uri_toString := "file:///w/nb.ipynb" |}; notebookType := "jupyter-notebook" |}.

(** A workspace with [openNotebook] open; [JSON.parse] knows
    [notebookArguments] and rejects everything else. *)
Definition oneNotebook : BuilderServices :=
  {| JSON_parse := λ text,
       if bool_decide (text = notebookArguments)
       then Normal (JObject [("filePath", JString "/w/nb.ipynb")])
       else Throw (Error "Unexpected token");
     resolveFilePath := λ path, Normal (Some {| uri_toString := "file://" +:+ path |});
     notebookDocuments := [openNotebook] |}.

(** Two pending rounds; only the last one, which selection drops, ran a
    notebook cell. *)
Definition notebookInLastRound : SummarizedAgentHistoryProps :=
  sampleProps (sampleContext [] (Some [plainRound "p1"; notebookRound "p2"])).

(** A renderer that yields one message, an endpoint that answers every
    request with the text [S1], and a sizing under which [S1] fits. *)
Definition answersS1 : ExecutorServices :=
  {| renderPromptElement := λ _, Normal [{| msg_role := "user"; msg_content := "history" |}];
     stripInternalToolCallIds := λ messages, Normal messages;
     makeChatRequest := λ _, Normal (Normal (ResponseSuccess "S1" "req-1")) |}.

Definition roomy : PromptSizing :=
  {| countTokens := λ text, Normal (Z.of_nat (String.length text)); tokenBudget := 100 |}.

(** A sizing under which [S1] does not fit. *)
Definition tight : PromptSizing :=
  {| countTokens := λ text, Normal (Z.of_nat (String.length text)); tokenBudget := 1 |}.

(** A sizing whose token count fails. *)
Definition uncountable : PromptSizing :=
  {| countTokens := λ _, Throw (Error "tokenizer unavailable"); tokenBudget := 100 |}.

(** As [answersS1], with an endpoint that throws when it is called. *)
Definition throwsAtOnce : ExecutorServices :=
  {| renderPromptElement := λ _, Normal [{| msg_role := "user"; msg_content := "history" |}];
     stripInternalToolCallIds := λ messages, Normal messages;
     makeChatRequest := λ _, Throw (Error "no endpoint") |}.

Definition freshWorld (p : SummarizedAgentHistoryProps) : World :=
  {| w_props := p; w_effects := [] |}.

(** One past turn [r1, r2] and three pending rounds. *)
Definition midTurn : SummarizedAgentHistoryProps :=
  sampleProps
    (sampleContext [plainTurn "t1" [plainRound "r1"; plainRound "r2"]]
       (Some [plainRound "p1"; plainRound "p2"; plainRound "p3"])).

(** Two past turns, each with a summarized round followed by a plain one;
    nothing pending. *)
Definition twoSummarizedTurns : IBuildPromptContext :=
  sampleContext
    [plainTurn "t1" [summarizedRound "a" "s1"; plainRound "a2"];
     plainTurn "t2" [summarizedRound "b" "s2"; plainRound "c"]]
    None.

(** One past turn whose second round already carries a summary. *)
Definition laterSummary : SummarizedAgentHistoryProps :=
  sampleProps
    (sampleContext [plainTurn "t1" [plainRound "r1"; summarizedRound "r2" "old"]] None).

(** One past turn [r1] and two pending rounds. *)
Definition twoPending : SummarizedAgentHistoryProps :=
  sampleProps
    (sampleContext [plainTurn "t1" [plainRound "r1"]]
       (Some [plainRound "p1"; plainRound "p2"])).


(** The past turns whose user message a rendered history shows, in order. *)
Definition userTurns (pieces : list PromptPiece) : list Turn :=
  pieces ≫= λ piece,
    match piece with
    | AgentUserMessageFromTurn turn => [turn]
    | _ => []
    end.

(** ** ConversationHistorySummarizationPrompt *)

(** The children of the [PrioritizedList] in the summarization prompt.  The
    fixed instruction texts are not spelled out. *)
Inductive SummarizationPromptChild :=
| HistoryToSummarize (priority : Z) (children : list PromptPiece)
| WorkingNotebookSummary (priority : Z) (notebook : NotebookDocument)
| SummarizeRequest.

(** What [ConversationHistorySummarizationPrompt.render] returns: a system
    message with the instructions, then a list of the history, the working
    notebook if there is one, and the user message asking for the summary.
    The nested [ConversationHistory] is given priority 1 and, of the props, the
    prompt context and the truncation length, the two its children depend
    on. *)
Record SummarizationPrompt := {
  instructionsPriority : Z;
  listPriority : Z;
  listChildren : list SummarizationPromptChild;
}.

Definition ConversationHistorySummarizationPrompt_render (p : SummarizedAgentHistoryProps)
  : SummarizationPrompt :=
  {| instructionsPriority := priority p;
     listPriority := priority p - 1;
     listChildren :=
       [HistoryToSummarize 1 (ConversationHistory_render p)]
       ++ match workingNotebook p with
          | Some notebook => [WorkingNotebookSummary (priority p - 2) notebook]
          | None => []
          end
       ++ [SummarizeRequest] |}.

(** Two past turns, [r1, r2, r3] with a summary on [r2] and [r4], and one
    pending round. *)
Definition oneSummarizedTurn : IBuildPromptContext :=
  sampleContext
    [plainTurn "t1" [plainRound "r1"; summarizedRound "r2" "s"; plainRound "r3"];
     plainTurn "t2" [plainRound "r4"]]
    (Some [plainRound "p1"]).

(** One past turn and three pending rounds, the first of which carries a
    summary. *)
Definition summaryPending : IBuildPromptContext :=
  sampleContext [plainTurn "t1" [plainRound "r1"]]
    (Some [summarizedRound "p1" "s"; plainRound "p2"; plainRound "p3"]).

(** As [twoPending], but the last pending round ran a notebook cell. *)
Definition twoPendingNotebook : SummarizedAgentHistoryProps :=
  sampleProps
    (sampleContext [plainTurn "t1" [plainRound "r1"]]
       (Some [plainRound "p1"; notebookRound "p2"])).


(** ** ChatSession and SessionManager

    Sources: [chatSession.ts] and [sessionManager.ts].  A [Map] is an
    association list in insertion order with one entry per key; a finite
    number is a fraction; the request, a turn of the chat history and the chat
    result are kept as texts; the response stream, the cancellation token and the pause
    event are passed through unread and left out.  A [ChatSession] is a value:
    the only field that changes is [_disposed], and the manager drops a session
    from its map in the same step in which it disposes it. *)

(** [map.get(key)]. *)
Fixpoint Map_get {V} (key : string) (map : list (string * V)) : option V :=
  match map with
  | [] => None
  | (k, v) :: rest => if bool_decide (k = key) then Some v else Map_get key rest
  end.

(** [map.set(key, value)]: an existing key keeps its place. *)
Fixpoint Map_set {V} (key : string) (value : V) (map : list (string * V))
  : list (string * V) :=
  match map with
  | [] => [(key, value)]
  | (k, v) :: rest =>
      if bool_decide (k = key) then (key, value) :: rest else (k, v) :: Map_set key value rest
  end.

(** [map.delete(key)]. *)
Definition Map_delete {V} (key : string) (map : list (string * V)) : list (string * V) :=
  filter (λ entry, entry.1 ≠ key) map.

Module ChatSession.

Record IChatAgentArgs := {
  agentName : string;
  agentId : string;
  intentId : string;
}.

(** [IChatSessionContext]. *)
Record IChatSessionContext := {
  sessionId : string;
  history : list string;
  chatAgentArgs : IChatAgentArgs;
}.

(** The state of a [ChatSession] object. *)
Record t := {
  _sessionId : string;
  _context : IChatSessionContext;
  _disposed : bool;
}.

(** [IChatSessionStats]; [createdAt] is the reading of the clock. *)
Record IChatSessionStats := {
  stats_sessionId : string;
  createdAt : Z;
  requestCount : Z;
  isActive : bool;
}.

Inductive LogLevel := Trace | Debug | Failure.

(** What sessions and their manager do to the outside world: a line sent to
    the logger (at level [Failure] for [logger.error], with the error passed
    along), and the creation and start of a [ChatParticipantRequestHandler]. *)
Inductive Effect :=
| Logged (level : LogLevel) (message : string) (error : option Exn)
| HandlerRun (history : list string) (request : string) (args : IChatAgentArgs).

(** The handler starts among some effects, in order. *)
Definition handlerRuns (effects : list Effect) : list Effect :=
  effects ≫= λ effect,
    match effect with
    | HandlerRun _ _ _ => [effect]
    | Logged _ _ _ => []
    end.

(** The constructor; its [options] argument is not used. *)
Definition new (sessionId : string) (context : IChatSessionContext) : t :=
  {| _sessionId := sessionId; _context := context; _disposed := false |}.

(** [execute].  The request handler is taken to be created without an
    exception; [getResult] stands for awaiting its [getResult()]. *)
Definition execute
    (getResult : list string → string → IChatAgentArgs → Completion string)
    (this : t) (request : string) : Completion string * list Effect :=
  if _disposed this then (Throw (Error "ChatSession has been disposed"), [])
  else
    let handler := HandlerRun (history (_context this)) request (chatAgentArgs (_context this)) in
    match getResult (history (_context this)) request (chatAgentArgs (_context this)) with
    | Normal result => (Normal result, [handler])
    | Throw error =>
        (Throw error,
         [handler;
          Logged Failure ("ChatSession " +:+ _sessionId this +:+ " execution failed:")
            (Some error)])
    end.

(** [canHandle]. *)
Definition canHandle (this : t) (request : string) : bool := negb (_disposed this).

(** [getStats]; [now] is what [new Date()] reads. *)
Definition getStats (now : Z) (this : t) : IChatSessionStats :=
  {| stats_sessionId := _sessionId this;
     createdAt := now;
     requestCount := 0;
     isActive := negb (_disposed this) |}.

(** [dispose]. *)
Definition dispose (this : t) : t :=
  if _disposed this then this
  else {| _sessionId := _sessionId this; _context := _context this; _disposed := true |}.

End ChatSession.

Module SessionManager.

(** A property of an options object: left out, or present, possibly with the
    value [undefined]. *)
Inductive OptionalProperty (A : Type) :=
| Absent
| Present (value : option A).
Arguments Absent {A}.
Arguments Present {A} value.

(** A JavaScript number; a finite one is given as a fraction. *)
Inductive JsNumber :=
| Finite (q : Q)
| NaN
| Infinity
| NegInfinity.

(** [size >= limit], for the size of a map. *)
Definition atLeast (size : nat) (limit : JsNumber) : bool :=
  match limit with
  | Finite q => Qle_bool q (inject_Z (Z.of_nat size))
  | NaN | Infinity => false
  | NegInfinity => true
  end.

(** [ISessionManagerOptions], as passed to the constructor. *)
Record ISessionManagerOptions := {
  maxConcurrentSessions : OptionalProperty JsNumber;
  sessionTimeout : OptionalProperty JsNumber;
  enableSessionReuse : OptionalProperty bool;
}.

(** [{ ...defaults, ...options }] for one property. *)
Definition spreadOver {A} (default : A) (property : OptionalProperty A) : option A :=
  match property with
  | Absent => Some default
  | Present value => value
  end.

(** The merged [_options]; [None] is [undefined]. *)
Record Options := {
  max_sessions : option JsNumber;
  timeout : option JsNumber;
  reuse : option bool;
}.

(** [ISessionManagerStats]. *)
Record ISessionManagerStats := {
  totalSessions : Z;
  activeSessions : Z;
  completedSessions : Z;
  failedSessions : Z;
}.

(** The state of a [SessionManager] object. *)
Record t := {
  _options : Options;
  _sessions : list (string * ChatSession.t);
  _totalSessions : Z;
  _completedSessions : Z;
  _failedSessions : Z;
}.

(** The manager and what it has done so far, oldest first. *)
Record World := {
  manager : t;
  effects : list ChatSession.Effect;
}.

Definition M (A : Type) : Type := World → Completion A * World.

#[export] Instance M_ret : MRet M := λ _ a w, (Normal a, w).
#[export] Instance M_bind : MBind M := λ _ _ f m w,
  match m w with
  | (Normal a, w') => f a w'
  | (Throw e, w') => (Throw e, w')
  end.

Definition throw {A} (e : Exn) : M A := λ w, (Throw e, w).

Definition this : M t := λ w, (Normal (manager w), w).

Definition update (f : t → t) : M unit := λ w,
  (Normal (), {| manager := f (manager w); effects := effects w |}).

Definition perform (new : list ChatSession.Effect) : M unit := λ w,
  (Normal (), {| manager := manager w; effects := effects w ++ new |}).

Definition log (level : ChatSession.LogLevel) (message : string) (error : option Exn) : M unit :=
  perform [ChatSession.Logged level message error].

(** [try { body } catch (error) { handler error }]. *)
Definition try_catch {A} (body : M A) (handler : Exn → M A) : M A := λ w,
  match body w with
  | (Normal a, w') => (Normal a, w')
  | (Throw e, w') => handler e w'
  end.

(** [try { body } finally { finalizer }], for a finalizer that returns
    normally. *)
Definition try_finally {A} (body : M A) (finalizer : M unit) : M A := λ w,
  let '(completion, w') := body w in
  match finalizer w' with
  | (Normal _, w'') => (completion, w'')
  | (Throw e, w'') => (Throw e, w'')
  end.

Definition withSessions (sessions : list (string * ChatSession.t)) (m : t) : t :=
  {| _options := _options m;
     _sessions := sessions;
     _totalSessions := _totalSessions m;
     _completedSessions := _completedSessions m;
     _failedSessions := _failedSessions m |}.

Definition countSession (m : t) : t :=
  {| _options := _options m;
     _sessions := _sessions m;
     _totalSessions := _totalSessions m + 1;
     _completedSessions := _completedSessions m;
     _failedSessions := _failedSessions m |}.

Definition countCompleted (m : t) : t :=
  {| _options := _options m;
     _sessions := _sessions m;
     _totalSessions := _totalSessions m;
     _completedSessions := _completedSessions m + 1;
     _failedSessions := _failedSessions m |}.

Definition countFailed (m : t) : t :=
  {| _options := _options m;
     _sessions := _sessions m;
     _totalSessions := _totalSessions m;
     _completedSessions := _completedSessions m;
     _failedSessions := _failedSessions m + 1 |}.

(** A template literal's rendering of a boolean that may be [undefined]. *)
Definition showBoolean (b : option bool) : string :=
  from_option (λ b : bool, if b then "true" else "false") "undefined" b.

(** [{ ...defaults, ...options }]. *)
Definition mergeOptions (options : ISessionManagerOptions) : Options :=
  {| max_sessions := spreadOver (Finite 10) (maxConcurrentSessions options);
     timeout := spreadOver (Finite 300000) (sessionTimeout options);
     reuse := spreadOver false (enableSessionReuse options) |}.

Section Manager.
(** [Number.prototype.toString] on the finite numbers that are not whole. *)
Variable Number_toString : Q → string.

(** A template literal's rendering of a number that may be [undefined].  A
    whole number is written in decimal digits, as JavaScript does below
    1e21. *)
Definition showNumber (n : option JsNumber) : string :=
  match n with
  | None => "undefined"
  | Some (Finite q) =>
      if bool_decide (Qden (Qred q) = 1%positive) then pretty (Qnum (Qred q))
      else Number_toString q
  | Some NaN => "NaN"
  | Some Infinity => "Infinity"
  | Some NegInfinity => "-Infinity"
  end.

(** The constructor: the manager and the line it logs. *)
Definition new (options : ISessionManagerOptions) : World :=
  let merged := mergeOptions options in
  {| manager :=
       {| _options := merged;
          _sessions := [];
          _totalSessions := 0;
          _completedSessions := 0;
          _failedSessions := 0 |};
     effects :=
       [ChatSession.Logged ChatSession.Debug
          ("SessionManager initialized with maxConcurrentSessions: "
           +:+ showNumber (max_sessions merged)
           +:+ ", sessionTimeout: " +:+ showNumber (timeout merged)
           +:+ ", enableSessionReuse: " +:+ showBoolean (reuse merged))
          None] |}.

(** [generateSessionId]; [uuid] is what [generateUuid()] returns. *)
Definition generateSessionId (uuid : string) : string := "session-" +:+ uuid.

(** [this._sessions.size >= this._options.maxConcurrentSessions!]: a
    comparison with [undefined] is false. *)
Definition limitReached (m : t) : bool :=
  match max_sessions (_options m) with
  | Some limit => atLeast (length (_sessions m)) limit
  | None => false
  end.

(** [createSession]. *)
Definition createSession (sessionId : string) (context : ChatSession.IChatSessionContext)
  : M ChatSession.t :=
  m ← this;
  if limitReached m then
    throw (Error ("Maximum concurrent sessions limit reached ("
                  +:+ showNumber (max_sessions (_options m)) +:+ ")"))
  else
    let session := ChatSession.new sessionId context in
    update (λ m, withSessions (Map_set sessionId session (_sessions m)) m);;
    update countSession;;
    log ChatSession.Debug ("SessionManager: Created session " +:+ sessionId) None;;
    mret session.

(** [getSession]. *)
Definition getSession (sessionId : string) (m : t) : option ChatSession.t :=
  Map_get sessionId (_sessions m).

(** [cleanupSession]. *)
Definition cleanupSession (sessionId : string) : M unit :=
  m ← this;
  match Map_get sessionId (_sessions m) with
  | Some session =>
      update (λ m, withSessions (Map_set sessionId (ChatSession.dispose session) (_sessions m)) m);;
      update (λ m, withSessions (Map_delete sessionId (_sessions m)) m);;
      log ChatSession.Debug ("SessionManager: Cleaned up session " +:+ sessionId) None
  | None => mret ()
  end.

Section Handlers.
Variable getResult :
  list string → string → ChatSession.IChatAgentArgs → Completion string.

(** [session.execute(...)] from inside the manager. *)
Definition execute (session : ChatSession.t) (request : string) : M string := λ w,
  let '(completion, new) := ChatSession.execute getResult session request in
  (completion, {| manager := manager w; effects := effects w ++ new |}).

(** [handleRequest], run from the call to the settling of its promise when
    nothing else is done to the manager while it awaits the session; the run
    in general is [handleRequest_begin] and, later, [handleRequest_settle]. *)
Definition handleRequest (uuid request : string) (history : list string)
    (chatAgentArgs : ChatSession.IChatAgentArgs) : M string :=
  let sessionId := generateSessionId uuid in
  let context :=
    {| ChatSession.sessionId := sessionId;
       ChatSession.history := history;
       ChatSession.chatAgentArgs := chatAgentArgs |} in
  session ← createSession sessionId context;
  try_finally
    (try_catch
       (log ChatSession.Trace ("SessionManager: Executing request in session " +:+ sessionId)
          None;;
        result ← execute session request;
        update countCompleted;;
        log ChatSession.Trace ("SessionManager: Session " +:+ sessionId
                               +:+ " completed successfully") None;;
        mret result)
       (λ error,
         update countFailed;;
         log ChatSession.Failure ("SessionManager: Session " +:+ sessionId +:+ " failed")
           (Some error);;
         throw error))
    (cleanupSession sessionId).
End Handlers.

(** [handleRequest] up to the [await]: the session is created, the request
    handler is started, and control returns to the event loop.  Answers the
    session id. *)
Definition handleRequest_begin (uuid request : string) (history : list string)
    (chatAgentArgs : ChatSession.IChatAgentArgs) : M string :=
  let sessionId := generateSessionId uuid in
  let context :=
    {| ChatSession.sessionId := sessionId;
       ChatSession.history := history;
       ChatSession.chatAgentArgs := chatAgentArgs |} in
  session ← createSession sessionId context;
  log ChatSession.Trace ("SessionManager: Executing request in session " +:+ sessionId) None;;
  perform [ChatSession.HandlerRun history request chatAgentArgs];;
  mret sessionId.

(** [handleRequest] from the [await] on, once the handler's promise has
    settled with [outcome]. *)
Definition handleRequest_settle (sessionId : string) (outcome : Completion string) : M string :=
  try_finally
    (try_catch
       (result ←
          match outcome with
          | Normal result => mret result
          | Throw error =>
              log ChatSession.Failure ("ChatSession " +:+ sessionId +:+ " execution failed:")
                (Some error);;
              throw error
          end;
        update countCompleted;;
        log ChatSession.Trace ("SessionManager: Session " +:+ sessionId
                               +:+ " completed successfully") None;;
        mret result)
       (λ error,
         update countFailed;;
         log ChatSession.Failure ("SessionManager: Session " +:+ sessionId +:+ " failed")
           (Some error);;
         throw error))
    (cleanupSession sessionId).

(** What [handleRequest] logs from the [await] on, before the clean-up. *)
Definition settleLines (sessionId : string) (outcome : Completion string)
  : list ChatSession.Effect :=
  match outcome with
  | Normal _ =>
      [ChatSession.Logged ChatSession.Trace
         ("SessionManager: Session " +:+ sessionId +:+ " completed successfully") None]
  | Throw error =>
      [ChatSession.Logged ChatSession.Failure
         ("ChatSession " +:+ sessionId +:+ " execution failed:") (Some error);
       ChatSession.Logged ChatSession.Failure
         ("SessionManager: Session " +:+ sessionId +:+ " failed") (Some error)]
  end.

(** What [cleanupSession] logs. *)
Definition cleanupLines (sessionId : string) (sessions : list (string * ChatSession.t))
  : list ChatSession.Effect :=
  match Map_get sessionId sessions with
  | Some _ =>
      [ChatSession.Logged ChatSession.Debug
         ("SessionManager: Cleaned up session " +:+ sessionId) None]
  | None => []
  end.

(** The counter a settled request moves. *)
Definition countOutcome (outcome : Completion string) : t → t :=
  match outcome with
  | Normal _ => countCompleted
  | Throw _ => countFailed
  end.


(** [getStats]. *)
Definition getStats (m : t) : ISessionManagerStats :=
  {| totalSessions := _totalSessions m;
     activeSessions := Z.of_nat (length (_sessions m));
     completedSessions := _completedSessions m;
     failedSessions := _failedSessions m |}.

(** The loop of [dispose] over the keys of the map.  Deleting the entry
    being visited does not disturb the iteration of a [Map], so the loop
    visits the keys the map holds when it starts. *)
Fixpoint cleanupSessions (sessionIds : list string) : M unit :=
  match sessionIds with
  | [] => mret ()
  | sessionId :: rest => cleanupSession sessionId;; cleanupSessions rest
  end.

(** [dispose].  Nothing is ever added to [_disposables], so disposing of it
    does nothing. *)
Definition dispose : M unit :=
  log ChatSession.Debug "SessionManager: Disposing" None;;
  m ← this;
  cleanupSessions (fst <$> _sessions m).

(** The manager between turns of the event loop, together with the ids of
    the sessions whose requests have begun and not settled, newest first.  One
    step is the start of a request (accepted or rejected at the limit), the
    settling of a request that has begun, or a call to [dispose]. *)
Inductive step : World * list string → World * list string → Prop :=
| step_begin uuid request history chatAgentArgs w w' sessionId pending :
    handleRequest_begin uuid request history chatAgentArgs w = (Normal sessionId, w') →
    step (w, pending) (w', sessionId :: pending)
| step_rejected uuid request history chatAgentArgs w w' e pending :
    handleRequest_begin uuid request history chatAgentArgs w = (Throw e, w') →
    step (w, pending) (w', pending)
| step_settle sessionId outcome w w' completion pending1 pending2 :
    handleRequest_settle sessionId outcome w = (completion, w') →
    step (w, pending1 ++ sessionId :: pending2) (w', pending1 ++ pending2)
| step_dispose w w' completion pending :
    dispose w = (completion, w') →
    step (w, pending) (w', pending).
End Manager.

End SessionManager.

(** The books of a manager between turns of the event loop, for the ids
    [pending] of the requests that have begun and not settled: the options are
    the constructor's, the map has one entry per id, every id in it belongs to
    a pending request, no session in it is disposed and each is filed under its
    own id, every session counted is completed, failed or pending, and the map
    is no larger than the limit rounded up to a whole number. *)
Definition consistent (options : SessionManager.ISessionManagerOptions)
    (state : SessionManager.World * list string) : Prop :=
  let m := SessionManager.manager state.1 in
  SessionManager._options m = SessionManager.mergeOptions options
  ∧ NoDup (SessionManager._sessions m).*1
  ∧ (∀ sessionId, sessionId ∈ (SessionManager._sessions m).*1 → sessionId ∈ state.2)
  ∧ Forall (λ entry, ChatSession._disposed entry.2 = false
                     ∧ ChatSession._sessionId entry.2 = entry.1)
      (SessionManager._sessions m)
  ∧ (SessionManager._totalSessions m
     = SessionManager._completedSessions m + SessionManager._failedSessions m
       + Z.of_nat (length state.2))%Z
  ∧ (∀ limit,
       SessionManager.max_sessions (SessionManager._options m)
       = Some (SessionManager.Finite limit) →
       (Z.of_nat (length (SessionManager._sessions m)) ≤ Z.max 0 (Qceiling limit))%Z)
  ∧ (SessionManager.max_sessions (SessionManager._options m)
     = Some SessionManager.NegInfinity →
     SessionManager._sessions m = []).

(** Sample managers. *)
Definition defaultOptions : SessionManager.ISessionManagerOptions :=
  {| SessionManager.maxConcurrentSessions := SessionManager.Absent;
     SessionManager.sessionTimeout := SessionManager.Absent;
     SessionManager.enableSessionReuse := SessionManager.Absent |}.

Definition oneAtATime : SessionManager.ISessionManagerOptions :=
  {| SessionManager.maxConcurrentSessions :=
       SessionManager.Present (Some (SessionManager.Finite 1));
     SessionManager.sessionTimeout := SessionManager.Absent;
     SessionManager.enableSessionReuse := SessionManager.Absent |}.

(** A limit of two and a half sessions. *)
Definition twoAndAHalf : SessionManager.ISessionManagerOptions :=
  {| SessionManager.maxConcurrentSessions :=
       SessionManager.Present (Some (SessionManager.Finite (5 # 2)));
     SessionManager.sessionTimeout := SessionManager.Absent;
     SessionManager.enableSessionReuse := SessionManager.Absent |}.

Definition undefinedLimit : SessionManager.ISessionManagerOptions :=
  {| SessionManager.maxConcurrentSessions := SessionManager.Present None;
     SessionManager.sessionTimeout := SessionManager.Absent;
     SessionManager.enableSessionReuse := SessionManager.Absent |}.

Definition testArgs : ChatSession.IChatAgentArgs :=
  {| ChatSession.agentName := "test";
     ChatSession.agentId := "test-id";
     ChatSession.intentId := "unknown" |}.

(** A rendering of the numbers that are not whole, good for two and a
    half. *)
Definition sampleToString (q : Q) : string := "2.5".

(** A handler that fails on the request [fail] and answers any other. *)
Definition echo (history : list string) (request : string) (args : ChatSession.IChatAgentArgs)
  : Completion string :=
  if bool_decide (request = "fail") then Throw (Error "handler failed")
  else Normal ("re: " +:+ request).

(** A manager in which the request with uuid [a] has begun. *)
Definition begun (options : SessionManager.ISessionManagerOptions) : SessionManager.World :=
  (SessionManager.handleRequest_begin sampleToString "a" "hello" [] testArgs
     (SessionManager.new sampleToString options)).2.

(** ... and has then settled with an answer. *)
Definition settled (options : SessionManager.ISessionManagerOptions) : SessionManager.World :=
  (SessionManager.handleRequest_settle "session-a" (Normal "done") (begun options)).2.

(** ... or in which [dispose] was called before the request settled. *)
Definition disposedMeanwhile (options : SessionManager.ISessionManagerOptions)
  : SessionManager.World :=
  (SessionManager.dispose (begun options)).2.

(** A manager with a limit of two and a half in which the requests with
    uuids [a], [b] and [c] have begun. *)
Definition threeBegun : SessionManager.World :=
  (SessionManager.handleRequest_begin sampleToString "c" "hello" [] testArgs
     (SessionManager.handleRequest_begin sampleToString "b" "hello" [] testArgs
        (begun twoAndAHalf)).2).2.

(** ** Array helpers *)

Section ArrayFacts.
Context {A : Type}.
Implicit Types (p : A → bool) (l : list A).

Lemma js_find_cons p x l :
  js_find p (x :: l) = if p x then Some (0%nat, x) else prod_map S id <$> js_find p l.
Proof.
  unfold js_find. simpl. destruct (p x); by case_decide.
Qed.

Lemma js_find_None p l : js_find p l = None ↔ Forall (λ y, p y = false) l.
Proof.
  induction l as [|x l IH]; [by split|].
  rewrite js_find_cons, Forall_cons. destruct (p x) eqn:Hx.
  - split; [done|]. by intros [? _].
  - rewrite <- IH. destruct (js_find p l); simpl; split; try done.
    all: by intros [_ ?].
Qed.

Lemma js_find_middle p front x back :
  Forall (λ y, p y = false) front → p x = true →
  js_find p (front ++ x :: back) = Some (length front, x).
Proof.
  intros Hfront Hx. induction Hfront as [|y front Hy _ IH].
  - by rewrite app_nil_l, js_find_cons, Hx.
  - by rewrite <- app_comm_cons, js_find_cons, Hy, IH.
Qed.

Lemma js_find_Some p l i x :
  js_find p l = Some (i, x) →
  ∃ front back,
    l = front ++ x :: back ∧ length front = i
    ∧ Forall (λ y, p y = false) front ∧ p x = true.
Proof.
  revert i. induction l as [|y l IH]; intros i; [done|].
  rewrite js_find_cons. destruct (p y) eqn:Hy.
  - intros [= <- <-]. by exists [], l.
  - destruct (js_find p l) as [[j z]|]; simpl; [|done].
    intros [= <- <-].
    destruct (IH j eq_refl) as (front & back & -> & <- & Hfront & Hx).
    exists (y :: front), back. split_and!; try done. by constructor.
Qed.

(** Searching the reversed array finds the last element that qualifies. *)
Lemma js_find_reverse_Some p l i x :
  js_find p (reverse l) = Some (i, x) →
  ∃ older newer,
    l = older ++ x :: newer ∧ Forall (λ y, p y = false) newer ∧ p x = true.
Proof.
  intros (front & back & Hl & _ & Hfront & Hx)%js_find_Some.
  exists (reverse back), (reverse front). split_and!; [|by apply Forall_reverse|done].
  rewrite <- (reverse_involutive l), Hl, reverse_app, reverse_cons, <- (assoc_L (++)).
  done.
Qed.

Lemma js_find_reverse_last p older x newer :
  Forall (λ y, p y = false) newer → p x = true →
  snd <$> js_find p (reverse (older ++ x :: newer)) = Some x.
Proof.
  intros Hnewer Hx.
  rewrite reverse_app, reverse_cons, <- (assoc_L (++)). simpl.
  rewrite js_find_middle; [done|by apply Forall_reverse|done].
Qed.

Lemma insert_middle_length (front back : list A) (x y : A) :
  <[length front := y]> (front ++ x :: back) = front ++ y :: back.
Proof.
  rewrite insert_app_r_alt by lia.
  by replace (length front - length front)%nat with 0%nat by lia.
Qed.

Lemma slice_0_m1_snoc l x : slice_0_m1 (l ++ [x]) = l.
Proof.
  unfold slice_0_m1. rewrite length_app. simpl.
  replace (length l + 1 - 1)%nat with (length l) by lia.
  apply take_app_length.
Qed.

Lemma snoc_of_length l : (1 ≤ length l)%nat → ∃ front x, l = front ++ [x].
Proof.
  destruct l as [|y l _] using rev_ind; simpl; [lia|]. eauto.
Qed.

Lemma nonempty_of_last l x : last l = Some x → (0 < length l)%nat.
Proof. destruct l; simpl; [done|lia]. Qed.
End ArrayFacts.

(** ** The working notebook *)

Section NotebookFacts.
Variable RunNotebookCell : string.
Variable services : BuilderServices.

(** [getWorkingNotebook] never throws. *)
Lemma getWorkingNotebook_Normal p :
  ∃ notebook, getWorkingNotebook RunNotebookCell services p = Normal notebook.
Proof.
  unfold getWorkingNotebook.
  destruct (notebookToolCall RunNotebookCell p) as [call|]; [|by eexists].
  destruct (negb _); [|by eexists].
  destruct (lookupNotebook services (call_arguments call)); simpl; by eexists.
Qed.

(** Which call [getWorkingNotebook] reads: the first notebook call of the
    last pending round that has one. *)
Lemma notebookToolCall_Some p call :
  notebookToolCall RunNotebookCell p = Some call ↔
  ∃ older round newer before after,
    toolCallRounds (promptContext p) = Some (older ++ round :: newer)
    ∧ Forall (λ r, js_some (isRunNotebookCell RunNotebookCell) (round_toolCalls r) = false) newer
    ∧ round_toolCalls round = before ++ call :: after
    ∧ Forall (λ c, isRunNotebookCell RunNotebookCell c = false) before
    ∧ isRunNotebookCell RunNotebookCell call = true.
Proof.
  unfold notebookToolCall. split.
  - destruct (toolCallRounds (promptContext p)) as [rs|]; simpl; [|done].
    destruct (js_find _ (reverse rs)) as [[i round]|] eqn:Hround; simpl; [|done].
    destruct (js_find _ (round_toolCalls round)) as [[j c]|] eqn:Hcall; simpl; [|done].
    intros [= ->].
    apply js_find_reverse_Some in Hround as (older & newer & -> & Hnewer & _).
    apply js_find_Some in Hcall as (before & after & Hcalls & _ & Hbefore & Hcall).
    by exists older, round, newer, before, after.
  - intros (older & round & newer & before & after & -> & Hnewer & Hcalls & Hbefore & Hcall).
    simpl. rewrite js_find_reverse_last; [|done|].
    + simpl. by rewrite Hcalls, js_find_middle.
    + unfold js_some. rewrite Hcalls, existsb_app. simpl. rewrite Hcall.
      by rewrite orb_true_r.
Qed.

(** C9, as amended.  [getWorkingNotebook] never throws; [getProps] attaches
    what it returns for the props as passed in (the pending rounds before
    selection drops or empties them); it returns a document exactly when the
    first notebook call of the last pending round that has one carries
    non-empty arguments that parse to an object whose [filePath] is a
    string, the path resolves to a URI, and the document is the first open
    notebook with that URI.  Every other case yields no notebook. *)
Theorem getWorkingNotebook_best_effort p :
  (∃ notebook, getWorkingNotebook RunNotebookCell services p = Normal notebook)
  ∧ (∀ info, getProps RunNotebookCell services p = Normal info →
       getWorkingNotebook RunNotebookCell services p = Normal (workingNotebook (props info)))
  ∧ (∀ doc, getWorkingNotebook RunNotebookCell services p = Normal (Some doc) ↔
       ∃ older round newer before call after args path uri closed others,
         toolCallRounds (promptContext p) = Some (older ++ round :: newer)
         ∧ Forall (λ r, js_some (isRunNotebookCell RunNotebookCell) (round_toolCalls r) = false)
             newer
         ∧ round_toolCalls round = before ++ call :: after
         ∧ Forall (λ c, isRunNotebookCell RunNotebookCell c = false) before
         ∧ isRunNotebookCell RunNotebookCell call = true
         ∧ call_arguments call ≠ ""
         ∧ JSON_parse services (call_arguments call) = Normal args
         ∧ get_filePath args = Normal (Some (JString path))
         ∧ resolveFilePath services path = Normal (Some uri)
         ∧ notebookDocuments services = closed ++ doc :: others
         ∧ Forall (λ d, uri_toString (doc_uri d) ≠ uri_toString uri) closed
         ∧ uri_toString (doc_uri doc) = uri_toString uri).
Proof.
  split_and!.
  - apply getWorkingNotebook_Normal.
  - intros info. unfold getProps.
    destruct (getWorkingNotebook_Normal p) as [notebook ->].
    match goal with |- context [mbind _ ?sel] => destruct sel as [[[? ?] ?]|] end;
      simpl; [|done].
    by intros [= <-].
  - intros doc. unfold getWorkingNotebook. split.
    + destruct (notebookToolCall RunNotebookCell p) as [call|] eqn:Hcall; [|done].
      apply notebookToolCall_Some in Hcall
        as (older & round & newer & before & after & Hrs & Hnewer & Hcalls & Hbefore & Hcall).
      case_bool_decide as Hargs; simpl; [done|].
      unfold lookupNotebook.
      destruct (JSON_parse services (call_arguments call)) as [args|] eqn:Hparse; simpl; [|done].
      destruct (get_filePath args) as [[[| | |path| |]|]|] eqn:Hpath; simpl; try done.
      destruct (resolveFilePath services path) as [[uri|]|] eqn:Huri; simpl; try done.
      destruct (js_find _ (notebookDocuments services)) as [[i d]|] eqn:Hdoc; simpl; [|done].
      intros [= ->].
      apply js_find_Some in Hdoc as (closed & others & Hdocs & _ & Hclosed & Hdoc).
      exists older, round, newer, before, call, after, args, path, uri, closed, others.
      split_and!; try done.
      * eapply Forall_impl; [exact Hclosed|]. simpl. intros d Hd.
        by apply bool_decide_eq_false in Hd.
      * by apply bool_decide_eq_true in Hdoc.
    + intros (older & round & newer & before & call & after & args & path & uri & closed
              & others & Hrs & Hnewer & Hcalls & Hbefore & Hcall & Hargs & Hparse & Hpath
              & Huri & Hdocs & Hclosed & Hdoc).
      rewrite (proj2 (notebookToolCall_Some p call)) by (by eexists _, _, _, _, _).
      rewrite bool_decide_eq_false_2 by done. simpl.
      unfold lookupNotebook. rewrite Hparse. simpl. rewrite Hpath. simpl.
      rewrite Huri. simpl. rewrite Hdocs, js_find_middle; [done| |].
      * eapply Forall_impl; [exact Hclosed|]. simpl. intros d Hd.
        by apply bool_decide_eq_false.
      * by apply bool_decide_eq_true.
Qed.
End NotebookFacts.

(** C9, as stated, fails: selection keeps only [p1], which ran no notebook
    cell, yet [getProps] attaches the notebook named by the dropped round
    [p2]. *)
Lemma notebook_from_dropped_round :
  ∃ info,
    getProps run_notebook_cell oneNotebook notebookInLastRound = Normal info
    ∧ toolCallRounds (promptContext (props info)) = Some [plainRound "p1"]
    ∧ js_some (λ round, js_some (isRunNotebookCell run_notebook_cell) (round_toolCalls round))
        [plainRound "p1"] = false
    ∧ workingNotebook (props info) = Some openNotebook.
Proof. eexists. split_and!; [vm_compute; reflexivity|done..]. Qed.

(** C9 at pending [p1, p2] with the notebook call in [p2]: every condition
    of the characterisation is met and [openNotebook] is returned. *)
Lemma getWorkingNotebook_best_effort_witness :
  getWorkingNotebook run_notebook_cell oneNotebook notebookInLastRound
  = Normal (Some openNotebook).
Proof.
  apply (getWorkingNotebook_best_effort run_notebook_cell oneNotebook notebookInLastRound).
  exists [plainRound "p1"], (notebookRound "p2"), [], [], notebookCall, [],
    (JObject [("filePath", JString "/w/nb.ipynb")]), "/w/nb.ipynb",
    {| uri_toString := "file:///w/nb.ipynb" |}, [], [].
  split_and!; try reflexivity.
  - constructor.
  - constructor.
  - discriminate.
  - constructor.
Defined.

(** ** Round selection *)

Section SelectionFacts.
Variable RunNotebookCell : string.
Variable services : BuilderServices.

(** The first branch of [getProps]: two or more rounds pending. *)
Lemma getProps_multiple p front r dropped :
  toolCallRounds (promptContext p) = Some (front ++ [r] ++ [dropped]) →
  ∃ notebook,
    getProps RunNotebookCell services p
    = Normal (selected p (front ++ [r]) (isContinuation (promptContext p)) (round_id r) notebook).
Proof.
  intros Hrs. destruct (getWorkingNotebook_Normal RunNotebookCell services p) as [notebook Hnb].
  exists notebook. unfold getProps. rewrite Hrs, Hnb.
  rewrite bool_decide_eq_true_2 by (rewrite !length_app; simpl; lia).
  rewrite (assoc_L (++)), slice_0_m1_snoc. unfold at_m1. by rewrite last_snoc.
Qed.

(** The other branches of [getProps], taken when at most one round is
    pending. *)
Lemma getProps_fallback p :
  (length (default [] (toolCallRounds (promptContext p))) ≤ 1)%nat →
  ∃ notebook,
    getProps RunNotebookCell services p =
      (if bool_decide (0 < length (history (promptContext p)))%nat then
         turn ← from_option Normal (Throw TypeError) (at_m1 (history (promptContext p)));
         r ← from_option Normal (Throw TypeError) (at_m1 (rounds turn));
         Normal (selected p [] (Some true) (round_id r) notebook)
       else Throw (Error "Nothing to summarize")).
Proof.
  intros Hle. destruct (getWorkingNotebook_Normal RunNotebookCell services p) as [notebook Hnb].
  exists notebook. unfold getProps. rewrite Hnb.
  destruct (toolCallRounds (promptContext p)) as [rs|]; simpl in Hle.
  - rewrite (bool_decide_eq_false_2 (1 < length rs)%nat) by lia.
    case_bool_decide; [|done].
    destruct (at_m1 (history (promptContext p))) as [turn|]; simpl; [|done].
    by destruct (at_m1 (rounds turn)).
  - case_bool_decide; [|done].
    destruct (at_m1 (history (promptContext p))) as [turn|]; simpl; [|done].
    by destruct (at_m1 (rounds turn)).
Qed.

(** With no history and at most one pending round, [getProps] throws
    'Nothing to summarize'. *)
Lemma getProps_nothing p :
  history (promptContext p) = [] →
  (length (default [] (toolCallRounds (promptContext p))) ≤ 1)%nat →
  getProps RunNotebookCell services p = Throw (Error "Nothing to summarize").
Proof.
  intros Hhist Hle. destruct (getProps_fallback p Hle) as [notebook ->].
  by rewrite Hhist.
Qed.

(** With at most one pending round and a last turn without rounds,
    [getProps] throws a [TypeError]. *)
Lemma getProps_TypeError p turn :
  (length (default [] (toolCallRounds (promptContext p))) ≤ 1)%nat →
  last (history (promptContext p)) = Some turn →
  rounds turn = [] →
  getProps RunNotebookCell services p = Throw TypeError.
Proof.
  intros Hle Hturn Hrounds. destruct (getProps_fallback p Hle) as [notebook ->].
  rewrite bool_decide_eq_true_2 by eauto using nonempty_of_last.
  unfold at_m1. rewrite Hturn. simpl. by rewrite Hrounds.
Qed.

(** C1.  With two or more pending rounds, [getProps] returns normally; the
    pending rounds it selects are the original ones without the last; the
    covered-round id is the id of the last selected round, which is the
    second-to-last of the original list.  History and continuation flag are
    passed through. *)
Theorem getProps_drops_last_pending p rs :
  toolCallRounds (promptContext p) = Some rs →
  (2 ≤ length rs)%nat →
  ∃ info kept dropped r,
    getProps RunNotebookCell services p = Normal info
    ∧ rs = kept ++ [dropped]
    ∧ toolCallRounds (promptContext (props info)) = Some kept
    ∧ last kept = Some r
    ∧ rs !! (length rs - 2)%nat = Some r
    ∧ summarizedToolCallRoundId info = round_id r
    ∧ history (promptContext (props info)) = history (promptContext p)
    ∧ isContinuation (promptContext (props info)) = isContinuation (promptContext p).
Proof.
  intros Hrs Hlen.
  destruct (snoc_of_length rs) as (kept & dropped & ->); [lia|].
  rewrite length_app in Hlen. simpl in Hlen.
  destruct (snoc_of_length kept) as (front & r & ->); [lia|].
  destruct (getProps_multiple p front r dropped) as [notebook ->];
    [by rewrite Hrs, (assoc_L (++))|].
  eexists _, (front ++ [r]), dropped, r.
  split_and!; try done.
  - apply last_snoc.
  - rewrite !length_app. simpl.
    replace (length front + 1 + 1 - 2)%nat with (length front) by lia.
    rewrite <- (assoc_L (++)). by apply list_lookup_middle.
Qed.

(** C2, as amended.  With at most one pending round and a last prior turn
    that has at least one round, [getProps] returns normally, sets the
    continuation flag, empties the pending rounds, and covers the last round
    of the last prior turn. *)
Theorem getProps_covers_last_turn p turn r :
  (length (default [] (toolCallRounds (promptContext p))) ≤ 1)%nat →
  last (history (promptContext p)) = Some turn →
  last (rounds turn) = Some r →
  ∃ info,
    getProps RunNotebookCell services p = Normal info
    ∧ isContinuation (promptContext (props info)) = Some true
    ∧ toolCallRounds (promptContext (props info)) = Some []
    ∧ summarizedToolCallRoundId info = round_id r
    ∧ history (promptContext (props info)) = history (promptContext p).
Proof.
  intros Hle Hturn Hr. destruct (getProps_fallback p Hle) as [notebook ->].
  rewrite bool_decide_eq_true_2 by eauto using nonempty_of_last.
  unfold at_m1. rewrite Hturn. simpl. rewrite Hr. simpl.
  eexists. split_and!; done.
Qed.

(** C10.  With at most one pending round and a last prior turn without
    rounds, [getProps] raises a [TypeError] from reading [id] of [undefined],
    not 'Nothing to summarize'; in general [getProps] returns normally exactly
    when two or more rounds are pending or the last prior turn has a round. *)
Theorem getProps_empty_last_turn p turn :
  (length (default [] (toolCallRounds (promptContext p))) ≤ 1)%nat →
  last (history (promptContext p)) = Some turn →
  rounds turn = [] →
  getProps RunNotebookCell services p = Throw TypeError
  ∧ getProps RunNotebookCell services p ≠ Throw (Error "Nothing to summarize")
  ∧ ∀ q, (∃ info, getProps RunNotebookCell services q = Normal info) ↔
      (2 ≤ length (default [] (toolCallRounds (promptContext q))))%nat
      ∨ ∃ t r, last (history (promptContext q)) = Some t ∧ last (rounds t) = Some r.
Proof.
  intros Hle Hturn Hrounds.
  rewrite (getProps_TypeError p turn) by done.
  split_and!; [done..|].
  intros q.
  destruct (decide (2 ≤ length (default [] (toolCallRounds (promptContext q))))%nat) as [Hq|Hq].
  - split; [by left|intros _].
    destruct (toolCallRounds (promptContext q)) as [rs|] eqn:Hrs; simpl in Hq; [|lia].
    destruct (snoc_of_length rs) as (kept & dropped & ->); [lia|].
    rewrite length_app in Hq. simpl in Hq.
    destruct (snoc_of_length kept) as (front & r & ->); [lia|].
    destruct (getProps_multiple q front r dropped) as [notebook ->];
      [by rewrite Hrs, (assoc_L (++))|].
    eauto.
  - destruct (getProps_fallback q) as [notebook ->]; [lia|]. split.
    + intros [info Hinfo]. right.
      case_bool_decide; [|done].
      unfold at_m1 in Hinfo.
      destruct (last (history (promptContext q))) as [t|]; simpl in Hinfo; [|done].
      destruct (last (rounds t)) as [r|] eqn:Hr; simpl in Hinfo; [|done]. eauto.
    + intros [?|(t & r & Ht & Hr)]; [lia|].
      rewrite bool_decide_eq_true_2 by eauto using nonempty_of_last.
      unfold at_m1. rewrite Ht. simpl. rewrite Hr. simpl. eauto.
Qed.
End SelectionFacts.

(** C1 at [p1, p2, p3]: selection keeps [p1, p2] and covers [p2]. *)
Lemma getProps_drops_last_pending_witness :
  ∃ info kept dropped r,
    getProps run_notebook_cell noNotebooks threePending = Normal info
    ∧ [plainRound "p1"; plainRound "p2"; plainRound "p3"] = kept ++ [dropped]
    ∧ toolCallRounds (promptContext (props info)) = Some kept
    ∧ last kept = Some r
    ∧ [plainRound "p1"; plainRound "p2"; plainRound "p3"] !! 1%nat = Some r
    ∧ summarizedToolCallRoundId info = round_id r
    ∧ history (promptContext (props info)) = []
    ∧ isContinuation (promptContext (props info)) = None.
Proof.
  apply (getProps_drops_last_pending run_notebook_cell noNotebooks threePending
           [plainRound "p1"; plainRound "p2"; plainRound "p3"]).
  - reflexivity.
  - simpl. lia.
Defined.

(** C2, as stated, fails: one prior turn, nothing pending, and [getProps]
    returns nothing because the turn has no round to cover. *)
Lemma getProps_turn_without_rounds :
  (length (default [] (toolCallRounds (promptContext emptyTurn))) ≤ 1)%nat
  ∧ (1 ≤ length (history (promptContext emptyTurn)))%nat
  ∧ getProps run_notebook_cell noNotebooks emptyTurn = Throw TypeError
  ∧ ¬ ∃ info, getProps run_notebook_cell noNotebooks emptyTurn = Normal info.
Proof.
  split_and!; [simpl; lia..|reflexivity|].
  intros [info Hinfo]. vm_compute in Hinfo. discriminate.
Qed.

(** C2 at the scenario [history = [Turn1 {rounds: [r1]}]], nothing pending. *)
Lemma getProps_covers_last_turn_witness :
  ∃ info,
    getProps run_notebook_cell noNotebooks oneTurn = Normal info
    ∧ isContinuation (promptContext (props info)) = Some true
    ∧ toolCallRounds (promptContext (props info)) = Some []
    ∧ summarizedToolCallRoundId info = "r1"
    ∧ history (promptContext (props info)) = [plainTurn "t1" [plainRound "r1"]].
Proof.
  apply (getProps_covers_last_turn run_notebook_cell noNotebooks oneTurn
           (plainTurn "t1" [plainRound "r1"]) (plainRound "r1")).
  - simpl. lia.
  - reflexivity.
  - reflexivity.
Defined.

(** C10 at one prior turn without rounds. *)
Lemma getProps_empty_last_turn_witness :
  getProps run_notebook_cell noNotebooks emptyTurn = Throw TypeError
  ∧ getProps run_notebook_cell noNotebooks emptyTurn ≠ Throw (Error "Nothing to summarize")
  ∧ ∀ q, (∃ info, getProps run_notebook_cell noNotebooks q = Normal info) ↔
      (2 ≤ length (default [] (toolCallRounds (promptContext q))))%nat
      ∨ ∃ t r, last (history (promptContext q)) = Some t ∧ last (rounds t) = Some r.
Proof.
  apply (getProps_empty_last_turn run_notebook_cell noNotebooks emptyTurn (plainTurn "t1" [])).
  - simpl. lia.
  - reflexivity.
  - reflexivity.
Defined.

(** ** The executor *)

Ltac run_M :=
  unfold sendSummarizationTelemetry, try_catch, mutatePromptContext, perform, lift, throw,
    getThisProps, mbind, mret, M_bind, M_ret; simpl.

Section ExecutorFacts.
Variable RunNotebookCell : string.
Variable builderServices : BuilderServices.
Variable services : ExecutorServices.
Variable sizing : PromptSizing.
Variable progress : bool.

(** When round selection throws, [summarizeHistory] propagates the error and
    does nothing else. *)
Lemma summarizeHistory_selection_throws w e :
  getProps RunNotebookCell builderServices (w_props w) = Throw e →
  summarizeHistory RunNotebookCell builderServices services sizing progress w = (Throw e, w).
Proof. intros He. unfold summarizeHistory. run_M. by rewrite He. Qed.

(** C3.  With no prior turn and at most one pending round, the attempt
    fails with 'Nothing to summarize' and leaves the world as it was: no
    effect is performed, so the completion endpoint is not invoked. *)
Theorem summarizeHistory_nothing_to_summarize w :
  history (promptContext (w_props w)) = [] →
  (length (default [] (toolCallRounds (promptContext (w_props w)))) ≤ 1)%nat →
  summarizeHistory RunNotebookCell builderServices services sizing progress w
  = (Throw (Error "Nothing to summarize"), w)
  ∧ chatRequestCount
      (w_effects (summarizeHistory RunNotebookCell builderServices services sizing progress w).2)
    = chatRequestCount (w_effects w).
Proof.
  intros Hhist Hle.
  rewrite (summarizeHistory_selection_throws w (Error "Nothing to summarize"))
    by (by apply getProps_nothing).
  done.
Qed.

(** C4.  When selection and rendering succeed and the endpoint answers with
    a summary that counts more tokens than the budget, the attempt throws
    'Summary too large'; it has rendered, requested and reported [too_large],
    and the props object, with the whole history, is as before. *)
Theorem summarizeHistory_too_large w info messages stripped value requestId tokens :
  getProps RunNotebookCell builderServices (w_props w) = Normal info →
  renderPromptElement services (props info) = Normal messages →
  stripInternalToolCallIds services messages = Normal stripped →
  makeChatRequest services stripped = Normal (Normal (ResponseSuccess value requestId)) →
  countTokens sizing value = Normal tokens →
  tokens > tokenBudget sizing →
  ∃ w',
    summarizeHistory RunNotebookCell builderServices services sizing progress w
    = (Throw (Error "Summary too large"), w')
    ∧ w_props w' = w_props w
    ∧ w_effects w' =
        w_effects w
        ++ [RenderPromptElement (props info); MakeChatRequest stripped]
        ++ (if progress then [ProgressReport] else [])
        ++ [SendTelemetry (telemetryEvent (promptContext (w_props w)) "too_large" requestId
                             (endpoint_model (w_props w)) None)].
Proof.
  intros Hinfo Hrender Hstrip Hrequest Htokens Hlarge.
  unfold summarizeHistory. run_M. rewrite Hinfo, Hrender. simpl.
  rewrite Hstrip. simpl. rewrite Hrequest.
  destruct progress; simpl; rewrite Htokens; simpl;
    rewrite bool_decide_eq_true_2 by done; simpl;
    eexists; (split_and!; [done..|]); simpl;
    by rewrite <- !(assoc_L (++)).
Qed.

End ExecutorFacts.

(** C3 at the empty conversation: the attempt fails before anything is
    requested. *)
Lemma summarizeHistory_nothing_to_summarize_witness :
  summarizeHistory run_notebook_cell noNotebooks answersS1 roomy true (freshWorld emptyConversation)
  = (Throw (Error "Nothing to summarize"), freshWorld emptyConversation)
  ∧ chatRequestCount
      (w_effects (summarizeHistory run_notebook_cell noNotebooks answersS1 roomy true
                    (freshWorld emptyConversation)).2)
    = chatRequestCount (w_effects (freshWorld emptyConversation)).
Proof.
  apply (summarizeHistory_nothing_to_summarize run_notebook_cell noNotebooks answersS1 roomy true
           (freshWorld emptyConversation)).
  - reflexivity.
  - simpl. lia.
Defined.

(** C4 at one past turn [r1] and the answer [S1] against a budget of one
    token: the attempt throws and [r1] keeps no summary. *)
Lemma summarizeHistory_too_large_witness :
  ∃ w',
    summarizeHistory run_notebook_cell noNotebooks answersS1 tight true (freshWorld oneTurn)
    = (Throw (Error "Summary too large"), w')
    ∧ w_props w' = oneTurn
    ∧ w_effects w' =
        []
        ++ [RenderPromptElement
              (props (selected oneTurn [] (Some true) "r1" None));
            MakeChatRequest [{| msg_role := "user"; msg_content := "history" |}]]
        ++ [ProgressReport]
        ++ [SendTelemetry (telemetryEvent (promptContext oneTurn) "too_large" "req-1"
                             "gpt-4.1" None)].
Proof.
  apply (summarizeHistory_too_large run_notebook_cell noNotebooks answersS1 tight true
           (freshWorld oneTurn) (selected oneTurn [] (Some true) "r1" None)
           [{| msg_role := "user"; msg_content := "history" |}]
           [{| msg_role := "user"; msg_content := "history" |}] "S1" "req-1" 2).
  - reflexivity.
  - reflexivity.
  - reflexivity.
  - reflexivity.
  - reflexivity.
  - reflexivity.
Defined.



(** The exit that reports nothing after selection: the endpoint answers
    [S1] and the token count throws.  The render and the request have
    happened, the error of the count propagates, and no telemetry event has
    been sent. *)
Example token_count_failure_unreported :
  ∃ w',
    summarizeHistory run_notebook_cell noNotebooks answersS1 uncountable true
      (freshWorld oneTurn)
    = (Throw (Error "tokenizer unavailable"), w')
    ∧ chatRequestCount (w_effects w') = 1%nat
    ∧ telemetrySent (w_effects w') = []
    ∧ w_props w' = oneTurn.
Proof. eexists. split_and!; [vm_compute; reflexivity|done..]. Qed.

(** An endpoint that throws when it is called: the attempt reports
    [requestThrow], and the progress sink has not been told of a request. *)
Example request_thrown_at_once :
  ∃ w',
    summarizeHistory run_notebook_cell noNotebooks throwsAtOnce roomy true (freshWorld oneTurn)
    = (Throw (Error "no endpoint"), w')
    ∧ w_effects w'
      = [RenderPromptElement (props (selected oneTurn [] (Some true) "r1" None));
         MakeChatRequest [{| msg_role := "user"; msg_content := "history" |}];
         SendTelemetry (telemetryEvent (promptContext oneTurn) "requestThrow" "" "gpt-4.1"
                          None)].
Proof. eexists. split; [vm_compute; reflexivity|done]. Qed.

(** Scenario: [history = [Turn1 {rounds: [r1]}]], nothing pending, the
    endpoint answers [S1] under budget.  The attempt returns [S1] for [r1],
    has reported [success] once, and [r1] now carries [S1]. *)
Example scenario_one_turn :
  ∃ w',
    summarizeHistory run_notebook_cell noNotebooks answersS1 roomy true (freshWorld oneTurn)
    = (Normal (Some {| res_summary := "S1"; res_toolCallRoundId := "r1" |}), w')
    ∧ history (promptContext (w_props w')) = [plainTurn "t1" [summarizedRound "r1" "S1"]]
    ∧ telemetrySent (w_effects w')
      = [telemetryEvent (promptContext oneTurn) "success" "req-1" "gpt-4.1" None]
    ∧ chatRequestCount (w_effects w') = 1%nat.
Proof. eexists. split_and!; [vm_compute; reflexivity|done..]. Qed.

(** Scenario: pending [p1, p2, p3].  Selection covers [p2]; on success [p2]
    carries the summary and [p1], [p3] do not. *)
Example scenario_three_pending :
  ∃ w',
    summarizeHistory run_notebook_cell noNotebooks answersS1 roomy true (freshWorld threePending)
    = (Normal (Some {| res_summary := "S1"; res_toolCallRoundId := "p2" |}), w')
    ∧ toolCallRounds (promptContext (w_props w'))
      = Some [plainRound "p1"; summarizedRound "p2" "S1"; plainRound "p3"].
Proof. eexists. split_and!; [vm_compute; reflexivity|done]. Qed.

(** The entry point on the first scenario: the element renders the summary
    just installed in place of [r1]. *)
Example scenario_render_after_summary :
  (SummarizedConversationHistory_render run_notebook_cell noNotebooks answersS1 roomy true
     (freshWorld oneTurn)).1
  = Normal (Some {| meta_toolCallRoundId := "r1"; meta_text := "S1" |},
            [ConversationSummary "S1"; ChatToolCalls [] None true 2000;
             AgentUserMessageFromProps]).
Proof. vm_compute. reflexivity. Qed.

(** ** The history patcher *)

Section PatcherFacts.
Variable summary toolCallRoundId : string.

Lemma otherId_Forall rs : Forall (λ y, hasId toolCallRoundId y = false) rs ↔ Forall (otherId toolCallRoundId) rs.
Proof.
  apply Forall_proper; [|done]. intros r. simpl.
  split; [apply bool_decide_eq_false|apply bool_decide_eq_false_2].
Qed.

(** What [find] followed by the assignment does to one array of rounds. *)
Lemma find_round_cases rs :
  (∃ front r back,
     rs = front ++ r :: back ∧ Forall (otherId toolCallRoundId) front ∧ round_id r = toolCallRoundId
     ∧ js_find (hasId toolCallRoundId) rs = Some (length front, r))
  ∨ (Forall (otherId toolCallRoundId) rs ∧ js_find (hasId toolCallRoundId) rs = None).
Proof.
  destruct (js_find (hasId toolCallRoundId) rs) as [[i r]|] eqn:Hfind.
  - left. apply js_find_Some in Hfind as (front & back & -> & <- & Hfront & Hr).
    exists front, r, back. split_and!; [done|by apply otherId_Forall| |done].
    by apply bool_decide_eq_true in Hr.
  - right. split; [|done]. by apply otherId_Forall, js_find_None.
Qed.

Lemma find_patched front r back :
  Forall (otherId toolCallRoundId) front → round_id r = toolCallRoundId →
  js_find (hasId toolCallRoundId) (front ++ withSummary summary r :: back)
  = Some (length front, withSummary summary r).
Proof.
  intros Hfront Hr. apply js_find_middle; [by apply otherId_Forall|].
  by apply bool_decide_eq_true.
Qed.

(** What the loop over the reversed turns does. *)
Lemma addSummaryToTurns_cases reversed :
  (∃ newer turn older front r back,
     reversed = newer ++ turn :: older
     ∧ Forall (λ t, Forall (otherId toolCallRoundId) (rounds t)) newer
     ∧ rounds turn = front ++ r :: back ∧ Forall (otherId toolCallRoundId) front
     ∧ round_id r = toolCallRoundId
     ∧ addSummaryToTurns summary toolCallRoundId reversed
       = newer ++ withRounds (front ++ withSummary summary r :: back) turn :: older)
  ∨ (Forall (λ t, Forall (otherId toolCallRoundId) (rounds t)) reversed
     ∧ addSummaryToTurns summary toolCallRoundId reversed = reversed).
Proof.
  induction reversed as [|turn older IH]; [by right|]. simpl.
  destruct (find_round_cases (rounds turn))
    as [(front & r & back & Hrounds & Hfront & Hr & ->)|[Hnone ->]].
  - left. exists [], turn, older, front, r, back.
    split_and!; try done. simpl. by rewrite Hrounds, insert_middle_length.
  - destruct IH as [(newer & t & older' & front & r & back & -> & Hnewer & Hrounds & Hfront
                     & Hr & ->)|[Holder ->]].
    + left. exists (turn :: newer), t, older', front, r, back.
      split_and!; try done. by constructor.
    + right. split; [by constructor|done].
Qed.

Lemma addSummaryToTurns_idemp reversed :
  addSummaryToTurns summary toolCallRoundId
    (addSummaryToTurns summary toolCallRoundId reversed)
  = addSummaryToTurns summary toolCallRoundId reversed.
Proof.
  induction reversed as [|turn older IH]; [done|]. simpl.
  destruct (find_round_cases (rounds turn))
    as [(front & r & back & Hrounds & Hfront & Hr & ->)|[Hnone Hfind]].
  - simpl. rewrite Hrounds, insert_middle_length, find_patched by done.
    by rewrite insert_middle_length.
  - rewrite Hfind. simpl. by rewrite Hfind, IH.
Qed.
(** C6.  [addSummaryToHistory] writes [summary] on exactly one round: the
    first pending round with the id; failing that, the first round with the
    id in the newest past turn that has one; and when no round has the id
    the context is returned as it was.  The round written to has [summary] as
    its summary afterwards and its id, response and tool calls as before; its
    turn has its id and metadata as before, and all other rounds and turns
    are the same.  The other fields of the context, the number of rounds of
    every turn and the ids of all rounds in order are kept, and installing the
    same summary again changes nothing. *)
Theorem addSummaryToHistory_patches_one ctx :
  ((∃ front r r' back,
      toolCallRounds ctx = Some (front ++ r :: back)
      ∧ Forall (otherId toolCallRoundId) front ∧ round_id r = toolCallRoundId
      ∧ toolCallRounds (addSummaryToHistory summary toolCallRoundId ctx)
        = Some (front ++ r' :: back)
      ∧ r' = withSummary summary r
      ∧ round_summary r' = Some summary
      ∧ round_id r' = round_id r
      ∧ round_response r' = round_response r
      ∧ round_toolCalls r' = round_toolCalls r
      ∧ history (addSummaryToHistory summary toolCallRoundId ctx) = history ctx)
   ∨ (Forall (otherId toolCallRoundId) (default [] (toolCallRounds ctx))
      ∧ ∃ older turn turn' newer front r r' back,
          history ctx = older ++ turn :: newer
          ∧ Forall (λ t, Forall (otherId toolCallRoundId) (rounds t)) newer
          ∧ rounds turn = front ++ r :: back
          ∧ Forall (otherId toolCallRoundId) front ∧ round_id r = toolCallRoundId
          ∧ history (addSummaryToHistory summary toolCallRoundId ctx)
            = older ++ turn' :: newer
          ∧ turn' = withRounds (front ++ withSummary summary r :: back) turn
          ∧ rounds turn' = front ++ r' :: back
          ∧ turn_id turn' = turn_id turn
          ∧ resultMetadata turn' = resultMetadata turn
          ∧ turn_responseMetadata turn' = turn_responseMetadata turn
          ∧ round_summary r' = Some summary
          ∧ round_id r' = round_id r
          ∧ round_response r' = round_response r
          ∧ round_toolCalls r' = round_toolCalls r
          ∧ toolCallRounds (addSummaryToHistory summary toolCallRoundId ctx)
            = toolCallRounds ctx)
   ∨ (Forall (otherId toolCallRoundId) (allRounds ctx)
      ∧ addSummaryToHistory summary toolCallRoundId ctx = ctx))
  ∧ toolCallResults (addSummaryToHistory summary toolCallRoundId ctx) = toolCallResults ctx
  ∧ isContinuation (addSummaryToHistory summary toolCallRoundId ctx) = isContinuation ctx
  ∧ conversation (addSummaryToHistory summary toolCallRoundId ctx) = conversation ctx
  ∧ (λ t, length (rounds t)) <$> history (addSummaryToHistory summary toolCallRoundId ctx)
    = (λ t, length (rounds t)) <$> history ctx
  ∧ round_id <$> allRounds (addSummaryToHistory summary toolCallRoundId ctx)
    = round_id <$> allRounds ctx
  ∧ addSummaryToHistory summary toolCallRoundId
      (addSummaryToHistory summary toolCallRoundId ctx)
    = addSummaryToHistory summary toolCallRoundId ctx.
Proof.
  assert (Hpending :
    (∃ front r back,
       toolCallRounds ctx = Some (front ++ r :: back)
       ∧ Forall (otherId toolCallRoundId) front ∧ round_id r = toolCallRoundId
       ∧ addSummaryToHistory summary toolCallRoundId ctx
         = {| history := history ctx;
              toolCallRounds := Some (front ++ withSummary summary r :: back);
              toolCallResults := toolCallResults ctx;
              isContinuation := isContinuation ctx;
              conversation := conversation ctx |})
    ∨ (Forall (otherId toolCallRoundId) (default [] (toolCallRounds ctx))
       ∧ ∀ c, toolCallRounds c = toolCallRounds ctx →
           addSummaryToHistory summary toolCallRoundId c
           = {| history :=
                  reverse (addSummaryToTurns summary toolCallRoundId (reverse (history c)));
                toolCallRounds := toolCallRounds c;
                toolCallResults := toolCallResults c;
                isContinuation := isContinuation c;
                conversation := conversation c |})).
  { unfold addSummaryToHistory.
    destruct (toolCallRounds ctx) as [rs|] eqn:Hrs; simpl.
    - destruct (find_round_cases rs)
        as [(front & r & back & -> & Hfront & Hr & Hfind)|[Hnone Hfind]].
      + left. exists front, r, back. rewrite Hfind. simpl.
        by rewrite insert_middle_length.
      + right. split; [done|]. intros c ->. simpl. by rewrite Hfind.
    - right. split; [done|]. by intros c ->. }
  destruct Hpending as [(front & r & back & Hrs & Hfront & Hr & Hctx')|[Hnone Hctx']].
  - rewrite Hctx'. split_and!; try done.
    + left. exists front, r, (withSummary summary r), back. by split_and!.
    + unfold allRounds. simpl. rewrite Hrs. simpl. by rewrite !fmap_app, !fmap_cons.
    + unfold addSummaryToHistory. simpl. rewrite find_patched by done. simpl.
      by rewrite insert_middle_length.
  - rewrite (Hctx' ctx eq_refl).
    destruct (addSummaryToTurns_cases (reverse (history ctx)))
      as [(newer & turn & older & front & r & back & Hrev & Hnewer & Hrounds & Hfront & Hr
           & Hpatched)|[Hturns Hsame]].
    + assert (Hhist : history ctx = reverse older ++ turn :: reverse newer).
      { by rewrite <- (reverse_involutive (history ctx)), Hrev, reverse_app, reverse_cons,
          <- (assoc_L (++)). }
      rewrite Hpatched, reverse_app, reverse_cons, <- (assoc_L (++)). simpl.
      split_and!; try done.
      * right. left. split; [done|].
        exists (reverse older), turn,
          (withRounds (front ++ withSummary summary r :: back) turn), (reverse newer),
          front, r, (withSummary summary r), back.
        split_and!; try done. by apply Forall_reverse.
      * rewrite Hhist, !fmap_app, !fmap_cons. simpl.
        by rewrite Hrounds, !length_app.
      * unfold allRounds. simpl.
        rewrite Hhist, !bind_app, !bind_cons. simpl.
        by rewrite Hrounds, !fmap_app, !fmap_cons.
      * rewrite Hctx' by done. simpl.
        rewrite reverse_app, reverse_cons, !reverse_involutive, <- (assoc_L (++)). simpl.
        rewrite <- Hpatched, addSummaryToTurns_idemp, Hpatched.
        by rewrite reverse_app, reverse_cons, <- (assoc_L (++)).
    + rewrite Hsame, reverse_involutive.
      assert (Hctx : {| history := history ctx; toolCallRounds := toolCallRounds ctx;
                        toolCallResults := toolCallResults ctx;
                        isContinuation := isContinuation ctx;
                        conversation := conversation ctx |} = ctx) by (by destruct ctx).
      rewrite Hctx. split_and!; try done.
      * right. right. split; [|done]. unfold allRounds.
        apply Forall_app. split; [|done].
        apply Forall_bind. rewrite Forall_reverse in Hturns. exact Hturns.
      * rewrite (Hctx' ctx eq_refl), Hsame, reverse_involutive. by rewrite Hctx.
Qed.
End PatcherFacts.

(** ** The history builder *)

Lemma collectUntilSummary_app newer older :
  collectUntilSummary (newer ++ older) =
    match collectUntilSummary newer with
    | (pushed, Some round) => (pushed, Some round)
    | (pushed, None) =>
        let '(pushed', found) := collectUntilSummary older in (pushed ++ pushed', found)
    end.
Proof.
  induction newer as [|round newer IH]; simpl.
  - by destruct (collectUntilSummary older).
  - destruct (truthy (round_summary round)); [done|]. rewrite IH.
    destruct (collectUntilSummary newer) as [pushed [r|]]; [done|].
    by destruct (collectUntilSummary older).
Qed.

Lemma collectUntilSummary_found reversed pushed round :
  collectUntilSummary reversed = (pushed, Some round) → summarized round = true.
Proof.
  revert pushed. induction reversed as [|r older IH]; intros pushed; simpl; [done|].
  destruct (truthy (round_summary r)) eqn:Hr.
  - by intros [= <- <-].
  - destruct (collectUntilSummary older) as [pushed' found]. intros [= <- ->]. eauto.
Qed.

(** The backward scan stops at the first round that carries a summary. *)
Lemma collectUntilSummary_stop newer round older :
  Forall (λ r, summarized r = false) newer → summarized round = true →
  collectUntilSummary (newer ++ round :: older) = (newer, Some round).
Proof.
  intros Hnewer Hround. induction Hnewer as [|r newer Hr _ IH]; simpl.
  - unfold summarized in Hround. by rewrite Hround.
  - unfold summarized in Hr. by rewrite Hr, IH.
Qed.

Lemma verbatimRounds_app pieces1 pieces2 :
  verbatimRounds (pieces1 ++ pieces2) = verbatimRounds pieces1 ++ verbatimRounds pieces2.
Proof. apply bind_app. Qed.

Lemma summaryTexts_app pieces1 pieces2 :
  summaryTexts (pieces1 ++ pieces2) = summaryTexts pieces1 ++ summaryTexts pieces2.
Proof. apply bind_app. Qed.

Lemma reverse_bind_rounds (turns : list Turn) :
  reverse turns ≫= (λ turn, reverse (rounds turn)) = reverse (turns ≫= rounds).
Proof.
  induction turns as [|turn turns IH]; [done|].
  by rewrite reverse_cons, bind_app, bind_singleton, bind_cons, reverse_app, IH.
Qed.

Lemma reversed_entries_rounds (turns : list Turn) :
  reverse (imap pair turns) ≫= (λ entry, reverse (rounds entry.2)) = reverse (turns ≫= rounds).
Proof.
  rewrite <- reverse_bind_rounds.
  trans ((snd <$> reverse (imap pair turns)) ≫= (λ turn, reverse (rounds turn)));
    [by rewrite list_fmap_bind|].
  rewrite fmap_reverse, fmap_imap.
  by rewrite (imap_ext _ (const id) turns), imap_const, list_fmap_id.
Qed.

Section RenderFacts.
Variable p : SummarizedAgentHistoryProps.

(** What the loop over the past turns contributes, read in final order. *)
Lemma renderTurns_shows entries :
  verbatimRounds (reverse (renderTurns p entries))
  = reverse (collectUntilSummary (entries ≫= λ entry, reverse (rounds entry.2))).1
  ∧ summaryTexts (reverse (renderTurns p entries))
    = foundText (collectUntilSummary (entries ≫= λ entry, reverse (rounds entry.2))).2.
Proof.
  induction entries as [|[i turn] older [IHrounds IHtexts]]; [done|].
  rewrite bind_cons, collectUntilSummary_app. simpl. unfold renderTurn.
  destruct (collectUntilSummary (reverse (rounds turn))) as [pushed [round|]].
  - simpl. by rewrite app_nil_r.
  - simpl. rewrite !reverse_cons, !verbatimRounds_app, !summaryTexts_app, IHrounds, IHtexts.
    destruct (collectUntilSummary _) as [pushed' found]. simpl.
    by rewrite !app_nil_r, reverse_app.
Qed.

(** What [ConversationHistory.render] shows: with the backward scan run over
    all rounds of the conversation, newest first, the rounds shown verbatim
    are those the scan passed before it stopped, in chronological order, and
    the only summary text shown is that of the round it stopped at. *)
Lemma ConversationHistory_render_shows :
  verbatimRounds (ConversationHistory_render p)
  = reverse (collectUntilSummary (reverse (allRounds (promptContext p)))).1
  ∧ summaryTexts (ConversationHistory_render p)
    = foundText (collectUntilSummary (reverse (allRounds (promptContext p)))).2.
Proof.
  unfold ConversationHistory_render, allRounds.
  rewrite reverse_app, collectUntilSummary_app.
  pose proof (renderTurns_shows (reverse (imap pair (history (promptContext p)))))
    as [Hrounds Htexts].
  rewrite reversed_entries_rounds in Hrounds, Htexts.
  assert (Hempty : ∀ b : bool,
    verbatimRounds
      (reverse ((if b then [AgentUserMessageFromProps] else [])
                ++ renderTurns p (reverse (imap pair (history (promptContext p))))))
    = reverse (collectUntilSummary (reverse (history (promptContext p) ≫= rounds))).1
    ∧ summaryTexts
        (reverse ((if b then [AgentUserMessageFromProps] else [])
                  ++ renderTurns p (reverse (imap pair (history (promptContext p))))))
      = foundText (collectUntilSummary (reverse (history (promptContext p) ≫= rounds))).2).
  { intros b.
    rewrite reverse_app, verbatimRounds_app, summaryTexts_app, Hrounds, Htexts.
    destruct b; simpl; by rewrite !app_nil_r. }
  destruct (toolCallRounds (promptContext p)) as [rs|]; simpl.
  - case_bool_decide as Hlen.
    + destruct (collectUntilSummary (reverse rs)) as [pushed [round|]] eqn:Hscan; simpl.
      * apply collectUntilSummary_found in Hscan as Hlive. unfold summarized in Hlive.
        rewrite Hlive, !reverse_cons, reverse_nil. simpl. by rewrite app_nil_r.
      * rewrite reverse_cons, verbatimRounds_app, summaryTexts_app.
        destruct (Hempty (negb (jsTrue (isContinuation (promptContext p))))) as [-> ->].
        destruct (collectUntilSummary (reverse (history (promptContext p) ≫= rounds)))
          as [pushed' found]. simpl.
        by rewrite !app_nil_r, reverse_app.
    + assert (rs = []) as -> by (destruct rs; simpl in *; [done|lia]).
      simpl.
      destruct (Hempty (negb (jsTrue (isContinuation (promptContext p))))) as [-> ->].
      by destruct (collectUntilSummary _).
  - destruct (Hempty (negb (jsTrue (isContinuation (promptContext p))))) as [-> ->].
    by destruct (collectUntilSummary _).
Qed.
End RenderFacts.

(** Selection only drops rounds from the end of the conversation. *)
Lemma getProps_keeps_prefix RunNotebookCell services p info :
  getProps RunNotebookCell services p = Normal info →
  ∃ dropped,
    allRounds (promptContext p) = allRounds (promptContext (props info)) ++ dropped.
Proof.
  intros Hinfo.
  destruct (decide (2 ≤ length (default [] (toolCallRounds (promptContext p))))%nat) as [Hp|Hp].
  - destruct (toolCallRounds (promptContext p)) as [rs|] eqn:Hrs; simpl in Hp; [|lia].
    destruct (snoc_of_length rs) as (kept & dropped & ->); [lia|].
    rewrite length_app in Hp. simpl in Hp.
    destruct (snoc_of_length kept) as (front & r & ->); [lia|].
    destruct (getProps_multiple RunNotebookCell services p front r dropped) as [notebook Hsel];
      [by rewrite Hrs, (assoc_L (++))|].
    rewrite Hsel in Hinfo. injection Hinfo as <-.
    exists [dropped]. unfold allRounds. simpl. rewrite Hrs. simpl.
    by rewrite !(assoc_L (++)).
  - destruct (getProps_fallback RunNotebookCell services p) as [notebook Hsel]; [lia|].
    rewrite Hsel in Hinfo.
    case_bool_decide; [|done].
    destruct (at_m1 (history (promptContext p))) as [turn|]; simpl in Hinfo; [|done].
    destruct (at_m1 (rounds turn)) as [r|]; simpl in Hinfo; [|done].
    injection Hinfo as <-.
    exists (default [] (toolCallRounds (promptContext p))).
    unfold allRounds. simpl. by rewrite app_nil_r.
Qed.

(** What a history shows when its newest summarized round is known. *)
Lemma ConversationHistory_render_capped p older round newer text :
  allRounds (promptContext p) = older ++ round :: newer →
  round_summary round = Some text → text ≠ "" →
  Forall (λ r, summarized r = false) newer →
  verbatimRounds (ConversationHistory_render p) = newer
  ∧ summaryTexts (ConversationHistory_render p) = [text].
Proof.
  intros Hall Htext Hne Hnewer.
  destruct (ConversationHistory_render_shows p) as [-> ->].
  rewrite Hall, reverse_app, reverse_cons, <- (assoc_L (++)). simpl.
  rewrite collectUntilSummary_stop.
  - simpl. by rewrite reverse_involutive, Htext.
  - by apply Forall_reverse.
  - unfold summarized, truthy. rewrite Htext. by rewrite bool_decide_eq_false_2.
Qed.

(** C5, as amended.  Let a non-empty [summary] be installed on round [R]
    (the conversation before and after the install differs at [R] only),
    with no round after [R] carrying a summary.  Then the history built from
    the patched context shows no round up to and including [R] verbatim: it
    shows exactly the rounds after [R], in chronological order, and exactly
    one summary text, [summary].  The same holds for the history built from
    what [getProps] selects out of the patched context, whenever the
    selection still contains [R]. *)
Theorem render_after_install RunNotebookCell services p summary toolCallRoundId pre R post :
  summary ≠ "" →
  allRounds (promptContext p) = pre ++ R :: post →
  allRounds (addSummaryToHistory summary toolCallRoundId (promptContext p))
  = pre ++ withSummary summary R :: post →
  Forall (λ r, summarized r = false) post →
  (verbatimRounds
     (ConversationHistory_render
        (withPromptContext (addSummaryToHistory summary toolCallRoundId (promptContext p)) p))
   = post
   ∧ summaryTexts
       (ConversationHistory_render
          (withPromptContext (addSummaryToHistory summary toolCallRoundId (promptContext p)) p))
     = [summary])
  ∧ ∀ info kept,
      getProps RunNotebookCell services
        (withPromptContext (addSummaryToHistory summary toolCallRoundId (promptContext p)) p)
      = Normal info →
      allRounds (promptContext (props info)) = pre ++ withSummary summary R :: kept →
      verbatimRounds (ConversationHistory_render (props info)) = kept
      ∧ summaryTexts (ConversationHistory_render (props info)) = [summary].
Proof.
  intros Hne _ Hpatched Hpost. split.
  - by apply (ConversationHistory_render_capped _ pre (withSummary summary R)).
  - intros info kept Hinfo Hkept.
    apply (ConversationHistory_render_capped _ pre (withSummary summary R)); try done.
    apply getProps_keeps_prefix in Hinfo as [dropped Hdropped].
    simpl in Hdropped. rewrite Hpatched, Hkept, <- (assoc_L (++)) in Hdropped.
    apply app_inv_head in Hdropped. injection Hdropped as ->.
    by apply Forall_app in Hpost as [? _].
Qed.

(** C5 at one past turn [r1, r2] and pending [p1, p2, p3], with [S1]
    installed on [p2]: only [p3] is shown verbatim; after selection drops
    [p3], no round is. *)
Lemma render_after_install_witness :
  (verbatimRounds
     (ConversationHistory_render
        (withPromptContext (addSummaryToHistory "S1" "p2" (promptContext midTurn)) midTurn))
   = [plainRound "p3"]
   ∧ summaryTexts
       (ConversationHistory_render
          (withPromptContext (addSummaryToHistory "S1" "p2" (promptContext midTurn)) midTurn))
     = ["S1"])
  ∧ ∀ info kept,
      getProps run_notebook_cell noNotebooks
        (withPromptContext (addSummaryToHistory "S1" "p2" (promptContext midTurn)) midTurn)
      = Normal info →
      allRounds (promptContext (props info))
      = [plainRound "r1"; plainRound "r2"; plainRound "p1"]
        ++ withSummary "S1" (plainRound "p2") :: kept →
      verbatimRounds (ConversationHistory_render (props info)) = kept
      ∧ summaryTexts (ConversationHistory_render (props info)) = ["S1"].
Proof.
  apply (render_after_install run_notebook_cell noNotebooks midTurn "S1" "p2"
           [plainRound "r1"; plainRound "r2"; plainRound "p1"] (plainRound "p2")
           [plainRound "p3"]).
  - discriminate.
  - reflexivity.
  - reflexivity.
  - repeat constructor.
Defined.

(** C5, as stated, fails: an empty summary text installed on [r1] does not
    count as a summary, so [r1] is still shown verbatim and no summary text
    stands in for it, before and after selection. *)
Lemma empty_summary_is_no_cap :
  allRounds (addSummaryToHistory "" "r1" (promptContext oneTurn))
  = [withSummary "" (plainRound "r1")]
  ∧ verbatimRounds
      (ConversationHistory_render
         (withPromptContext (addSummaryToHistory "" "r1" (promptContext oneTurn)) oneTurn))
    = [withSummary "" (plainRound "r1")]
  ∧ summaryTexts
      (ConversationHistory_render
         (withPromptContext (addSummaryToHistory "" "r1" (promptContext oneTurn)) oneTurn))
    = []
  ∧ ∃ info,
      getProps run_notebook_cell noNotebooks
        (withPromptContext (addSummaryToHistory "" "r1" (promptContext oneTurn)) oneTurn)
      = Normal info
      ∧ verbatimRounds (ConversationHistory_render (props info))
        = [withSummary "" (plainRound "r1")]
      ∧ summaryTexts (ConversationHistory_render (props info)) = [].
Proof. split_and!; [done..|]. eexists. split_and!; [vm_compute; reflexivity|done..]. Qed.

(** Why the amended C5 asks that no later round carries a summary: with
    [S1] installed on [r1] while the later [r2] is summarized, the text shown
    is the one of [r2]. *)
Example later_summary_wins :
  summaryTexts
    (ConversationHistory_render
       (withPromptContext (addSummaryToHistory "S1" "r1" (promptContext laterSummary))
          laterSummary))
  = ["old"].
Proof. reflexivity. Qed.

(** Why the amended C5 asks that selection keeps [R]: with [S1] installed on
    the last pending round [p2], selection drops [p2], and the history built
    from the selection shows [r1] and [p1] verbatim and no summary. *)
Example dropped_summary_is_not_seen :
  ∃ info,
    getProps run_notebook_cell noNotebooks
      (withPromptContext (addSummaryToHistory "S1" "p2" (promptContext twoPending)) twoPending)
    = Normal info
    ∧ verbatimRounds (ConversationHistory_render (props info))
      = [plainRound "r1"; plainRound "p1"]
    ∧ summaryTexts (ConversationHistory_render (props info)) = [].
Proof. eexists. split_and!; [vm_compute; reflexivity|done..]. Qed.

(** ** Telemetry *)

(** X1. When a pending round carries a summary, the measurement is the number
    of pending rounds after the last such round, as worded. *)
Lemma numRoundsSinceLastSummarization_pending ctx rs i round :
  toolCallRounds ctx = Some rs →
  js_find summarized (reverse rs) = Some (i, round) →
  numRoundsSinceLastSummarization ctx = Z.of_nat i
  ∧ roundsSinceLastSummary ctx = Some i.
Proof.
  intros Hrs Hfind. unfold numRoundsSinceLastSummarization, roundsSinceLastSummary, allRounds.
  rewrite Hrs. simpl. unfold js_findIndex.
  change (λ round0 : IToolCallRound, truthy (round_summary round0)) with summarized.
  rewrite Hfind, bool_decide_eq_false_2 by lia. split; [done|].
  rewrite reverse_app.
  apply js_find_Some in Hfind as (front & back & -> & <- & Hfront & Hround).
  rewrite <- (assoc_L (++)). simpl.
  induction Hfront as [|r front Hr _ IH]; simpl.
  - by rewrite Hround.
  - by rewrite Hr, IH.
Qed.

Lemma numRoundsSinceLastSummarization_pending_witness :
  numRoundsSinceLastSummarization summaryPending = Z.of_nat 2
  ∧ roundsSinceLastSummary summaryPending = Some 2%nat.
Proof.
  apply (numRoundsSinceLastSummarization_pending summaryPending
           [summarizedRound "p1" "s"; plainRound "p2"; plainRound "p3"] 2
           (summarizedRound "p1" "s")).
  - reflexivity.
  - reflexivity.
Defined.

(** C8 fails on the code.  With a summarized round in each of two past
    turns, [a, a2] and [b, c], one round ([c]) follows the most recent
    summarized round ([b]), but the emitted measurement is 2: the [break]
    leaves only the inner loop, and the scan goes on into the older turn. *)
Theorem numRoundsSinceLastSummarization_overcounts :
  numRoundsSinceLastSummarization twoSummarizedTurns = 2
  ∧ roundsSinceLastSummary twoSummarizedTurns = Some 1%nat
  ∧ verbatimRounds (ConversationHistory_render (sampleProps twoSummarizedTurns))
    = [plainRound "c"].
Proof. done. Qed.


(** ** More on telemetry *)

Lemma foldl_add_round_counts (turns : list Turn) (a : Z) :
  foldl Z.add a ((λ turn, Z.of_nat (length (rounds turn))) <$> turns)
  = a + Z.of_nat (length (turns ≫= rounds)).
Proof.
  revert a. induction turns as [|turn turns IH]; intros a.
  - simpl. lia.
  - rewrite fmap_cons, bind_cons, length_app. simpl. rewrite IH. lia.
Qed.

(** X2. [numRounds] counts every round of the conversation once: the rounds of
    all past turns and the pending rounds. *)
Theorem numRounds_counts_all_rounds ctx :
  numRounds ctx = Z.of_nat (length (allRounds ctx)).
Proof.
  unfold numRounds, numRoundsInCurrentTurn, allRounds.
  rewrite foldl_add_round_counts, length_app. lia.
Qed.

(** The inner loop of the scan on rounds without a summary: all are counted
    and the measurement is left alone. *)
Lemma scanRoundsBackward_none reversed count n :
  Forall (λ r, summarized r = false) reversed →
  scanRoundsBackward reversed count n = (count + Z.of_nat (length reversed), n).
Proof.
  intros Hnone. revert count.
  induction Hnone as [|r older Hr _ IH]; intros count; simpl.
  - f_equal. lia.
  - unfold summarized in Hr. rewrite Hr, IH. f_equal. lia.
Qed.

(** The inner loop stops at the first round with a summary and records the
    rounds counted so far. *)
Lemma scanRoundsBackward_stop newer round older count n :
  Forall (λ r, summarized r = false) newer → summarized round = true →
  scanRoundsBackward (newer ++ round :: older) count n
  = (count + Z.of_nat (length newer), count + Z.of_nat (length newer)).
Proof.
  intros Hnewer Hround. revert count.
  induction Hnewer as [|r newer Hr _ IH]; intros count; simpl.
  - unfold summarized in Hround. rewrite Hround. f_equal; lia.
  - unfold summarized in Hr. rewrite Hr, IH. f_equal; lia.
Qed.

(** Either no round of the array carries a summary, or it splits at the
    first one that does. *)
Lemma first_summarized (reversed : list IToolCallRound) :
  Forall (λ r, summarized r = false) reversed
  ∨ ∃ newer round older,
      reversed = newer ++ round :: older
      ∧ Forall (λ r, summarized r = false) newer ∧ summarized round = true.
Proof.
  destruct (js_find summarized reversed) as [[i round]|] eqn:Hfind.
  - right. apply js_find_Some in Hfind as (newer & older & -> & _ & Hnewer & Hround).
    by exists newer, round, older.
  - left. by apply js_find_None.
Qed.

Lemma length_bind_reverse (turns : list Turn) :
  length (reverse turns ≫= rounds) = length (turns ≫= rounds).
Proof.
  induction turns as [|turn turns IH]; [done|].
  rewrite reverse_cons, bind_app, bind_singleton, bind_cons, !length_app. lia.
Qed.

(** Where the outer loop leaves the measurement: untouched when no turn has
    a summary, and otherwise at a count of rounds seen, which stays below
    the number of rounds available. *)
Lemma scanTurnsBackward_range reversed count n :
  (Forall (λ r, summarized r = false) (reversed ≫= rounds)
   ∧ scanTurnsBackward reversed count n = n)
  ∨ (¬ Forall (λ r, summarized r = false) (reversed ≫= rounds)
     ∧ (count ≤ scanTurnsBackward reversed count n
        < count + Z.of_nat (length (reversed ≫= rounds)))%Z).
Proof.
  revert count n. induction reversed as [|turn older IH]; intros count n; [by left|].
  rewrite bind_cons, length_app. simpl.
  destruct (first_summarized (reverse (rounds turn)))
    as [Hnone|(newer & round & rest & Hsplit & Hnewer & Hround)].
  - rewrite scanRoundsBackward_none by done. rewrite length_reverse.
    destruct (IH (count + Z.of_nat (length (rounds turn))) n) as [[Holder ->]|[Holder Hrange]].
    + left. split; [|done]. apply Forall_app. split; [|done]. by apply Forall_reverse.
    + right. split; [|lia]. by intros [_ ?]%Forall_app.
  - rewrite Hsplit, scanRoundsBackward_stop by done.
    assert (Hlen : length (rounds turn) = (length newer + S (length rest))%nat).
    { by rewrite <- length_reverse, Hsplit, length_app. }
    assert (Hturn : ¬ Forall (λ r, summarized r = false) (rounds turn)).
    { intros Hall. apply Forall_reverse in Hall. rewrite Hsplit in Hall.
      apply Forall_app in Hall as [_ Hall]. apply Forall_cons in Hall as [Hall _].
      congruence. }
    right. split; [by intros [? _]%Forall_app|].
    destruct (IH (count + Z.of_nat (length newer)) (count + Z.of_nat (length newer)))
      as [[_ ->]|[_ Hrange]]; lia.
Qed.

(** X3. The measurement [numRoundsSinceLastSummarization] is [-1] exactly when no
    round of the conversation carries a summary; otherwise it is at least 0
    and below the number of rounds [numRounds] reports. *)
Theorem numRoundsSinceLastSummarization_range ctx :
  (numRoundsSinceLastSummarization ctx = -1
   ↔ Forall (λ r, summarized r = false) (allRounds ctx))
  ∧ (-1 ≤ numRoundsSinceLastSummarization ctx)%Z
  ∧ (numRoundsSinceLastSummarization ctx ≠ -1 →
     (0 ≤ numRoundsSinceLastSummarization ctx < numRounds ctx)%Z).
Proof.
  assert (Hnum : numRounds ctx = Z.of_nat (length (allRounds ctx))).
  { unfold numRounds, numRoundsInCurrentTurn, allRounds.
    rewrite foldl_add_round_counts, length_app. lia. }
  rewrite Hnum. clear Hnum.
  unfold numRoundsSinceLastSummarization, numRoundsInCurrentTurn, allRounds, js_findIndex.
  change (λ round : IToolCallRound, truthy (round_summary round)) with summarized.
  set (pending := default [] (toolCallRounds ctx)).
  rewrite length_app, Forall_app.
  destruct (js_find summarized (reverse pending)) as [[i round]|] eqn:Hfind.
  - rewrite bool_decide_eq_false_2 by lia.
    apply js_find_Some in Hfind as (newer & older & Hsplit & <- & Hnewer & Hround).
    assert (Hlen : length pending = (length newer + S (length older))%nat).
    { by rewrite <- length_reverse, Hsplit, length_app. }
    split_and!; [|lia|lia].
    split; [lia|]. intros [_ Hall]. apply Forall_reverse in Hall. rewrite Hsplit in Hall.
    apply Forall_app in Hall as [_ Hall]. apply Forall_cons in Hall as [Hall _]. congruence.
  - rewrite bool_decide_eq_true_2 by done.
    apply js_find_None in Hfind. rewrite Forall_reverse in Hfind.
    pose proof (length_bind_reverse (history ctx)) as Hlen.
    assert (Hall : Forall (λ r, summarized r = false) (reverse (history ctx) ≫= rounds)
                   ↔ Forall (λ r, summarized r = false) (history ctx ≫= rounds)).
    { by rewrite !Forall_bind, Forall_reverse. }
    destruct (scanTurnsBackward_range (reverse (history ctx)) (Z.of_nat (length pending)) (-1))
      as [[Hnone ->]|[Hsome Hrange]].
    + split_and!; [|lia|done]. split; [|done]. intros _. split; [|done]. by apply Hall.
    + split_and!; [|lia|lia]. split; [lia|]. intros [Hhist _]. exfalso. by apply Hsome, Hall.
Qed.


(** The outer loop of the scan on turns without summaries. *)
Lemma scanTurnsBackward_none reversed count n :
  Forall (λ r, summarized r = false) (reversed ≫= rounds) →
  scanTurnsBackward reversed count n = n.
Proof.
  intros Hnone.
  by destruct (scanTurnsBackward_range reversed count n) as [[_ ?]|[? _]].
Qed.

(** The outer loop passes over turns without summaries, counting their
    rounds. *)
Lemma scanTurnsBackward_skip newer reversed count n :
  Forall (λ r, summarized r = false) (newer ≫= rounds) →
  scanTurnsBackward (newer ++ reversed) count n
  = scanTurnsBackward reversed (count + Z.of_nat (length (newer ≫= rounds))) n.
Proof.
  revert count. induction newer as [|turn newer IH]; intros count Hnone.
  - simpl. f_equal. lia.
  - rewrite bind_cons in Hnone |- *. apply Forall_app in Hnone as [Hturn Hnewer].
    rewrite <- app_comm_cons. cbn [scanTurnsBackward].
    rewrite scanRoundsBackward_none by (by apply Forall_reverse).
    rewrite IH by done. rewrite length_reverse, length_app. f_equal. lia.
Qed.

Lemma roundsSkippedBackward_stop newer round older :
  Forall (λ r, summarized r = false) newer → summarized round = true →
  roundsSkippedBackward (newer ++ round :: older) = Some (length newer).
Proof.
  intros Hnewer Hround. induction Hnewer as [|r newer Hr _ IH]; simpl.
  - by rewrite Hround.
  - by rewrite Hr, IH.
Qed.

(** X4. When the summarized rounds of the past turns all lie in one turn and no
    pending round is summarized, [numRoundsSinceLastSummarization] is the
    number of rounds after the last summarized round: the rest of that
    turn, the newer turns and the pending rounds. *)
Theorem numRoundsSinceLastSummarization_one_summarized_turn
    ctx older turn newer front round back :
  Forall (λ r, summarized r = false) (default [] (toolCallRounds ctx)) →
  history ctx = older ++ turn :: newer →
  rounds turn = front ++ round :: back →
  summarized round = true →
  Forall (λ r, summarized r = false) back →
  Forall (λ r, summarized r = false) (newer ≫= rounds) →
  Forall (λ r, summarized r = false) (older ≫= rounds) →
  numRoundsSinceLastSummarization ctx
  = Z.of_nat (length back + length (newer ≫= rounds)
              + length (default [] (toolCallRounds ctx)))
  ∧ roundsSinceLastSummary ctx
    = Some (length back + length (newer ≫= rounds)
            + length (default [] (toolCallRounds ctx)))%nat.
Proof.
  intros Hpending Hhist Hrounds Hround Hback Hnewer Holder.
  set (pending := default [] (toolCallRounds ctx)) in *. split.
  - unfold numRoundsSinceLastSummarization, numRoundsInCurrentTurn, js_findIndex.
    change (λ round : IToolCallRound, truthy (round_summary round)) with summarized.
    fold pending.
    rewrite (proj2 (js_find_None summarized (reverse pending))) by (by apply Forall_reverse).
    rewrite bool_decide_eq_true_2 by done.
    rewrite Hhist, reverse_app, reverse_cons, <- (assoc_L (++)).
    rewrite scanTurnsBackward_skip
      by (apply Forall_bind; apply Forall_reverse; by apply Forall_bind).
    simpl. rewrite Hrounds, reverse_app, reverse_cons, <- (assoc_L (++)). simpl.
    rewrite scanRoundsBackward_stop by (by try apply Forall_reverse).
    rewrite scanTurnsBackward_none
      by (apply Forall_bind; apply Forall_reverse; by apply Forall_bind).
    rewrite length_bind_reverse, length_reverse. lia.
  - unfold roundsSinceLastSummary.
    assert (allRounds ctx
            = ((older ≫= rounds) ++ front)
              ++ round :: (back ++ (newer ≫= rounds) ++ pending)) as ->.
    { unfold allRounds. fold pending.
      rewrite Hhist, bind_app, bind_cons, Hrounds, <- !(assoc_L (++)). simpl.
      done. }
    rewrite reverse_app, reverse_cons, <- (assoc_L (++)). simpl.
    rewrite roundsSkippedBackward_stop; [|apply Forall_reverse|done].
    + rewrite length_reverse, !length_app. f_equal. lia.
    + by rewrite !Forall_app.
Qed.

Lemma numRoundsSinceLastSummarization_one_summarized_turn_witness :
  numRoundsSinceLastSummarization oneSummarizedTurn = 3
  ∧ roundsSinceLastSummary oneSummarizedTurn = Some 3%nat.
Proof.
  apply (numRoundsSinceLastSummarization_one_summarized_turn oneSummarizedTurn []
           (plainTurn "t1" [plainRound "r1"; summarizedRound "r2" "s"; plainRound "r3"])
           [plainTurn "t2" [plainRound "r4"]]
           [plainRound "r1"] (summarizedRound "r2" "s") [plainRound "r3"]).
  - repeat constructor.
  - reflexivity.
  - reflexivity.
  - reflexivity.
  - repeat constructor.
  - repeat constructor.
  - constructor.
Defined.


(** ** More on the history builder *)

(** What the backward scan returns: the rounds it passed carry no summary,
    and the array is those rounds followed by the summarized round it
    stopped at, if any, and the rounds it did not reach. *)
Lemma collectUntilSummary_split reversed :
  Forall (λ r, summarized r = false) (collectUntilSummary reversed).1
  ∧ match (collectUntilSummary reversed).2 with
    | Some round =>
        summarized round = true
        ∧ ∃ rest, reversed = (collectUntilSummary reversed).1 ++ round :: rest
    | None => reversed = (collectUntilSummary reversed).1
    end.
Proof.
  induction reversed as [|r older [IHnone IHsplit]]; simpl; [done|].
  destruct (truthy (round_summary r)) eqn:Hr; simpl.
  - split; [done|]. split; [done|]. by exists older.
  - destruct (collectUntilSummary older) as [pushed [round|]]; simpl in *.
    + destruct IHsplit as [Hround [rest ->]].
      split; [by constructor|]. split; [done|]. by exists rest.
    + split; [by constructor|]. by rewrite <- IHsplit.
Qed.

(** X5. [ConversationHistory.render] cuts the conversation in two: the rounds it
    shows verbatim are a suffix of all rounds, in order, and none of them
    carries a summary; what comes before is either nothing, and then no
    summary text is shown, or ends with a round that carries a summary, and
    then that round's text is the one summary text shown. *)
Theorem ConversationHistory_render_partition p :
  ∃ covered,
    allRounds (promptContext p) = covered ++ verbatimRounds (ConversationHistory_render p)
    ∧ Forall (λ r, summarized r = false) (verbatimRounds (ConversationHistory_render p))
    ∧ ((covered = [] ∧ summaryTexts (ConversationHistory_render p) = [])
       ∨ ∃ round text,
           last covered = Some round
           ∧ round_summary round = Some text ∧ text ≠ ""
           ∧ summaryTexts (ConversationHistory_render p) = [text]).
Proof.
  destruct (ConversationHistory_render_shows p) as [-> ->].
  destruct (collectUntilSummary_split (reverse (allRounds (promptContext p))))
    as [Hnone Hsplit].
  destruct (collectUntilSummary (reverse (allRounds (promptContext p))))
    as [pushed [round|]]; simpl in *.
  - destruct Hsplit as [Hround [rest Hrev]].
    exists (reverse rest ++ [round]). split_and!.
    + by rewrite <- (reverse_involutive (allRounds _)), Hrev, reverse_app, reverse_cons.
    + by apply Forall_reverse.
    + right. unfold summarized, truthy in Hround.
      destruct (round_summary round) as [text|] eqn:Htext; [|done].
      exists round, text. split_and!; [apply last_snoc|done| |done].
      intros ->. by rewrite bool_decide_eq_true_2 in Hround.
  - exists []. split_and!; [|by apply Forall_reverse|by left].
    by rewrite <- Hsplit, reverse_involutive.
Qed.

Lemma renderTurns_no_current_message p entries :
  AgentUserMessageFromProps ∉ renderTurns p entries.
Proof.
  induction entries as [|[i turn] older IH]; [by apply not_elem_of_nil|].
  simpl. unfold renderTurn.
  destruct (collectUntilSummary (reverse (rounds turn))) as [pushed [round|]]; simpl.
  - rewrite !not_elem_of_cons. split_and!; [done..|]. apply not_elem_of_nil.
  - rewrite !not_elem_of_cons. split_and!; done.
Qed.

(** X6. The user message of the request in progress is part of the history
    exactly when the continuation flag is not set and no pending round
    carries a summary. *)
Theorem current_user_message_shown p :
  AgentUserMessageFromProps ∈ ConversationHistory_render p
  ↔ jsTrue (isContinuation (promptContext p)) = false
    ∧ Forall (λ r, summarized r = false) (default [] (toolCallRounds (promptContext p))).
Proof.
  unfold ConversationHistory_render.
  pose proof (renderTurns_no_current_message p
                (reverse (imap pair (history (promptContext p))))) as Hturns.
  assert (Hrest : ∀ first : list PromptPiece,
    AgentUserMessageFromProps ∉ first →
    AgentUserMessageFromProps
      ∈ reverse (first ++ (if negb (jsTrue (isContinuation (promptContext p)))
                           then [AgentUserMessageFromProps] else [])
                 ++ renderTurns p (reverse (imap pair (history (promptContext p)))))
    ↔ jsTrue (isContinuation (promptContext p)) = false).
  { intros first Hfirst. rewrite elem_of_reverse, !elem_of_app.
    destruct (jsTrue (isContinuation (promptContext p))); simpl.
    - split; [|done]. intros [?|[?%elem_of_nil|?]]; done.
    - split; [done|]. intros _. right. left. by apply list_elem_of_singleton. }
  destruct (toolCallRounds (promptContext p)) as [rs|]; simpl.
  - case_bool_decide as Hlen.
    + destruct (collectUntilSummary_split (reverse rs)) as [Hnone Hsplit].
      destruct (collectUntilSummary (reverse rs)) as [pushed [round|]]; simpl in *.
      * destruct Hsplit as [Hround [rest Hrev]]. unfold summarized in Hround.
        rewrite Hround. split.
        -- rewrite elem_of_reverse. intros Hin.
           repeat (apply elem_of_cons in Hin as [Hin|Hin]; [done|]).
           by apply elem_of_nil in Hin.
        -- intros [_ Hall]. apply Forall_reverse in Hall. rewrite Hrev in Hall.
           apply Forall_app in Hall as [_ Hall]. apply Forall_cons in Hall as [Hall _].
           unfold summarized in Hall. congruence.
      * pose proof (Hrest [ChatToolCalls (reverse pushed) (toolCallResults (promptContext p))
                             false (maxToolResultLength p)]) as Hcur.
        simpl in Hcur. rewrite Hcur by (by rewrite list_elem_of_singleton).
        split; [|by intros [? _]]. intros Hcont. split; [done|].
        apply Forall_reverse. by rewrite Hsplit.
    + assert (rs = []) as -> by (destruct rs; simpl in *; [done|lia]).
      pose proof (Hrest []) as Hcur. simpl in *. rewrite Hcur by apply not_elem_of_nil.
      split; [done|]. by intros [? _].
  - pose proof (Hrest []) as Hcur. simpl in *. rewrite Hcur by apply not_elem_of_nil.
    split; [done|]. by intros [? _].
Qed.


Lemma userTurns_app pieces1 pieces2 :
  userTurns (pieces1 ++ pieces2) = userTurns pieces1 ++ userTurns pieces2.
Proof. apply bind_app. Qed.

(** The backward scan finds no summary exactly on rounds without one. *)
Lemma collectUntilSummary_None reversed :
  (collectUntilSummary reversed).2 = None ↔ Forall (λ r, summarized r = false) reversed.
Proof.
  destruct (collectUntilSummary_split reversed) as [Hnone Hsplit].
  destruct (collectUntilSummary reversed) as [pushed [round|]]; simpl in *.
  - destruct Hsplit as [Hround [rest ->]]. split; [done|].
    intros [_ Hall]%Forall_app. apply Forall_cons in Hall as [Hall _]. congruence.
  - by subst.
Qed.

(** The user messages the loop over the past turns contributes: those of
    the turns it visits before the first turn with a summarized round. *)
Lemma renderTurns_userTurns p entries1 entries2 :
  Forall (λ entry : nat * Turn, Forall (λ r, summarized r = false) (rounds entry.2)) entries1 →
  (entries2 = []
   ∨ ∃ i turn rest,
       entries2 = (i, turn) :: rest ∧ ¬ Forall (λ r, summarized r = false) (rounds turn)) →
  userTurns (reverse (renderTurns p (entries1 ++ entries2))) = reverse (snd <$> entries1).
Proof.
  intros Hnone Hstop. induction Hnone as [|[i turn] entries1 Hturn _ IH].
  - destruct Hstop as [->|(i & turn & rest & -> & Hturn)]; [done|].
    simpl. unfold renderTurn.
    destruct (collectUntilSummary (reverse (rounds turn))) as [pushed [round|]] eqn:Hscan.
    + by simpl.
    + exfalso. apply Hturn, Forall_reverse, collectUntilSummary_None. by rewrite Hscan.
  - simpl in *. unfold renderTurn.
    apply Forall_reverse, collectUntilSummary_None in Hturn.
    destruct (collectUntilSummary (reverse (rounds turn))) as [pushed found].
    simpl in Hturn. subst found. simpl.
    rewrite !reverse_cons, !userTurns_app, IH. simpl. by rewrite app_nil_r.
Qed.

(** X7. When a pending round carries a summary, the history shows no user
    message of a past turn. *)
Theorem summarized_pending_hides_past_messages p :
  ¬ Forall (λ r, summarized r = false) (default [] (toolCallRounds (promptContext p))) →
  userTurns (ConversationHistory_render p) = [].
Proof.
  unfold ConversationHistory_render. intros Hsome.
  destruct (toolCallRounds (promptContext p)) as [rs|]; simpl in *; [|by destruct Hsome].
  case_bool_decide as Hlen; [|destruct rs; simpl in *; [by destruct Hsome|lia]].
  destruct (collectUntilSummary (reverse rs)) as [pushed [round|]] eqn:Hscan; simpl.
  - apply collectUntilSummary_found in Hscan. unfold summarized in Hscan.
    by rewrite Hscan.
  - exfalso. apply Hsome, Forall_reverse, collectUntilSummary_None. by rewrite Hscan.
Qed.

Lemma summarized_pending_hides_past_messages_witness :
  userTurns (ConversationHistory_render (sampleProps summaryPending)) = [].
Proof.
  apply (summarized_pending_hides_past_messages (sampleProps summaryPending)).
  simpl. intros Hall. apply Forall_cons in Hall as [Hfirst _]. discriminate Hfirst.
Defined.

(** X8. Which past user messages the history shows when no pending round
    carries a summary: those of the newest turns up to, and not including,
    the newest turn that has a summarized round, oldest first; so all of
    them when no past turn has one. *)
Theorem past_user_messages_shown p older newer :
  Forall (λ r, summarized r = false) (default [] (toolCallRounds (promptContext p))) →
  history (promptContext p) = older ++ newer →
  Forall (λ r, summarized r = false) (newer ≫= rounds) →
  (older = []
   ∨ ∃ turn, last older = Some turn ∧ ¬ Forall (λ r, summarized r = false) (rounds turn)) →
  userTurns (ConversationHistory_render p) = newer.
Proof.
  unfold ConversationHistory_render.
  intros Hpending Hhist Hnewer Holder.
  assert (Hturns :
    userTurns (reverse (renderTurns p (reverse (imap pair (history (promptContext p))))))
    = newer).
  { rewrite Hhist, imap_app, reverse_app.
    rewrite renderTurns_userTurns.
    - rewrite fmap_reverse, reverse_involutive, fmap_imap.
      by rewrite (imap_ext _ (const id) newer), imap_const, list_fmap_id.
    - apply Forall_reverse, Forall_lookup. intros i [k turn] Hentry.
      rewrite list_lookup_imap in Hentry.
      destruct (newer !! i) as [turn'|] eqn:Hturn'; simpl in Hentry; [|done].
      injection Hentry as _ <-. apply Forall_bind in Hnewer.
      by apply (Forall_lookup_1 _ _ _ _ Hnewer Hturn').
    - destruct Holder as [->|(turn & Hlast & Hturn)]; [by left|right].
      apply last_Some in Hlast as [front ->].
      rewrite imap_app, reverse_app. simpl. eauto. }
  assert (Hscan : (collectUntilSummary
                     (reverse (default [] (toolCallRounds (promptContext p))))).2 = None).
  { by apply collectUntilSummary_None, Forall_reverse. }
  destruct (toolCallRounds (promptContext p)) as [rs|]; simpl in *.
  - case_bool_decide as Hlen.
    + destruct (collectUntilSummary (reverse rs)) as [pushed found].
      simpl in Hscan. subst found. simpl.
      rewrite reverse_cons, reverse_app, !userTurns_app, Hturns.
      destruct (jsTrue (isContinuation (promptContext p))); simpl; by rewrite !app_nil_r.
    + simpl. rewrite reverse_app, userTurns_app, Hturns.
      destruct (jsTrue (isContinuation (promptContext p))); simpl; by rewrite !app_nil_r.
  - rewrite reverse_app, userTurns_app, Hturns.
    destruct (jsTrue (isContinuation (promptContext p))); simpl; by rewrite !app_nil_r.
Qed.

Lemma past_user_messages_shown_witness :
  userTurns (ConversationHistory_render (sampleProps oneSummarizedTurn))
  = [plainTurn "t2" [plainRound "r4"]].
Proof.
  apply (past_user_messages_shown (sampleProps oneSummarizedTurn)
           [plainTurn "t1" [plainRound "r1"; summarizedRound "r2" "s"; plainRound "r3"]]
           [plainTurn "t2" [plainRound "r4"]]).
  - repeat constructor.
  - reflexivity.
  - repeat constructor.
  - right. eexists. split; [reflexivity|]. simpl. intros Hall.
    apply Forall_cons in Hall as [_ Hall]. apply Forall_cons in Hall as [Hsecond _].
    discriminate Hsecond.
Defined.


(** ** More on round selection *)

Lemma last_bind_rounds (turns : list Turn) turn round :
  last turns = Some turn → last (rounds turn) = Some round →
  last (turns ≫= rounds) = Some round.
Proof.
  intros [front ->]%last_Some [before Hrounds]%last_Some.
  rewrite bind_app, bind_singleton, Hrounds, (assoc_L (++)). apply last_snoc.
Qed.

(** What [getProps] returns, by branch. *)
Lemma getProps_Normal_cases RunNotebookCell services p info :
  getProps RunNotebookCell services p = Normal info →
  ∃ notebook,
    (∃ front r dropped,
       toolCallRounds (promptContext p) = Some (front ++ [r] ++ [dropped])
       ∧ info = selected p (front ++ [r]) (isContinuation (promptContext p)) (round_id r)
                  notebook)
    ∨ ((length (default [] (toolCallRounds (promptContext p))) ≤ 1)%nat
       ∧ ∃ turn r,
           last (history (promptContext p)) = Some turn ∧ last (rounds turn) = Some r
           ∧ info = selected p [] (Some true) (round_id r) notebook).
Proof.
  intros Hinfo.
  destruct (decide (2 ≤ length (default [] (toolCallRounds (promptContext p))))%nat) as [Hp|Hp].
  - destruct (toolCallRounds (promptContext p)) as [rs|] eqn:Hrs; simpl in Hp; [|lia].
    destruct (snoc_of_length rs) as (kept & dropped & ->); [lia|].
    rewrite length_app in Hp. simpl in Hp.
    destruct (snoc_of_length kept) as (front & r & ->); [lia|].
    destruct (getProps_multiple RunNotebookCell services p front r dropped) as [notebook Hsel];
      [by rewrite Hrs, (assoc_L (++))|].
    rewrite Hsel in Hinfo. injection Hinfo as <-.
    exists notebook. left. exists front, r, dropped. by rewrite (assoc_L (++)).
  - destruct (getProps_fallback RunNotebookCell services p) as [notebook Hsel]; [lia|].
    rewrite Hsel in Hinfo. exists notebook. right. split; [lia|].
    case_bool_decide; [|done]. unfold at_m1 in Hinfo.
    destruct (last (history (promptContext p))) as [turn|]; simpl in Hinfo; [|done].
    destruct (last (rounds turn)) as [r|] eqn:Hr; simpl in Hinfo; [|done].
    injection Hinfo as <-. by exists turn, r.
Qed.

(** X9. Whenever [getProps] returns, the round it covers is the newest round of
    the conversation it selected: the last pending round kept, or the last
    round of the last turn when no pending round is kept.  Selection changes
    only the pending rounds, the continuation flag and the notebook: the
    history, the tool results (also those of a dropped round) and all other
    props are passed through. *)
Theorem getProps_covers_newest_selected RunNotebookCell services p info :
  getProps RunNotebookCell services p = Normal info →
  (∃ round,
     last (allRounds (promptContext (props info))) = Some round
     ∧ summarizedToolCallRoundId info = round_id round)
  ∧ history (promptContext (props info)) = history (promptContext p)
  ∧ toolCallResults (promptContext (props info)) = toolCallResults (promptContext p)
  ∧ conversation (promptContext (props info)) = conversation (promptContext p)
  ∧ priority (props info) = priority p
  ∧ endpoint_model (props info) = endpoint_model p
  ∧ triggerSummarize (props info) = triggerSummarize p
  ∧ enableCacheBreakpoints (props info) = enableCacheBreakpoints p
  ∧ maxToolResultLength (props info) = maxToolResultLength p.
Proof.
  intros [notebook [(front & r & dropped & Hrs & ->)|(_ & turn & r & Hturn & Hr & ->)]]
    %getProps_Normal_cases.
  - split_and!; try done. exists r. split; [|done].
    unfold allRounds. simpl. rewrite (assoc_L (++)). apply last_snoc.
  - split_and!; try done. exists r. split; [|done].
    unfold allRounds. simpl. rewrite app_nil_r. by apply (last_bind_rounds _ turn).
Qed.

Lemma getProps_covers_newest_selected_witness :
  let info := selected midTurn [plainRound "p1"; plainRound "p2"] None "p2" None in
  (∃ round,
     last (allRounds (promptContext (props info))) = Some round
     ∧ summarizedToolCallRoundId info = round_id round)
  ∧ history (promptContext (props info)) = history (promptContext midTurn)
  ∧ toolCallResults (promptContext (props info)) = toolCallResults (promptContext midTurn)
  ∧ conversation (promptContext (props info)) = conversation (promptContext midTurn)
  ∧ priority (props info) = priority midTurn
  ∧ endpoint_model (props info) = endpoint_model midTurn
  ∧ triggerSummarize (props info) = triggerSummarize midTurn
  ∧ enableCacheBreakpoints (props info) = enableCacheBreakpoints midTurn
  ∧ maxToolResultLength (props info) = maxToolResultLength midTurn.
Proof.
  apply (getProps_covers_newest_selected run_notebook_cell noNotebooks midTurn
           (selected midTurn [plainRound "p1"; plainRound "p2"] None "p2" None)).
  reflexivity.
Defined.

(** X10. When at most one round is pending, the history built for the
    summarization leaves out the user message of the request in progress and
    the pending round: the rounds it shows verbatim are a suffix of the
    rounds of the past turns. *)
Theorem fallback_selection_leaves_out_request RunNotebookCell services p info :
  (length (default [] (toolCallRounds (promptContext p))) ≤ 1)%nat →
  getProps RunNotebookCell services p = Normal info →
  (AgentUserMessageFromProps ∉ ConversationHistory_render (props info))
  ∧ ∃ covered,
      history (promptContext p) ≫= rounds
      = covered ++ verbatimRounds (ConversationHistory_render (props info)).
Proof.
  intros Hle [notebook [(front & r & dropped & Hrs & ->)|(_ & turn & r & Hturn & Hr & ->)]]
    %getProps_Normal_cases.
  { rewrite Hrs in Hle. simpl in Hle. rewrite !length_app in Hle. simpl in Hle. lia. }
  split.
  - unfold ConversationHistory_render. simpl.
    rewrite elem_of_reverse. apply renderTurns_no_current_message.
  - destruct (ConversationHistory_render_shows (props (selected p [] (Some true) (round_id r)
                                                          notebook))) as [-> _].
    unfold allRounds. simpl. rewrite app_nil_r.
    destruct (collectUntilSummary_split (reverse (history (promptContext p) ≫= rounds)))
      as [_ Hsplit].
    destruct (collectUntilSummary (reverse (history (promptContext p) ≫= rounds)))
      as [pushed [round|]]; simpl in *.
    + destruct Hsplit as [_ [rest Hrev]]. exists (reverse rest ++ [round]).
      by rewrite <- (reverse_involutive (_ ≫= _)), Hrev, reverse_app, reverse_cons.
    + exists []. by rewrite <- Hsplit, reverse_involutive.
Qed.

Lemma fallback_selection_leaves_out_request_witness :
  let info := selected oneTurn [] (Some true) "r1" None in
  (AgentUserMessageFromProps ∉ ConversationHistory_render (props info))
  ∧ ∃ covered,
      history (promptContext oneTurn) ≫= rounds
      = covered ++ verbatimRounds (ConversationHistory_render (props info)).
Proof.
  apply (fallback_selection_leaves_out_request run_notebook_cell noNotebooks oneTurn
           (selected oneTurn [] (Some true) "r1" None)).
  - simpl. lia.
  - reflexivity.
Defined.

Lemma renderTurns_ext p p' entries :
  promptContext p = promptContext p' → maxToolResultLength p = maxToolResultLength p' →
  renderTurns p entries = renderTurns p' entries.
Proof.
  intros Hctx Hlen. induction entries as [|[i turn] older IH]; [done|].
  simpl. unfold renderTurn. by rewrite Hctx, Hlen, IH.
Qed.

(** The history depends on the props only through the prompt context and the
    truncation length. *)
Lemma ConversationHistory_render_ext p p' :
  promptContext p = promptContext p' → maxToolResultLength p = maxToolResultLength p' →
  ConversationHistory_render p = ConversationHistory_render p'.
Proof.
  intros Hctx Hlen. unfold ConversationHistory_render.
  rewrite (renderTurns_ext p p') by done. by rewrite Hctx, Hlen.
Qed.

(** X11. With two or more rounds pending, the content of the last pending round
    does not reach the summarization prompt except through the notebook
    attachment: two props that differ only in that round get the same
    covered-round id, the same selected context and the same history, and
    the same prompt when the same notebook is attached. *)
Theorem dropped_round_only_reaches_notebook
    RunNotebookCell services p p' kept dropped dropped' info info' :
  toolCallRounds (promptContext p) = Some (kept ++ [dropped]) →
  toolCallRounds (promptContext p') = Some (kept ++ [dropped']) →
  (1 ≤ length kept)%nat →
  history (promptContext p) = history (promptContext p') →
  toolCallResults (promptContext p) = toolCallResults (promptContext p') →
  isContinuation (promptContext p) = isContinuation (promptContext p') →
  conversation (promptContext p) = conversation (promptContext p') →
  maxToolResultLength p = maxToolResultLength p' →
  priority p = priority p' →
  getProps RunNotebookCell services p = Normal info →
  getProps RunNotebookCell services p' = Normal info' →
  summarizedToolCallRoundId info = summarizedToolCallRoundId info'
  ∧ promptContext (props info) = promptContext (props info')
  ∧ ConversationHistory_render (props info) = ConversationHistory_render (props info')
  ∧ (workingNotebook (props info) = workingNotebook (props info') →
     ConversationHistorySummarizationPrompt_render (props info)
     = ConversationHistorySummarizationPrompt_render (props info')).
Proof.
  intros Hrs Hrs' Hkept Hhist Hresults Hcont Hconv Hlen Hprio Hinfo Hinfo'.
  destruct (snoc_of_length kept) as (front & r & ->); [done|].
  destruct (getProps_multiple RunNotebookCell services p front r dropped) as [notebook Hsel];
    [by rewrite Hrs, (assoc_L (++))|].
  destruct (getProps_multiple RunNotebookCell services p' front r dropped')
    as [notebook' Hsel']; [by rewrite Hrs', (assoc_L (++))|].
  rewrite Hsel in Hinfo. rewrite Hsel' in Hinfo'.
  injection Hinfo as <-. injection Hinfo' as <-.
  assert (Hctx : promptContext (props (selected p (front ++ [r])
                   (isContinuation (promptContext p)) (round_id r) notebook))
                 = promptContext (props (selected p' (front ++ [r])
                     (isContinuation (promptContext p')) (round_id r) notebook'))).
  { simpl. by rewrite Hhist, Hresults, Hcont, Hconv. }
  assert (Hrender : ConversationHistory_render (props (selected p (front ++ [r])
                      (isContinuation (promptContext p)) (round_id r) notebook))
                    = ConversationHistory_render (props (selected p' (front ++ [r])
                        (isContinuation (promptContext p')) (round_id r) notebook'))).
  { by apply ConversationHistory_render_ext. }
  split_and!; [done..|].
  intros Hnotebook. unfold ConversationHistorySummarizationPrompt_render.
  rewrite Hrender, Hnotebook. simpl. by rewrite Hprio.
Qed.

Lemma dropped_round_only_reaches_notebook_witness :
  let info := selected twoPending [plainRound "p1"] None "p1" None in
  let info' := selected twoPendingNotebook [plainRound "p1"] None "p1" (Some openNotebook) in
  summarizedToolCallRoundId info = summarizedToolCallRoundId info'
  ∧ promptContext (props info) = promptContext (props info')
  ∧ ConversationHistory_render (props info) = ConversationHistory_render (props info')
  ∧ (workingNotebook (props info) = workingNotebook (props info') →
     ConversationHistorySummarizationPrompt_render (props info)
     = ConversationHistorySummarizationPrompt_render (props info')).
Proof.
  apply (dropped_round_only_reaches_notebook run_notebook_cell oneNotebook
           twoPending twoPendingNotebook [plainRound "p1"] (plainRound "p2")
           (notebookRound "p2")).
  - reflexivity.
  - reflexivity.
  - simpl. lia.
  - reflexivity.
  - reflexivity.
  - reflexivity.
  - reflexivity.
  - reflexivity.
  - reflexivity.
  - reflexivity.
  - vm_compute. reflexivity.
Defined.


(** ** More on the history patcher *)

Lemma js_find_lookup {A} (p : A → bool) (l : list A) i x :
  js_find p l = Some (i, x) → l !! i = Some x ∧ p x = true.
Proof.
  intros (front & back & -> & <- & _ & Hx)%js_find_Some.
  split; [|done]. by apply list_lookup_middle.
Qed.

(** Replacing an element that does not qualify by another that does not
    qualify changes nothing for [find]. *)
Lemma js_find_insert_false {A} (p : A → bool) (l : list A) j x x' :
  l !! j = Some x → p x = false → p x' = false →
  js_find p (<[j := x']> l) = js_find p l.
Proof.
  revert j. induction l as [|y l IH]; intros j Hj Hx Hx'; [done|].
  destruct j as [|j]; simpl in Hj.
  - injection Hj as ->. change (<[0%nat := x']> (x :: l)) with (x' :: l).
    by rewrite !js_find_cons, Hx, Hx'.
  - change (<[S j := x']> (y :: l)) with (y :: <[j := x']> l).
    rewrite !js_find_cons. by rewrite (IH j).
Qed.

Lemma withRounds_withRounds rs rs' turn :
  withRounds rs (withRounds rs' turn) = withRounds rs turn.
Proof. done. Qed.

Section Overwrite.
Variable summary1 summary2 toolCallRoundId : string.

Lemma addSummaryToTurns_overwrite reversed :
  addSummaryToTurns summary2 toolCallRoundId
    (addSummaryToTurns summary1 toolCallRoundId reversed)
  = addSummaryToTurns summary2 toolCallRoundId reversed.
Proof.
  induction reversed as [|turn older IH]; [done|]. simpl.
  destruct (find_round_cases toolCallRoundId (rounds turn))
    as [(front & r & back & Hrounds & Hfront & Hr & Hfind)|[Hnone Hfind]]; rewrite Hfind.
  - simpl. rewrite Hrounds, insert_middle_length, find_patched by done.
    by rewrite !insert_middle_length.
  - simpl. by rewrite Hfind, IH.
Qed.

(** X12. Installing a summary for a round id replaces whatever summary an earlier
    installation for the same id left: only the last text counts. *)
Theorem addSummaryToHistory_last_write_wins ctx :
  addSummaryToHistory summary2 toolCallRoundId
    (addSummaryToHistory summary1 toolCallRoundId ctx)
  = addSummaryToHistory summary2 toolCallRoundId ctx.
Proof.
  unfold addSummaryToHistory.
  destruct (toolCallRounds ctx) as [rs|] eqn:Hrs; simpl.
  - destruct (find_round_cases toolCallRoundId rs)
      as [(front & r & back & -> & Hfront & Hr & Hfind)|[Hnone Hfind]]; rewrite Hfind; simpl.
    + rewrite insert_middle_length, find_patched by done. simpl.
      by rewrite !insert_middle_length.
    + rewrite ?Hrs. simpl. rewrite Hfind. simpl.
      by rewrite reverse_involutive, addSummaryToTurns_overwrite.
  - rewrite ?Hrs. simpl. by rewrite reverse_involutive, addSummaryToTurns_overwrite.
Qed.
End Overwrite.

Section Commute.
Variable summary1 summary2 id1 id2 : string.
Hypothesis Hids : id1 ≠ id2.

(** Writing the summary for one id does not move or change what [find]
    returns for another id. *)
Lemma js_find_other_id summary ida idb rs i r :
  ida ≠ idb →
  js_find (hasId idb) rs = Some (i, r) →
  js_find (hasId ida) (<[i := withSummary summary r]> rs) = js_find (hasId ida) rs.
Proof.
  intros Hne [Hi Hr]%js_find_lookup. apply bool_decide_eq_true in Hr.
  apply (js_find_insert_false _ _ _ r); [done|..];
    apply bool_decide_eq_false; simpl; congruence.
Qed.

Lemma patches_commute rs i1 r1 i2 r2 :
  js_find (hasId id1) rs = Some (i1, r1) →
  js_find (hasId id2) rs = Some (i2, r2) →
  <[i1 := withSummary summary1 r1]> (<[i2 := withSummary summary2 r2]> rs)
  = <[i2 := withSummary summary2 r2]> (<[i1 := withSummary summary1 r1]> rs).
Proof.
  intros [Hi1 Hr1]%js_find_lookup [Hi2 Hr2]%js_find_lookup.
  apply bool_decide_eq_true in Hr1, Hr2.
  apply list_insert_insert_ne. intros ->. congruence.
Qed.

Lemma addSummaryToTurns_commute reversed :
  addSummaryToTurns summary1 id1 (addSummaryToTurns summary2 id2 reversed)
  = addSummaryToTurns summary2 id2 (addSummaryToTurns summary1 id1 reversed).
Proof.
  induction reversed as [|turn older IH]; [done|]. simpl.
  destruct (js_find (hasId id1) (rounds turn)) as [[i1 r1]|] eqn:Hfind1;
    destruct (js_find (hasId id2) (rounds turn)) as [[i2 r2]|] eqn:Hfind2; simpl.
  - rewrite (js_find_other_id summary2 id1 id2) by done.
    rewrite (js_find_other_id summary1 id2 id1) by done.
    rewrite Hfind1, Hfind2, !withRounds_withRounds.
    by rewrite (patches_commute _ i1 r1 i2 r2).
  - rewrite (js_find_other_id summary1 id2 id1) by done.
    by rewrite Hfind1, Hfind2.
  - rewrite (js_find_other_id summary2 id1 id2) by done.
    by rewrite Hfind1, Hfind2.
  - by rewrite Hfind1, Hfind2, IH.
Qed.

(** X13. Installations for different round ids do not interfere: in either order
    they leave the same context. *)
Theorem addSummaryToHistory_commute ctx :
  addSummaryToHistory summary1 id1 (addSummaryToHistory summary2 id2 ctx)
  = addSummaryToHistory summary2 id2 (addSummaryToHistory summary1 id1 ctx).
Proof.
  unfold addSummaryToHistory.
  destruct (toolCallRounds ctx) as [rs|] eqn:Hrs; simpl.
  - destruct (js_find (hasId id1) rs) as [[i1 r1]|] eqn:Hfind1;
      destruct (js_find (hasId id2) rs) as [[i2 r2]|] eqn:Hfind2; simpl.
    + rewrite (js_find_other_id summary2 id1 id2) by done.
      rewrite (js_find_other_id summary1 id2 id1) by done.
      rewrite Hfind1, Hfind2. simpl.
      by rewrite (patches_commute _ i1 r1 i2 r2).
    + rewrite ?Hrs. simpl. rewrite (js_find_other_id summary1 id2 id1) by done.
      by rewrite Hfind1, Hfind2.
    + rewrite ?Hrs. simpl. rewrite (js_find_other_id summary2 id1 id2) by done.
      by rewrite Hfind1, Hfind2.
    + rewrite ?Hrs. simpl. rewrite Hfind1, Hfind2. simpl.
      by rewrite !reverse_involutive, addSummaryToTurns_commute.
  - rewrite ?Hrs. simpl. by rewrite !reverse_involutive, addSummaryToTurns_commute.
Qed.
End Commute.

Lemma addSummaryToHistory_commute_witness :
  addSummaryToHistory "S1" "p1" (addSummaryToHistory "S2" "p2" (promptContext midTurn))
  = addSummaryToHistory "S2" "p2" (addSummaryToHistory "S1" "p1" (promptContext midTurn)).
Proof.
  apply (addSummaryToHistory_commute "S1" "S2" "p1" "p2").
  discriminate.
Defined.


(** ** More on the executor *)

Section ExecutorMore.
Variable RunNotebookCell : string.
Variable builderServices : BuilderServices.
Variable services : ExecutorServices.
Variable sizing : PromptSizing.
Variable progress : bool.

(** The world a successful attempt leaves. *)
Lemma summarizeHistory_success w info messages stripped value requestId tokens :
  getProps RunNotebookCell builderServices (w_props w) = Normal info →
  renderPromptElement services (props info) = Normal messages →
  stripInternalToolCallIds services messages = Normal stripped →
  makeChatRequest services stripped = Normal (Normal (ResponseSuccess value requestId)) →
  countTokens sizing value = Normal tokens →
  (tokens ≤ tokenBudget sizing)%Z →
  ∃ effects,
    summarizeHistory RunNotebookCell builderServices services sizing progress w
    = (Normal (Some {| res_summary := value;
                       res_toolCallRoundId := summarizedToolCallRoundId info |}),
       {| w_props :=
            withPromptContext
              (addSummaryToHistory value (summarizedToolCallRoundId info)
                 (promptContext (w_props w)))
              (w_props w);
          w_effects := effects |}).
Proof.
  intros Hinfo Hrender Hstrip Hrequest Htokens Hfits.
  unfold summarizeHistory. run_M. rewrite Hinfo, Hrender. simpl.
  rewrite Hstrip. simpl. rewrite Hrequest.
  destruct progress; simpl; rewrite Htokens; simpl;
    rewrite bool_decide_eq_false_2 by lia; simpl; by eexists.
Qed.


(** X15. A compaction in the middle of a turn, end to end.  Two or more rounds
    are pending, the second-to-last is the first with its id, the last
    carries no summary, and the endpoint answers with a non-empty summary
    within budget.  Then [SummarizedConversationHistory.render] returns the
    metadata for the second-to-last round and a history that consists of the
    new summary followed by the last pending round alone; the summary sits
    on the second-to-last round and the past turns are untouched. *)
Theorem render_after_compaction_in_turn
    w front r dropped info messages stripped value requestId tokens :
  jsTrue (triggerSummarize (w_props w)) = true →
  toolCallRounds (promptContext (w_props w)) = Some (front ++ [r] ++ [dropped]) →
  Forall (otherId (round_id r)) front →
  summarized dropped = false →
  getProps RunNotebookCell builderServices (w_props w) = Normal info →
  renderPromptElement services (props info) = Normal messages →
  stripInternalToolCallIds services messages = Normal stripped →
  makeChatRequest services stripped = Normal (Normal (ResponseSuccess value requestId)) →
  value ≠ "" →
  countTokens sizing value = Normal tokens →
  (tokens ≤ tokenBudget sizing)%Z →
  ∃ w',
    SummarizedConversationHistory_render RunNotebookCell builderServices services sizing
      progress w
    = (Normal (Some {| meta_toolCallRoundId := round_id r; meta_text := value |},
               [ConversationSummary value;
                ChatToolCalls [dropped] (toolCallResults (promptContext (w_props w))) false
                  (maxToolResultLength (w_props w))]),
       w')
    ∧ toolCallRounds (promptContext (w_props w'))
      = Some (front ++ [withSummary value r] ++ [dropped])
    ∧ history (promptContext (w_props w')) = history (promptContext (w_props w)).
Proof.
  intros Htrigger Hrs Hfront Hdropped Hinfo Hrender Hstrip Hrequest Hvalue Htokens Hfits.
  destruct (summarizeHistory_success w info messages stripped value requestId tokens)
    as [effects Hrun]; [done..|].
  destruct (getProps_multiple RunNotebookCell builderServices (w_props w) front r dropped)
    as [notebook Hsel]; [done|].
  rewrite Hsel in Hinfo. injection Hinfo as <-. simpl in Hrun.
  assert (Hpatched :
    addSummaryToHistory value (round_id r) (promptContext (w_props w))
    = {| history := history (promptContext (w_props w));
         toolCallRounds := Some (front ++ [withSummary value r] ++ [dropped]);
         toolCallResults := toolCallResults (promptContext (w_props w));
         isContinuation := isContinuation (promptContext (w_props w));
         conversation := conversation (promptContext (w_props w)) |}).
  { unfold addSummaryToHistory. rewrite Hrs. simpl.
    rewrite js_find_middle; [|by apply otherId_Forall|by apply bool_decide_eq_true].
    simpl. by rewrite insert_middle_length. }
  rewrite Hpatched in Hrun.
  unfold SummarizedConversationHistory_render. run_M.
  rewrite Htrigger, Hrun. simpl.
  match goal with
  | |- context [ConversationHistory_render ?patched] =>
      assert (ConversationHistory_render patched
              = [ConversationSummary value;
                 ChatToolCalls [dropped] (toolCallResults (promptContext (w_props w))) false
                   (maxToolResultLength (w_props w))]) as ->
  end.
  { unfold ConversationHistory_render. simpl.
    rewrite bool_decide_eq_true_2 by (rewrite !length_app; simpl; lia).
    rewrite !reverse_app. simpl. unfold summarized in Hdropped. rewrite Hdropped. simpl.
    rewrite bool_decide_eq_false_2 by done. simpl.
    by rewrite bool_decide_eq_false_2. }
  by eexists.
Qed.

(** X16. A compaction at the start of a turn, end to end.  At most one round is
    pending; it carries no summary and does not share its id with the last
    round of the last turn, which is the first with that id in its turn; the
    endpoint answers with a non-empty summary within budget.  Then the
    summary sits on the last round of the last turn, the metadata names that
    round, and the history shows the new summary and, verbatim, only the
    pending rounds. *)
Theorem render_after_compaction_of_turns
    w older turn front r info messages stripped value requestId tokens :
  jsTrue (triggerSummarize (w_props w)) = true →
  (length (default [] (toolCallRounds (promptContext (w_props w)))) ≤ 1)%nat →
  Forall (λ x, summarized x = false ∧ otherId (round_id r) x)
    (default [] (toolCallRounds (promptContext (w_props w)))) →
  history (promptContext (w_props w)) = older ++ [turn] →
  rounds turn = front ++ [r] →
  Forall (otherId (round_id r)) front →
  getProps RunNotebookCell builderServices (w_props w) = Normal info →
  renderPromptElement services (props info) = Normal messages →
  stripInternalToolCallIds services messages = Normal stripped →
  makeChatRequest services stripped = Normal (Normal (ResponseSuccess value requestId)) →
  value ≠ "" →
  countTokens sizing value = Normal tokens →
  (tokens ≤ tokenBudget sizing)%Z →
  ∃ pieces w',
    SummarizedConversationHistory_render RunNotebookCell builderServices services sizing
      progress w
    = (Normal (Some {| meta_toolCallRoundId := round_id r; meta_text := value |}, pieces), w')
    ∧ history (promptContext (w_props w'))
      = older ++ [withRounds (front ++ [withSummary value r]) turn]
    ∧ toolCallRounds (promptContext (w_props w'))
      = toolCallRounds (promptContext (w_props w))
    ∧ verbatimRounds pieces = default [] (toolCallRounds (promptContext (w_props w)))
    ∧ summaryTexts pieces = [value].
Proof.
  intros Htrigger Hle Hpending Hhist Hrounds Hfront Hinfo Hrender Hstrip Hrequest Hvalue
    Htokens Hfits.
  destruct (summarizeHistory_success w info messages stripped value requestId tokens)
    as [effects Hrun]; [done..|].
  destruct (getProps_fallback RunNotebookCell builderServices (w_props w) Hle)
    as [notebook Hsel].
  rewrite Hsel in Hinfo. unfold at_m1 in Hinfo.
  rewrite bool_decide_eq_true_2 in Hinfo by (rewrite Hhist, length_app; simpl; lia).
  rewrite Hhist, last_snoc in Hinfo. simpl in Hinfo.
  rewrite Hrounds, last_snoc in Hinfo. simpl in Hinfo. injection Hinfo as <-.
  simpl in Hrun.
  assert (Hpatched :
    addSummaryToHistory value (round_id r) (promptContext (w_props w))
    = {| history := older ++ [withRounds (front ++ [withSummary value r]) turn];
         toolCallRounds := toolCallRounds (promptContext (w_props w));
         toolCallResults := toolCallResults (promptContext (w_props w));
         isContinuation := isContinuation (promptContext (w_props w));
         conversation := conversation (promptContext (w_props w)) |}).
  { unfold addSummaryToHistory.
    assert (toolCallRounds (promptContext (w_props w))
            ≫= (λ rs, (λ found, (rs, found)) <$> js_find (hasId (round_id r)) rs) = None) as ->.
    { destruct (toolCallRounds (promptContext (w_props w))) as [rs|]; [|done]. simpl in *.
      rewrite (proj2 (js_find_None (hasId (round_id r)) rs)); [done|].
      apply otherId_Forall. eapply Forall_impl; [exact Hpending|]. by intros x [_ ?]. }
    f_equal. rewrite Hhist, reverse_app. simpl. rewrite Hrounds.
    rewrite js_find_middle; [|by apply otherId_Forall|by apply bool_decide_eq_true].
    by rewrite insert_middle_length, reverse_cons, reverse_involutive. }
  rewrite Hpatched in Hrun.
  unfold SummarizedConversationHistory_render. run_M.
  rewrite Htrigger, Hrun. simpl.
  match goal with
  | |- context [ConversationHistory_render ?patched] =>
      destruct (ConversationHistory_render_capped patched ((older ≫= rounds) ++ front)
                  (withSummary value r)
                  (default [] (toolCallRounds (promptContext (w_props w)))) value)
        as [Hshown Htexts]
  end.
  - unfold allRounds. simpl. rewrite bind_app, bind_singleton. simpl.
    by rewrite <- !(assoc_L (++)).
  - done.
  - done.
  - eapply Forall_impl; [exact Hpending|]. by intros x [? _].
  - eexists _, _. split_and!; done.
Qed.
End ExecutorMore.

Lemma render_after_compaction_in_turn_witness :
  ∃ w',
    SummarizedConversationHistory_render run_notebook_cell noNotebooks answersS1 roomy true
      (freshWorld midTurn)
    = (Normal (Some {| meta_toolCallRoundId := "p2"; meta_text := "S1" |},
               [ConversationSummary "S1";
                ChatToolCalls [plainRound "p3"] None false 2000]),
       w')
    ∧ toolCallRounds (promptContext (w_props w'))
      = Some ([plainRound "p1"] ++ [withSummary "S1" (plainRound "p2")] ++ [plainRound "p3"])
    ∧ history (promptContext (w_props w')) = [plainTurn "t1" [plainRound "r1"; plainRound "r2"]].
Proof.
  apply (render_after_compaction_in_turn run_notebook_cell noNotebooks answersS1 roomy true
           (freshWorld midTurn) [plainRound "p1"] (plainRound "p2") (plainRound "p3")
           (selected midTurn [plainRound "p1"; plainRound "p2"] None "p2" None)
           [{| msg_role := "user"; msg_content := "history" |}]
           [{| msg_role := "user"; msg_content := "history" |}] "S1" "req-1" 2).
  - reflexivity.
  - reflexivity.
  - by repeat constructor.
  - reflexivity.
  - reflexivity.
  - reflexivity.
  - reflexivity.
  - reflexivity.
  - discriminate.
  - reflexivity.
  - simpl. lia.
Defined.

Lemma render_after_compaction_of_turns_witness :
  ∃ pieces w',
    SummarizedConversationHistory_render run_notebook_cell noNotebooks answersS1 roomy true
      (freshWorld oneTurn)
    = (Normal (Some {| meta_toolCallRoundId := "r1"; meta_text := "S1" |}, pieces), w')
    ∧ history (promptContext (w_props w'))
      = [] ++ [withRounds ([] ++ [withSummary "S1" (plainRound "r1")])
                 (plainTurn "t1" [plainRound "r1"])]
    ∧ toolCallRounds (promptContext (w_props w')) = Some []
    ∧ verbatimRounds pieces = []
    ∧ summaryTexts pieces = ["S1"].
Proof.
  apply (render_after_compaction_of_turns run_notebook_cell noNotebooks answersS1 roomy true
           (freshWorld oneTurn) [] (plainTurn "t1" [plainRound "r1"]) [] (plainRound "r1")
           (selected oneTurn [] (Some true) "r1" None)
           [{| msg_role := "user"; msg_content := "history" |}]
           [{| msg_role := "user"; msg_content := "history" |}] "S1" "req-1" 2).
  - reflexivity.
  - simpl. lia.
  - constructor.
  - reflexivity.
  - reflexivity.
  - constructor.
  - reflexivity.
  - reflexivity.
  - reflexivity.
  - reflexivity.
  - discriminate.
  - reflexivity.
  - simpl. lia.
Defined.

Section RenderOutcomes.
Variable RunNotebookCell : string.
Variable builderServices : BuilderServices.
Variable services : ExecutorServices.
Variable sizing : PromptSizing.
Variable progress : bool.

(** X17. [SummarizedConversationHistory.render] ends in one of three ways.
    Without the trigger it does nothing to the outside world and returns the
    plain history without metadata.  With the trigger it either throws, and
    then the props are as they were on entry (a failed attempt is never
    turned into a history without summary), or it returns metadata whose
    text fits the token budget, has installed exactly that text on the round
    the metadata names, and returns the history of the patched props. *)
Theorem SummarizedConversationHistory_render_outcomes w :
  match SummarizedConversationHistory_render RunNotebookCell builderServices services sizing
          progress w with
  | (Normal (None, pieces), w') =>
      jsTrue (triggerSummarize (w_props w)) = false
      ∧ w' = w
      ∧ pieces = ConversationHistory_render (w_props w)
  | (Normal (Some metadata, pieces), w') =>
      jsTrue (triggerSummarize (w_props w)) = true
      ∧ (∃ tokens, countTokens sizing (meta_text metadata) = Normal tokens
                   ∧ (tokens ≤ tokenBudget sizing)%Z)
      ∧ w_props w'
        = withPromptContext
            (addSummaryToHistory (meta_text metadata) (meta_toolCallRoundId metadata)
               (promptContext (w_props w)))
            (w_props w)
      ∧ pieces = ConversationHistory_render (w_props w')
  | (Throw _, w') =>
      jsTrue (triggerSummarize (w_props w)) = true
      ∧ w_props w' = w_props w
  end.
Proof.
  unfold SummarizedConversationHistory_render, summarizeHistory. run_M.
  destruct (jsTrue (triggerSummarize (w_props w))) eqn:Htrigger; simpl;
    [|by destruct w].
  destruct (getProps RunNotebookCell builderServices (w_props w)) as [info|e]; simpl; [|done].
  destruct (renderPromptElement services (props info)) as [messages|e]; simpl; [|done].
  destruct (stripInternalToolCallIds services messages) as [stripped|e]; simpl; [|done].
  destruct (makeChatRequest services stripped)
    as [[[value requestId|requestId reason|type requestId reason]|e]|e];
    destruct progress; simpl; try done.
  - destruct (countTokens sizing value) as [tokens|e] eqn:Htokens; simpl; [|done].
    case_bool_decide; simpl; [done|].
    split_and!; [done| |done..]. exists tokens. split; [done|lia].
  - destruct (countTokens sizing value) as [tokens|e] eqn:Htokens; simpl; [|done].
    case_bool_decide; simpl; [done|].
    split_and!; [done| |done..]. exists tokens. split; [done|lia].
Qed.
End RenderOutcomes.


(** ** Sessions *)

Section MapFacts.
Context {V : Type}.
Implicit Types (map : list (string * V)) (key : string).

Lemma Map_delete_cons key k v map :
  Map_delete key ((k, v) :: map)
  = if bool_decide (k = key) then Map_delete key map else (k, v) :: Map_delete key map.
Proof.
  unfold Map_delete. rewrite filter_cons. simpl.
  case_decide; case_bool_decide; done.
Qed.

Lemma Map_get_delete key map : Map_get key (Map_delete key map) = None.
Proof.
  induction map as [|[k v] map IH]; [done|].
  rewrite Map_delete_cons. case_bool_decide as Hk; [done|].
  simpl. by case_bool_decide.
Qed.

Lemma Map_get_None key map : Map_get key map = None ↔ key ∉ map.*1.
Proof.
  induction map as [|[k v] map IH]; simpl.
  - split; [intros _; apply not_elem_of_nil|done].
  - rewrite not_elem_of_cons. case_bool_decide as Hk.
    + split; [done|]. by intros [? _].
    + rewrite IH. split; [by intros ?|by intros [_ ?]].
Qed.

(** Deleting a key undoes setting it, whether or not it was there. *)
Lemma Map_delete_set key value map : Map_delete key (Map_set key value map) = Map_delete key map.
Proof.
  induction map as [|[k v] map IH]; simpl.
  - rewrite Map_delete_cons. by rewrite bool_decide_eq_true_2.
  - case_bool_decide as Hk.
    + rewrite !Map_delete_cons. by rewrite Hk, !bool_decide_eq_true_2.
    + rewrite !Map_delete_cons. by rewrite !bool_decide_eq_false_2, IH.
Qed.

Lemma Map_delete_absent key map : Map_get key map = None → Map_delete key map = map.
Proof.
  induction map as [|[k v] map IH]; [done|]. simpl.
  rewrite Map_delete_cons. case_bool_decide; [done|]. intros Hget. by rewrite IH.
Qed.

Lemma Map_keys_delete key map : (Map_delete key map).*1 = filter (λ k, k ≠ key) map.*1.
Proof.
  induction map as [|[k v] map IH]; [done|].
  rewrite Map_delete_cons, fmap_cons, filter_cons. simpl.
  case_bool_decide; case_decide; try done. by rewrite fmap_cons, IH.
Qed.

Lemma Map_keys_set key value map :
  (Map_set key value map).*1
  = if bool_decide (key ∈ map.*1) then map.*1 else map.*1 ++ [key].
Proof.
  induction map as [|[k v] map IH]; [done|].
  cbn [Map_set]. rewrite fmap_cons. cbn [fst].
  destruct (decide (k = key)) as [->|Hk].
  - rewrite bool_decide_eq_true_2 by done. rewrite fmap_cons. cbn [fst].
    rewrite bool_decide_eq_true_2; [done|by left].
  - rewrite bool_decide_eq_false_2 by done. rewrite fmap_cons, IH. cbn [fst].
    destruct (decide (key ∈ map.*1)) as [Hin|Hin].
    + rewrite !bool_decide_eq_true_2; [done|by right|done].
    + rewrite !bool_decide_eq_false_2; [done| |done].
      rewrite not_elem_of_cons. split; [congruence|done].
Qed.
End MapFacts.

Ltac run_sessions :=
  unfold SessionManager.createSession, SessionManager.cleanupSession, SessionManager.log,
    SessionManager.perform, SessionManager.update, SessionManager.this,
    SessionManager.throw, SessionManager.try_catch, SessionManager.try_finally,
    SessionManager.execute,
    mbind, mret, SessionManager.M_bind, SessionManager.M_ret; simpl.

(** What [cleanupSession] does: the session id is deleted from the map, and
    a line is logged if it was there. *)
Lemma cleanupSession_run sessionId w :
  SessionManager.cleanupSession sessionId w
  = (Normal (),
     {| SessionManager.manager :=
          SessionManager.withSessions
            (Map_delete sessionId (SessionManager._sessions (SessionManager.manager w)))
            (SessionManager.manager w);
        SessionManager.effects :=
          SessionManager.effects w
          ++ match Map_get sessionId (SessionManager._sessions (SessionManager.manager w)) with
             | Some _ =>
                 [ChatSession.Logged ChatSession.Debug
                    ("SessionManager: Cleaned up session " +:+ sessionId) None]
             | None => []
             end |}).
Proof.
  run_sessions.
  destruct (Map_get sessionId (SessionManager._sessions (SessionManager.manager w)))
    as [session|] eqn:Hget; simpl.
  - unfold SessionManager.withSessions. simpl. by rewrite Map_delete_set.
  - rewrite Map_delete_absent by done. rewrite app_nil_r.
    by destruct w as [[]].
Qed.

Section MapMore.
Context {V : Type}.
Implicit Types (map : list (string * V)) (key : string).

Lemma Map_get_set key value map : Map_get key (Map_set key value map) = Some value.
Proof.
  induction map as [|[k v] map IH]; simpl.
  - by rewrite bool_decide_eq_true_2.
  - case_bool_decide as Hk; simpl.
    + by rewrite bool_decide_eq_true_2.
    + by rewrite bool_decide_eq_false_2.
Qed.

Lemma Map_set_length key value map :
  (length (Map_set key value map) ≤ S (length map))%nat.
Proof.
  induction map as [|[k v] map IH]; simpl; [lia|].
  case_bool_decide; simpl; lia.
Qed.

Lemma Map_delete_length key map : (length (Map_delete key map) ≤ length map)%nat.
Proof. apply length_filter. Qed.

Lemma Map_set_Forall (P : string * V → Prop) key value map :
  P (key, value) → Forall P map → Forall P (Map_set key value map).
Proof.
  intros Hvalue. induction 1 as [|[k v] map Hv Hmap IH]; simpl.
  - by constructor.
  - case_bool_decide; by constructor.
Qed.

Lemma Map_delete_Forall (P : string * V → Prop) key map :
  Forall P map → Forall P (Map_delete key map).
Proof.
  rewrite !Forall_forall. intros Hmap entry [_ Hentry]%list_elem_of_filter. by apply Hmap.
Qed.

Lemma Map_set_NoDup key value map : NoDup map.*1 → NoDup (Map_set key value map).*1.
Proof.
  intros Hmap. rewrite Map_keys_set. case_bool_decide as Hin; [done|].
  apply NoDup_app. split_and!; [done| |apply NoDup_singleton].
  intros k Hk ->%list_elem_of_singleton. done.
Qed.

Lemma Map_delete_NoDup key map : NoDup map.*1 → NoDup (Map_delete key map).*1.
Proof. intros Hmap. rewrite Map_keys_delete. by apply NoDup_filter. Qed.
End MapMore.

Section NumberFacts.
Import SessionManager.

Lemma Qred_inject_Z z : Qred (inject_Z z) = inject_Z z.
Proof.
  unfold inject_Z, Qred.
  pose proof (Z.ggcd_gcd z 1) as Hgcd.
  pose proof (Z.ggcd_correct_divisors z 1) as Hdivisors.
  destruct (Z.ggcd z 1) as [g [a b]]. simpl in *.
  rewrite Z.gcd_1_r in Hgcd. subst g. destruct Hdivisors as [-> Hb].
  rewrite Z.mul_1_l in Hb. rewrite Z.mul_1_l. by subst b.
Qed.

(** A whole number is written in decimal digits. *)
Lemma showNumber_whole Number_toString z :
  showNumber Number_toString (Some (Finite (inject_Z z))) = pretty z.
Proof. unfold showNumber. by rewrite Qred_inject_Z. Qed.

(** [size >= limit] for a whole limit. *)
Lemma atLeast_whole size limit :
  atLeast size (Finite (inject_Z limit)) = bool_decide (limit ≤ Z.of_nat size)%Z.
Proof.
  simpl. case_bool_decide as Hle.
  - apply Qle_bool_iff. by rewrite <- Zle_Qle.
  - destruct (Qle_bool (inject_Z limit) (inject_Z (Z.of_nat size))) eqn:Hbool; [|done].
    apply Qle_bool_iff in Hbool. by rewrite <- Zle_Qle in Hbool.
Qed.

(** Below a finite limit there is room for one more session under the limit
    rounded up. *)
Lemma atLeast_false size limit :
  atLeast size (Finite limit) = false → (Z.of_nat size + 1 ≤ Qceiling limit)%Z.
Proof.
  simpl. intros Hbool.
  assert (¬ (limit <= inject_Z (Z.of_nat size))%Q) as Hnot.
  { intros Hle. apply Qle_bool_iff in Hle. congruence. }
  apply Qnot_le_lt in Hnot.
  pose proof (Qlt_le_trans _ _ _ Hnot (Qle_ceiling limit)) as Hlt.
  rewrite <- Zlt_Qlt in Hlt. lia.
Qed.
End NumberFacts.

Section ManagerFacts.
Variable Number_toString : Q → string.
Variable getResult :
  list string → string → ChatSession.IChatAgentArgs → Completion string.

(** [createSession] below the limit. *)
Lemma createSession_run sessionId context w :
  SessionManager.limitReached (SessionManager.manager w) = false →
  SessionManager.createSession Number_toString sessionId context w
  = (Normal (ChatSession.new sessionId context),
     {| SessionManager.manager :=
          SessionManager.countSession
            (SessionManager.withSessions
               (Map_set sessionId (ChatSession.new sessionId context)
                  (SessionManager._sessions (SessionManager.manager w)))
               (SessionManager.manager w));
        SessionManager.effects :=
          SessionManager.effects w
          ++ [ChatSession.Logged ChatSession.Debug
                ("SessionManager: Created session " +:+ sessionId) None] |}).
Proof. intros Hlimit. run_sessions. by rewrite Hlimit. Qed.

(** [createSession] at the limit. *)
Lemma createSession_rejects sessionId context w :
  SessionManager.limitReached (SessionManager.manager w) = true →
  SessionManager.createSession Number_toString sessionId context w
  = (Throw (Error ("Maximum concurrent sessions limit reached ("
                   +:+ SessionManager.showNumber Number_toString
                         (SessionManager.max_sessions
                            (SessionManager._options (SessionManager.manager w)))
                   +:+ ")")),
     w).
Proof. intros Hlimit. run_sessions. by rewrite Hlimit. Qed.

(** [handleRequest], when nothing else is done to the manager in between,
    is its part before the [await] followed by its part after it, settled
    with what the handler answers. *)
Lemma handleRequest_split uuid request history chatAgentArgs w :
  SessionManager.handleRequest Number_toString getResult uuid request history chatAgentArgs w
  = match SessionManager.handleRequest_begin Number_toString uuid request history
            chatAgentArgs w with
    | (Normal sessionId, w') =>
        SessionManager.handleRequest_settle sessionId
          (getResult history request chatAgentArgs) w'
    | (Throw e, w') => (Throw e, w')
    end.
Proof.
  unfold SessionManager.handleRequest, SessionManager.handleRequest_begin,
    SessionManager.handleRequest_settle.
  run_sessions.
  destruct (SessionManager.limitReached (SessionManager.manager w)); simpl; [done|].
  unfold ChatSession.execute. simpl.
  destruct (getResult history request chatAgentArgs) as [result|error]; simpl; [done|].
  by rewrite <- !(assoc_L (++)).
Qed.
End ManagerFacts.

Section ManagerRuns.
Import SessionManager.
Variable Number_toString : Q → string.

(** [handleRequest] up to the [await], below the limit. *)
Lemma handleRequest_begin_run uuid request history chatAgentArgs w :
  limitReached (manager w) = false →
  handleRequest_begin Number_toString uuid request history chatAgentArgs w
  = (Normal (generateSessionId uuid),
     {| manager :=
          countSession
            (withSessions
               (Map_set (generateSessionId uuid)
                  (ChatSession.new (generateSessionId uuid)
                     {| ChatSession.sessionId := generateSessionId uuid;
                        ChatSession.history := history;
                        ChatSession.chatAgentArgs := chatAgentArgs |})
                  (_sessions (manager w)))
               (manager w));
        effects :=
          effects w
          ++ [ChatSession.Logged ChatSession.Debug
                ("SessionManager: Created session " +:+ generateSessionId uuid) None;
              ChatSession.Logged ChatSession.Trace
                ("SessionManager: Executing request in session " +:+ generateSessionId uuid)
                None;
              ChatSession.HandlerRun history request chatAgentArgs] |}).
Proof.
  intros Hlimit. unfold handleRequest_begin. run_sessions. rewrite Hlimit. simpl.
  by rewrite <- !(assoc_L (++)).
Qed.

(** [handleRequest] at the limit. *)
Lemma handleRequest_begin_rejects uuid request history chatAgentArgs w :
  limitReached (manager w) = true →
  handleRequest_begin Number_toString uuid request history chatAgentArgs w
  = (Throw (Error ("Maximum concurrent sessions limit reached ("
                   +:+ showNumber Number_toString (max_sessions (_options (manager w)))
                   +:+ ")")),
     w).
Proof. intros Hlimit. unfold handleRequest_begin. run_sessions. by rewrite Hlimit. Qed.

(** [handleRequest] from the [await] on. *)
Lemma handleRequest_settle_run sessionId outcome w :
  handleRequest_settle sessionId outcome w
  = (outcome,
     {| manager :=
          withSessions (Map_delete sessionId (_sessions (manager w)))
            (countOutcome outcome (manager w));
        effects :=
          effects w ++ settleLines sessionId outcome
          ++ cleanupLines sessionId (_sessions (manager w)) |}).
Proof.
  unfold handleRequest_settle, try_finally.
  destruct outcome as [result|error].
  - unfold try_catch. run_sessions. unfold cleanupLines.
    destruct (Map_get sessionId (_sessions (manager w))) eqn:Hget; simpl.
    + unfold withSessions. simpl. by rewrite Map_delete_set, <- !(assoc_L (++)).
    + rewrite Map_delete_absent by done.
      by destruct w as [[]].
  - unfold try_catch. run_sessions. unfold cleanupLines.
    destruct (Map_get sessionId (_sessions (manager w))) eqn:Hget; simpl.
    + unfold withSessions. simpl. by rewrite Map_delete_set, <- !(assoc_L (++)).
    + rewrite Map_delete_absent by done. rewrite <- !(assoc_L (++)).
      by destruct w as [[]].
Qed.

(** The loop of [dispose] over a map with one entry per key. *)
Lemma cleanupSessions_run sessions : ∀ w,
  NoDup sessions.*1 →
  _sessions (manager w) = sessions →
  cleanupSessions sessions.*1 w
  = (Normal (),
     {| manager := withSessions [] (manager w);
        effects :=
          effects w
          ++ ((λ sessionId,
                ChatSession.Logged ChatSession.Debug
                  ("SessionManager: Cleaned up session " +:+ sessionId) None)
              <$> sessions.*1) |}).
Proof.
  induction sessions as [|[k v] sessions IH]; intros w Hkeys Hw.
  - simpl. rewrite app_nil_r. unfold mret, M_ret, withSessions.
    destruct w as [[]]. simpl in *. by subst.
  - rewrite fmap_cons in Hkeys. apply NoDup_cons in Hkeys as [Hk Hkeys].
    rewrite !fmap_cons. cbn [cleanupSessions fst].
    unfold mbind, M_bind. rewrite cleanupSession_run, Hw.
    rewrite Map_delete_cons, bool_decide_eq_true_2 by done.
    rewrite Map_delete_absent by by apply Map_get_None.
    cbn [Map_get]. rewrite bool_decide_eq_true_2 by done.
    rewrite IH by done. cbn [manager effects].
    by rewrite <- (assoc_L (++)).
Qed.
End ManagerRuns.

Section Reachable.
Import SessionManager.
Variable Number_toString : Q → string.
Variable options : ISessionManagerOptions.

Lemma dispose_run w :
  NoDup (_sessions (manager w)).*1 →
  dispose w
  = (Normal (),
     {| manager := withSessions [] (manager w);
        effects :=
          effects w
          ++ ChatSession.Logged ChatSession.Debug "SessionManager: Disposing" None
             :: ((λ sessionId,
                   ChatSession.Logged ChatSession.Debug
                     ("SessionManager: Cleaned up session " +:+ sessionId) None)
                 <$> (_sessions (manager w)).*1) |}).
Proof.
  intros Hkeys. unfold dispose, log, perform, this, mbind, M_bind. cbn [manager effects].
  rewrite (cleanupSessions_run (_sessions (manager w))) by done.
  cbn [manager effects]. by rewrite <- (assoc_L (++)).
Qed.

Lemma new_consistent : consistent options (new Number_toString options, []).
Proof.
  unfold consistent. simpl. split_and!.
  - done.
  - apply NoDup_nil_2.
  - intros sessionId Hin. by apply elem_of_nil in Hin.
  - done.
  - done.
  - intros limit _. lia.
  - done.
Qed.

Lemma step_consistent s s' :
  step Number_toString s s' → consistent options s → consistent options s'.
Proof.
  unfold consistent.
  intros Hstep (Hoptions & Hkeys & Hpending & Hactive & Hcount & Hlimit & Hnever).
  destruct Hstep as
    [uuid request history chatAgentArgs w w' sessionId pending Hrun
    |uuid request history chatAgentArgs w w' e pending Hrun
    |sessionId outcome w w' completion pending1 pending2 Hrun
    |w w' completion pending Hrun]; simpl in *.
  - destruct (limitReached (manager w)) eqn:Hreached.
    { by rewrite handleRequest_begin_rejects in Hrun. }
    rewrite handleRequest_begin_run in Hrun by done.
    injection Hrun as <- <-. simpl. split_and!.
    + done.
    + by apply Map_set_NoDup.
    + intros k. rewrite Map_keys_set. case_bool_decide as Hin.
      * intros Hk. right. by apply Hpending.
      * intros [Hk| ->%list_elem_of_singleton]%elem_of_app; [right; by apply Hpending|by left].
    + by apply Map_set_Forall.
    + lia.
    + intros limit Hmax. unfold limitReached in Hreached. rewrite Hmax in Hreached.
      apply atLeast_false in Hreached.
      pose proof (Map_set_length (generateSessionId uuid)
        (ChatSession.new (generateSessionId uuid)
           {| ChatSession.sessionId := generateSessionId uuid;
              ChatSession.history := history;
              ChatSession.chatAgentArgs := chatAgentArgs |})
        (_sessions (manager w))). lia.
    + intros Hmax. unfold limitReached in Hreached. by rewrite Hmax in Hreached.
  - destruct (limitReached (manager w)) eqn:Hreached.
    + rewrite handleRequest_begin_rejects in Hrun by done. by injection Hrun as _ <-.
    + by rewrite handleRequest_begin_run in Hrun.
  - rewrite handleRequest_settle_run in Hrun. injection Hrun as _ <-.
    assert (_options (countOutcome outcome (manager w)) = _options (manager w)) as Hsame
      by by destruct outcome.
    simpl. rewrite Hsame. split_and!.
    + done.
    + by apply Map_delete_NoDup.
    + intros k. rewrite Map_keys_delete. intros [Hk Hin]%list_elem_of_filter.
      apply Hpending in Hin. rewrite elem_of_app, elem_of_cons in Hin.
      rewrite elem_of_app. destruct Hin as [Hin|[->|Hin]]; [by left|done|by right].
    + by apply Map_delete_Forall.
    + rewrite length_app in *. simpl in Hcount. destruct outcome; simpl; lia.
    + intros limit Hmax. specialize (Hlimit limit Hmax).
      pose proof (Map_delete_length sessionId (_sessions (manager w))). lia.
    + intros Hmax. by rewrite (Hnever Hmax).
  - rewrite dispose_run in Hrun by done. injection Hrun as _ <-. simpl. split_and!.
    + done.
    + apply NoDup_nil_2.
    + intros k Hin. by apply elem_of_nil in Hin.
    + done.
    + done.
    + intros limit _. lia.
    + done.
Qed.

Lemma reachable_consistent s s' :
  rtc (step Number_toString) s s' → consistent options s → consistent options s'.
Proof. induction 1 as [|s1 s2 s3 Hstep _ IH]; [done|]. intros Hs. eauto using step_consistent. Qed.
End Reachable.

Section ManagerTheorems.
Import SessionManager.
Variable Number_toString : Q → string.
Variable getResult :
  list string → string → ChatSession.IChatAgentArgs → Completion string.

(** X18. A fresh session starts the request handler once, on the history and
    agent arguments of its context, and completes the way the handler does;
    once disposed it starts nothing: [execute] throws 'ChatSession has been
    disposed' without an effect, [canHandle] answers false, [getStats] reports
    it inactive, and a second [dispose] changes nothing. *)
Theorem session_runs_until_disposed sessionId context request now :
  let session := ChatSession.new sessionId context in
  (ChatSession.execute getResult session request).1
  = getResult (ChatSession.history context) request (ChatSession.chatAgentArgs context)
  ∧ ChatSession.handlerRuns (ChatSession.execute getResult session request).2
    = [ChatSession.HandlerRun (ChatSession.history context) request
         (ChatSession.chatAgentArgs context)]
  ∧ ChatSession.canHandle session request = true
  ∧ ChatSession.execute getResult (ChatSession.dispose session) request
    = (Throw (Error "ChatSession has been disposed"), [])
  ∧ ChatSession.canHandle (ChatSession.dispose session) request = false
  ∧ ChatSession.isActive (ChatSession.getStats now (ChatSession.dispose session)) = false
  ∧ ChatSession.dispose (ChatSession.dispose session) = ChatSession.dispose session.
Proof.
  unfold ChatSession.execute. simpl. split_and!; try done.
  - by destruct (getResult _ _ _).
  - by destruct (getResult _ _ _).
Qed.

(** X19. A request below the limit, from its call to its settling.  Up to
    the [await], [handleRequest] files a fresh session under the generated id,
    counts it in the total and starts the request handler once.  When the
    handler has settled, in whatever state [w2] other requests and calls to
    [dispose] have left the manager by then, [handleRequest] completes exactly
    the way the handler did, counts one more completed or failed session
    according to the outcome and leaves the total and the options alone;
    afterwards no session is filed under the id, and the clean-up of the
    session is the last line logged exactly when the session was still in the
    map: after a [dispose] in between no clean-up line is logged.  With
    nothing in between, the whole of [handleRequest] is the first part
    followed at once by the second. *)
Theorem handleRequest_below_limit uuid request history chatAgentArgs w w2 :
  limitReached (manager w) = false →
  let sessionId := generateSessionId uuid in
  let outcome := getResult history request chatAgentArgs in
  let cleanedUp :=
    ChatSession.Logged ChatSession.Debug
      ("SessionManager: Cleaned up session " +:+ sessionId) None in
  ∃ w1 started w3 settling,
    handleRequest_begin Number_toString uuid request history chatAgentArgs w
    = (Normal sessionId, w1)
    ∧ effects w1 = effects w ++ started
    ∧ ChatSession.handlerRuns started
      = [ChatSession.HandlerRun history request chatAgentArgs]
    ∧ getSession sessionId (manager w1)
      = Some (ChatSession.new sessionId
                {| ChatSession.sessionId := sessionId;
                   ChatSession.history := history;
                   ChatSession.chatAgentArgs := chatAgentArgs |})
    ∧ totalSessions (getStats (manager w1)) = (totalSessions (getStats (manager w)) + 1)%Z
    ∧ completedSessions (getStats (manager w1)) = completedSessions (getStats (manager w))
    ∧ failedSessions (getStats (manager w1)) = failedSessions (getStats (manager w))
    ∧ handleRequest_settle sessionId outcome w2 = (outcome, w3)
    ∧ effects w3 = effects w2 ++ settling
    ∧ ChatSession.handlerRuns settling = []
    ∧ match getSession sessionId (manager w2) with
      | Some _ => last settling = Some cleanedUp
      | None => cleanedUp ∉ settling
      end
    ∧ getSession sessionId (manager w3) = None
    ∧ _sessions (manager w3) = Map_delete sessionId (_sessions (manager w2))
    ∧ _options (manager w3) = _options (manager w2)
    ∧ totalSessions (getStats (manager w3)) = totalSessions (getStats (manager w2))
    ∧ match outcome with
      | Normal _ =>
          completedSessions (getStats (manager w3))
          = (completedSessions (getStats (manager w2)) + 1)%Z
          ∧ failedSessions (getStats (manager w3)) = failedSessions (getStats (manager w2))
      | Throw _ =>
          completedSessions (getStats (manager w3)) = completedSessions (getStats (manager w2))
          ∧ failedSessions (getStats (manager w3))
            = (failedSessions (getStats (manager w2)) + 1)%Z
      end
    ∧ handleRequest Number_toString getResult uuid request history chatAgentArgs w
      = handleRequest_settle sessionId outcome w1.
Proof.
  intros Hlimit sessionId outcome cleanedUp.
  eexists _, _, _, _.
  split; [by apply handleRequest_begin_run|]. cbn [manager effects].
  split; [reflexivity|].
  split; [done|].
  split; [unfold getSession; simpl; apply Map_get_set|].
  split; [done|]. split; [done|]. split; [done|].
  split; [apply handleRequest_settle_run|]. cbn [manager effects].
  split; [reflexivity|].
  unfold cleanupLines, getSession.
  split_and!.
  - by destruct outcome, (Map_get sessionId (_sessions (manager w2))).
  - destruct (Map_get sessionId (_sessions (manager w2))).
    + by destruct outcome.
    + rewrite app_nil_r. unfold settleLines.
      destruct outcome; rewrite !not_elem_of_cons; split_and!; try done;
        apply not_elem_of_nil.
  - simpl. apply Map_get_delete.
  - done.
  - by destruct outcome.
  - by destruct outcome.
  - by destruct outcome.
  - by rewrite handleRequest_split, handleRequest_begin_run.
Qed.

(** X20. At the limit, that is when the map holds at least
    [maxConcurrentSessions] sessions, [handleRequest] throws 'Maximum
    concurrent sessions limit reached (n)' and does nothing else: no session is
    created or counted, no handler is started and nothing is logged.  It throws
    before it awaits anything. *)
Theorem handleRequest_at_limit uuid request history chatAgentArgs w limit :
  max_sessions (_options (manager w)) = Some (Finite (inject_Z limit)) →
  (limit ≤ Z.of_nat (length (_sessions (manager w))))%Z →
  handleRequest Number_toString getResult uuid request history chatAgentArgs w
  = (Throw (Error ("Maximum concurrent sessions limit reached (" +:+ pretty limit +:+ ")")),
     w)
  ∧ handleRequest_begin Number_toString uuid request history chatAgentArgs w
    = (Throw (Error ("Maximum concurrent sessions limit reached (" +:+ pretty limit +:+ ")")),
       w).
Proof.
  intros Hmax Hsize.
  assert (limitReached (manager w) = true) as Hlimit.
  { unfold limitReached. rewrite Hmax, atLeast_whole. by apply bool_decide_eq_true_2. }
  rewrite handleRequest_split, handleRequest_begin_rejects by done.
  by rewrite Hmax, showNumber_whole.
Qed.

(** X21. [dispose] empties the map whatever it holds and leaves the counters
    as they are; it logs 'SessionManager: Disposing' and then one clean-up
    line per session, in the order in which the sessions were created. *)
Theorem dispose_cleans_every_session w :
  NoDup (_sessions (manager w)).*1 →
  ∃ w',
    dispose w = (Normal (), w')
    ∧ _sessions (manager w') = []
    ∧ getStats (manager w')
      = {| totalSessions := totalSessions (getStats (manager w));
           activeSessions := 0;
           completedSessions := completedSessions (getStats (manager w));
           failedSessions := failedSessions (getStats (manager w)) |}
    ∧ effects w'
      = effects w
        ++ ChatSession.Logged ChatSession.Debug "SessionManager: Disposing" None
           :: ((λ sessionId,
                 ChatSession.Logged ChatSession.Debug
                   ("SessionManager: Cleaned up session " +:+ sessionId) None)
               <$> (_sessions (manager w)).*1).
Proof. intros Hkeys. rewrite dispose_run by done. by eexists. Qed.

(** X22. However requests begin, settle and interleave with calls to
    [dispose], a manager with a finite limit never holds more sessions than
    its limit rounded up to a whole number (none at all below a limit of
    zero): with a whole limit never more than the limit, with a limit of two
    and a half up to three. *)
Theorem live_sessions_within_limit options w pending limit :
  rtc (step Number_toString) (new Number_toString options, []) (w, pending) →
  spreadOver (Finite 10) (maxConcurrentSessions options) = Some (Finite limit) →
  (activeSessions (getStats (manager w)) ≤ Z.max 0 (Qceiling limit))%Z
  ∧ ∀ whole, limit = inject_Z whole →
      (activeSessions (getStats (manager w)) ≤ Z.max 0 whole)%Z.
Proof.
  intros Hreach Hmax.
  apply (reachable_consistent Number_toString options) in Hreach; [|apply new_consistent].
  destruct Hreach as (Hoptions & _ & _ & _ & _ & Hlimit & _).
  assert (activeSessions (getStats (manager w)) ≤ Z.max 0 (Qceiling limit))%Z as Hbound.
  { apply Hlimit. simpl in *. by rewrite Hoptions. }
  split; [done|]. intros whole ->. by rewrite Qceiling_Z in Hbound.
Qed.

(** X23. The statistics account for every session: at any time the total is
    the number of completed sessions plus the number of failed ones plus the
    number of requests still pending; the live sessions are no more than the
    pending requests, and when no request is pending none is left. *)
Theorem every_session_accounted options w pending :
  rtc (step Number_toString) (new Number_toString options, []) (w, pending) →
  totalSessions (getStats (manager w))
  = (completedSessions (getStats (manager w)) + failedSessions (getStats (manager w))
     + Z.of_nat (length pending))%Z
  ∧ (activeSessions (getStats (manager w)) ≤ Z.of_nat (length pending))%Z
  ∧ (pending = [] → _sessions (manager w) = []).
Proof.
  intros Hreach.
  apply (reachable_consistent Number_toString options) in Hreach; [|apply new_consistent].
  destruct Hreach as (_ & Hkeys & Hpending & _ & Hcount & _). simpl in *.
  split_and!.
  - done.
  - apply NoDup_submseteq in Hpending; [|done].
    apply submseteq_length in Hpending. rewrite length_fmap in Hpending. lia.
  - intros ->. destruct (_sessions (manager w)) as [|[k v] rest]; [done|].
    specialize (Hpending k). rewrite fmap_cons in Hpending.
    exfalso. eapply elem_of_nil, Hpending. by left.
Qed.


(** X25. A manager constructed with [maxConcurrentSessions: undefined] has no
    limit: however many sessions it holds, [handleRequest] completes the way
    the request handler does; its part up to the [await] is never rejected,
    and its part after it completes with whatever the handler settled
    with. *)
Theorem undefined_limit_never_rejects options w pending uuid request history chatAgentArgs :
  maxConcurrentSessions options = Present None →
  rtc (step Number_toString) (new Number_toString options, []) (w, pending) →
  (handleRequest Number_toString getResult uuid request history chatAgentArgs w).1
  = getResult history request chatAgentArgs
  ∧ (∃ w1,
       handleRequest_begin Number_toString uuid request history chatAgentArgs w
       = (Normal (generateSessionId uuid), w1))
  ∧ ∀ outcome w2,
      (handleRequest_settle (generateSessionId uuid) outcome w2).1 = outcome.
Proof.
  intros Hundefined Hreach.
  apply (reachable_consistent Number_toString options) in Hreach; [|apply new_consistent].
  destruct Hreach as (Hoptions & _). simpl in Hoptions.
  assert (limitReached (manager w) = false) as Hlimit.
  { unfold limitReached. rewrite Hoptions. simpl. by rewrite Hundefined. }
  split_and!.
  - rewrite handleRequest_split, handleRequest_begin_run by done.
    by rewrite handleRequest_settle_run.
  - eexists. by apply handleRequest_begin_run.
  - intros outcome w2. by rewrite handleRequest_settle_run.
Qed.
End ManagerTheorems.

(** X19 at a manager on which [dispose] is called while the request awaits
    its session: the request still completes with the handler's answer and is
    counted as completed, and no clean-up line is logged when it settles. *)
Lemma handleRequest_below_limit_witness :
  let cleanedUp :=
    ChatSession.Logged ChatSession.Debug "SessionManager: Cleaned up session session-a" None in
  ∃ w1 started w3 settling,
    SessionManager.handleRequest_begin sampleToString "a" "hello" [] testArgs
      (SessionManager.new sampleToString defaultOptions)
    = (Normal "session-a", w1)
    ∧ SessionManager.effects w1
      = SessionManager.effects (SessionManager.new sampleToString defaultOptions) ++ started
    ∧ ChatSession.handlerRuns started = [ChatSession.HandlerRun [] "hello" testArgs]
    ∧ SessionManager.getSession "session-a" (SessionManager.manager w1)
      = Some (ChatSession.new "session-a"
                {| ChatSession.sessionId := "session-a";
                   ChatSession.history := [];
                   ChatSession.chatAgentArgs := testArgs |})
    ∧ SessionManager.totalSessions (SessionManager.getStats (SessionManager.manager w1)) = 1
    ∧ SessionManager.completedSessions (SessionManager.getStats (SessionManager.manager w1))
      = 0
    ∧ SessionManager.failedSessions (SessionManager.getStats (SessionManager.manager w1)) = 0
    ∧ SessionManager.handleRequest_settle "session-a" (Normal "re: hello")
        (disposedMeanwhile defaultOptions)
      = (Normal "re: hello", w3)
    ∧ SessionManager.effects w3
      = SessionManager.effects (disposedMeanwhile defaultOptions) ++ settling
    ∧ ChatSession.handlerRuns settling = []
    ∧ (cleanedUp ∉ settling)
    ∧ SessionManager.getSession "session-a" (SessionManager.manager w3) = None
    ∧ SessionManager._sessions (SessionManager.manager w3) = []
    ∧ SessionManager._options (SessionManager.manager w3)
      = SessionManager.mergeOptions defaultOptions
    ∧ SessionManager.totalSessions (SessionManager.getStats (SessionManager.manager w3)) = 1
    ∧ (SessionManager.completedSessions (SessionManager.getStats (SessionManager.manager w3))
       = 1
       ∧ SessionManager.failedSessions (SessionManager.getStats (SessionManager.manager w3))
         = 0)
    ∧ SessionManager.handleRequest sampleToString echo "a" "hello" [] testArgs
        (SessionManager.new sampleToString defaultOptions)
      = SessionManager.handleRequest_settle "session-a" (Normal "re: hello") w1.
Proof.
  apply (handleRequest_below_limit sampleToString echo "a" "hello" [] testArgs
           (SessionManager.new sampleToString defaultOptions)
           (disposedMeanwhile defaultOptions)).
  reflexivity.
Defined.

(** X20 at a manager with a limit of one session and one request pending. *)
Lemma handleRequest_at_limit_witness :
  SessionManager.handleRequest sampleToString echo "b" "hello" [] testArgs (begun oneAtATime)
  = (Throw (Error ("Maximum concurrent sessions limit reached (" +:+ pretty 1%Z +:+ ")")),
     begun oneAtATime)
  ∧ SessionManager.handleRequest_begin sampleToString "b" "hello" [] testArgs
      (begun oneAtATime)
    = (Throw (Error ("Maximum concurrent sessions limit reached (" +:+ pretty 1%Z +:+ ")")),
       begun oneAtATime).
Proof.
  apply (handleRequest_at_limit sampleToString echo "b" "hello" [] testArgs
           (begun oneAtATime) 1).
  - reflexivity.
  - simpl. lia.
Defined.

Lemma dispose_cleans_every_session_witness :
  ∃ w',
    SessionManager.dispose (begun defaultOptions) = (Normal (), w')
    ∧ SessionManager._sessions (SessionManager.manager w') = []
    ∧ SessionManager.getStats (SessionManager.manager w')
      = {| SessionManager.totalSessions := 1;
           SessionManager.activeSessions := 0;
           SessionManager.completedSessions := 0;
           SessionManager.failedSessions := 0 |}
    ∧ SessionManager.effects w'
      = SessionManager.effects (begun defaultOptions)
        ++ ChatSession.Logged ChatSession.Debug "SessionManager: Disposing" None
           :: ((λ sessionId,
                 ChatSession.Logged ChatSession.Debug
                   ("SessionManager: Cleaned up session " +:+ sessionId) None)
               <$> ["session-a"]).
Proof.
  apply (dispose_cleans_every_session (begun defaultOptions)).
  simpl. apply NoDup_singleton.
Defined.

(** X22 at a limit of two and a half with three requests pending: three
    sessions are live, which is the limit rounded up. *)
Lemma live_sessions_within_limit_witness :
  (SessionManager.activeSessions (SessionManager.getStats (SessionManager.manager threeBegun))
   ≤ Z.max 0 (Qceiling (5 # 2)))%Z
  ∧ ∀ whole, (5 # 2)%Q = inject_Z whole →
      (SessionManager.activeSessions
         (SessionManager.getStats (SessionManager.manager threeBegun))
       ≤ Z.max 0 whole)%Z.
Proof.
  apply (live_sessions_within_limit sampleToString twoAndAHalf threeBegun
           ["session-c"; "session-b"; "session-a"] (5 # 2)).
  - eapply rtc_l.
    { apply (SessionManager.step_begin sampleToString "a" "hello" [] testArgs). reflexivity. }
    eapply rtc_l.
    { apply (SessionManager.step_begin sampleToString "b" "hello" [] testArgs). reflexivity. }
    eapply rtc_l; [|apply rtc_refl].
    apply (SessionManager.step_begin sampleToString "c" "hello" [] testArgs). reflexivity.
  - reflexivity.
Defined.

(** With a limit of two and a half the manager admits a third session and
    rejects the fourth, writing the limit into its message. *)
Example two_and_a_half_admits_three :
  SessionManager.activeSessions (SessionManager.getStats (SessionManager.manager threeBegun))
  = 3
  ∧ SessionManager.handleRequest_begin sampleToString "d" "hello" [] testArgs threeBegun
    = (Throw (Error "Maximum concurrent sessions limit reached (2.5)"), threeBegun).
Proof. split; vm_compute; reflexivity. Qed.

Lemma every_session_accounted_witness :
  SessionManager.totalSessions
    (SessionManager.getStats (SessionManager.manager (settled defaultOptions)))
  = (SessionManager.completedSessions
       (SessionManager.getStats (SessionManager.manager (settled defaultOptions)))
     + SessionManager.failedSessions
         (SessionManager.getStats (SessionManager.manager (settled defaultOptions)))
     + Z.of_nat (length (@nil string)))%Z
  ∧ (SessionManager.activeSessions
       (SessionManager.getStats (SessionManager.manager (settled defaultOptions)))
     ≤ Z.of_nat (length (@nil string)))%Z
  ∧ (@nil string = [] →
     SessionManager._sessions (SessionManager.manager (settled defaultOptions)) = []).
Proof.
  apply (every_session_accounted sampleToString defaultOptions (settled defaultOptions) []).
  eapply rtc_l.
  { apply (SessionManager.step_begin sampleToString "a" "hello" [] testArgs). reflexivity. }
  eapply rtc_l; [|apply rtc_refl].
  apply (SessionManager.step_settle sampleToString "session-a" (Normal "done") _ _
           (Normal "done") [] []).
  reflexivity.
Defined.


Lemma undefined_limit_never_rejects_witness :
  (SessionManager.handleRequest sampleToString echo "b" "fail" [] testArgs
     (begun undefinedLimit)).1
  = echo [] "fail" testArgs
  ∧ (∃ w1,
       SessionManager.handleRequest_begin sampleToString "b" "fail" [] testArgs
         (begun undefinedLimit)
       = (Normal (SessionManager.generateSessionId "b"), w1))
  ∧ ∀ outcome w2,
      (SessionManager.handleRequest_settle (SessionManager.generateSessionId "b") outcome w2).1
      = outcome.
Proof.
  apply (undefined_limit_never_rejects sampleToString echo undefinedLimit
           (begun undefinedLimit) ["session-a"]).
  - reflexivity.
  - eapply rtc_l; [|apply rtc_refl].
    apply (SessionManager.step_begin sampleToString "a" "hello" [] testArgs). reflexivity.
Defined.
